(** * AutoTrader: vendor fetchers, schema normalisation, credential lookup,
      strategies

    A shallow embedding of

    - [data/fetch_akshare_data.py]  ([_normalize_ohlcv], [fetch_daily_akshare],
                                     [main]),
    - [data/fetch_tushare_data.py]  ([fetch_daily], [main]),
    - [framework/secrets.py]        ([get_env]),
    - [framework/strategy_base.py]  ([BaseStrategy]),
    - [decision/buy_and_hold.py]    ([BuyAndHoldStrategy]),
    - [decision/random_trader.py]   ([RandomTraderStrategy]),
    - [evaluation/evaluate.py]      ([load_strategy]),

    together with the part of pandas these functions call.  A data frame is
    an ordered list of labelled columns (labels may repeat, as in pandas);
    Python exceptions are values of [exn] threaded through the [result]
    monad; the vendor API and the process environment are explicit state. *)

From Stdlib Require Import ZArith Lia.
From stdpp Require Import base option list gmap strings fin_maps sorting.

Open Scope string_scope.
Open Scope list_scope.
Open Scope nat_scope.

(** ** Python exceptions and the error monad *)

Inductive exn : Type :=
  | SchemaMismatch (cols : list string)
      (* ValueError("Cannot find expected OHLCV columns in DataFrame: ..."),
         raised by _normalize_ohlcv itself; carries df.columns.tolist() *)
  | DateTimeParseError
      (* pd.to_datetime met a value of a Series it cannot parse *)
  | KeyError (labels : list string)
      (* a label looked up on a frame is not one of its columns *)
  | DuplicateLabel
      (* ValueError of pd.to_datetime / sort_values when the label selects
         several columns *)
  | TypeError
      (* pd.to_numeric handed a frame instead of a Series *)
  | RuntimeError
      (* the for-else of fetch_daily *)
  | VendorError (msg : string)
      (* whatever the vendor SDK raises *)
  | OSError
      (* open() of a file that cannot be opened *)
  | UnicodeEncodeError
      (* os.getenv: the name has no encoding *)
  | UnicodeDecodeError
      (* reading a file that is not text in the expected encoding *).

Inductive result (A : Type) : Type :=
  | Ok (a : A)
  | Raise (e : exn).
Arguments Ok {A} a.
Arguments Raise {A} e.

#[global] Instance result_ret : MRet result := λ A a, Ok a.
#[global] Instance result_bind : MBind result := λ A B f m,
  match m with Ok a => f a | Raise e => Raise e end.
#[global] Instance result_fmap : FMap result := λ A B f m,
  match m with Ok a => Ok (f a) | Raise e => Raise e end.

#[global] Instance exn_eq_dec : EqDecision exn.
Proof. solve_decision. Defined.

(** A Python [dict] from column label to column label. *)
Abbreviation dict := (gmap string string).

(** ** pandas *)

(** Outcome of parsing one value as a timestamp: a point in time (in
    nanoseconds since the epoch), the missing timestamp, or a failure. *)
Inductive dt_parse : Type :=
  | DtOk (t : Z)
  | DtNaT
  | DtFail.

#[global] Instance dt_parse_eq_dec : EqDecision dt_parse.
Proof. solve_decision. Defined.

(** Cell values.  [Obj] is a value as the vendor SDK delivered it (text, a
    number, None ...); the other constructors are what [pd.to_datetime] and
    [pd.to_numeric] produce. *)
Inductive cell {obj num : Type} : Type :=
  | Obj (o : obj)
  | Timestamp (t : Z)
  | NaT
  | Num (x : num)
  | NaN.
Arguments cell : clear implicits.

(** The two value parsers of pandas and its default sort are taken as an
    interface: what [pd.to_datetime] makes of one value of a column (the
    column is an argument since the date format is inferred from it),
    what [pd.to_numeric] reads from one value of a column (the column is an
    argument since one dtype is chosen for the whole column: a column with
    a missing value holds floats where it would hold integers), and the
    indexer [sort_values] computes ([nargsort]) from the keys of the sort
    column. *)
Class Pandas (obj num : Type) : Type := {
  parse_datetime : list (cell obj num) → cell obj num → dt_parse;
  parse_numeric : list (cell obj num) → cell obj num → option num;
  argsort : list (option Z) → list nat;
}.

(** Order of the sort keys: timestamps ascending, missing ones last
    ([na_position="last"]). *)
Definition key_le (a b : option Z) : Prop :=
  match a, b with
  | Some x, Some y => (x ≤ y)%Z
  | _, None => True
  | None, Some _ => False
  end.

#[global] Instance key_le_dec a b : Decision (key_le a b).
Proof. destruct a, b; simpl; apply _. Defined.

Section pandas.
Context {obj num : Type} `{!Pandas obj num}.

Abbreviation cell := (cell obj num).
Abbreviation Series := (list cell).
Abbreviation DataFrame := (list (string * list cell)).

(** What [df[label]] evaluates to. *)
Inductive selection : Type :=
  | OneColumn (xs : Series)
  | SubFrame (cols : DataFrame).

Definition columns (df : DataFrame) : list string := df.*1.

(** [df.rename(columns=mp)]: every label [c] becomes [mp.get(c, c)]. *)
Definition rename (mp : dict) (df : DataFrame) : DataFrame :=
  prod_map (λ c, default c (mp !! c)) id <$> df.

(** The columns carrying [label], in frame order. *)
Definition loc (label : string) (df : DataFrame) : DataFrame :=
  filter (λ col, col.1 = label) df.

(** [df[labels]] with a list of labels: KeyError when one is absent,
    otherwise, for each label in turn, every column that carries it. *)
Definition getitem_list (labels : list string) (df : DataFrame)
  : result DataFrame :=
  match filter (λ l, l ∉ columns df) labels with
  | [] => Ok (labels ≫= λ l, loc l df)
  | missing => Raise (KeyError missing)
  end.

(** [df[label]]: a Series when one column carries the label, a frame when
    several do. *)
Definition getitem (label : string) (df : DataFrame) : result selection :=
  match loc label df with
  | [] => Raise (KeyError [label])
  | [(_, xs)] => Ok (OneColumn xs)
  | cols => Ok (SubFrame cols)
  end.

(** [df[label] = xs]: overwrite the column(s) carrying the label, or append
    a new column. *)
Definition setitem (label : string) (xs : Series) (df : DataFrame)
  : DataFrame :=
  if decide (label ∈ columns df)
  then (λ col, if decide (col.1 = label) then (label, xs) else col) <$> df
  else df ++ [(label, xs)].

Definition to_datetime_cell (column : Series) (c : cell) : result cell :=
  match parse_datetime column c with
  | DtOk t => Ok (Timestamp t)
  | DtNaT => Ok NaT
  | DtFail => Raise DateTimeParseError
  end.

Fixpoint to_datetime_cells (column xs : Series) : result Series :=
  match xs with
  | [] => Ok []
  | c :: xs =>
      c' ← to_datetime_cell column c;
      xs' ← to_datetime_cells column xs;
      Ok (c' :: xs')
  end.

(** [pd.to_datetime] on a Series: every value is converted, the first
    failure is raised. *)
Definition to_datetime_series (xs : Series) : result Series :=
  to_datetime_cells xs xs.

(** [pd.to_datetime(arg)] with the default [errors="raise"].  A frame here
    is always one selected by a repeated label, which pandas refuses
    ("cannot assemble with duplicate keys"). *)
Definition to_datetime (arg : selection) : result Series :=
  match arg with
  | OneColumn xs => to_datetime_series xs
  | SubFrame _ => Raise DuplicateLabel
  end.

Definition to_numeric_cell (column : Series) (c : cell) : cell :=
  match parse_numeric column c with
  | Some x => Num x
  | None => NaN
  end.

(** [pd.to_numeric(arg, errors="coerce")]: every value of the Series is
    converted as a value of that Series. *)
Definition to_numeric (arg : selection) : result Series :=
  match arg with
  | OneColumn xs => Ok (to_numeric_cell xs <$> xs)
  | SubFrame _ => Raise TypeError
  end.

Definition sort_key (c : cell) : option Z :=
  match c with
  | Timestamp t => Some t
  | _ => None
  end.

(** Reorder a column by an indexer. *)
Definition take (indexer : list nat) (xs : Series) : Series :=
  omap (λ i, xs !! i) indexer.

(** [df.sort_values(by)]: the indexer is computed from the keys of the
    sort column and every column is reordered by it. *)
Definition sort_values (by_ : string) (df : DataFrame) : result DataFrame :=
  match loc by_ df with
  | [] => Raise (KeyError [by_])
  | [(_, ks)] =>
      let indexer := argsort (sort_key <$> ks) in
      Ok (prod_map id (take indexer) <$> df)
  | _ => Raise DuplicateLabel
  end.

(** All columns have [n] rows. *)
Definition rectangular (n : nat) (df : DataFrame) : Prop :=
  Forall (λ col, length col.2 = n) df.

(** ** data/fetch_akshare_data.py *)

Definition zh_map : dict :=
  {[ "日期" := "datetime"; "开盘" := "open"; "最高" := "high";
     "最低" := "low"; "收盘" := "close"; "成交量" := "volume" ]}.
Definition en_map : dict :=
  {[ "date" := "datetime"; "open" := "open"; "high" := "high";
     "low" := "low"; "close" := "close"; "volume" := "volume" ]}.
Definition zh_lot_map : dict :=
  {[ "日期" := "datetime"; "开盘" := "open"; "最高" := "high";
     "最低" := "low"; "收盘" := "close"; "成交量(手)" := "volume" ]}.
Definition zh_share_map : dict :=
  {[ "日期" := "datetime"; "开盘" := "open"; "最高" := "high";
     "最低" := "low"; "收盘" := "close"; "成交量(股)" := "volume" ]}.

Definition builtin_maps : list dict :=
  [zh_map; en_map; zh_lot_map; zh_share_map].

(** [candidate_maps] after [if mapping: candidate_maps.insert(0, mapping)]:
    [None] and the empty dict are both falsy. *)
Definition candidate_maps (mapping : option dict) : list dict :=
  match mapping with
  | Some m => if decide (m = ∅) then builtin_maps else m :: builtin_maps
  | None => builtin_maps
  end.

(** [all(col in df.columns for col in mp.keys())] *)
Definition all_keys_in (cols : list string) (mp : dict) : bool :=
  forallb (λ col, bool_decide (col ∈ cols)) (map_to_list mp).*1.

Definition use_cols : list string :=
  ["datetime"; "open"; "high"; "low"; "close"; "volume"].
Definition numeric_cols : list string :=
  ["open"; "high"; "low"; "close"; "volume"].

(** [for c in cs: df[c] = pd.to_numeric(df[c], errors="coerce")] *)
Fixpoint coerce_columns (cs : list string) (df : DataFrame)
  : result DataFrame :=
  match cs with
  | [] => Ok df
  | c :: cs =>
      s ← getitem c df ≫= to_numeric;
      coerce_columns cs (setitem c s df)
  end.

(** Lines 46-53 of [_normalize_ohlcv]: what happens to the renamed frame. *)
Definition project_and_type (df : DataFrame) : result DataFrame :=
  df ← getitem_list use_cols df;
  dt ← getitem "datetime" df ≫= to_datetime;
  df ← coerce_columns numeric_cols (setitem "datetime" dt df);
  sort_values "datetime" df.

Definition _normalize_ohlcv (df : DataFrame) (mapping : option dict)
  : result DataFrame :=
  match find (all_keys_in (columns df)) (candidate_maps mapping) with
  | Some mp => project_and_type (rename mp df)
  | None => Raise (SchemaMismatch (columns df))
  end.

(** [fetch_daily_akshare]: the vendor call [ak.stock_zh_a_hist] is the
    argument [stock_zh_a_hist]; its outcome is normalised with no custom
    mapping. *)
Definition fetch_daily_akshare (stock_zh_a_hist : result DataFrame)
  : result DataFrame :=
  df ← stock_zh_a_hist;
  _normalize_ohlcv df None.

(** ** data/fetch_tushare_data.py *)

Definition tushare_map : dict :=
  {[ "trade_date" := "datetime"; "open" := "open"; "high" := "high";
     "low" := "low"; "close" := "close"; "vol" := "volume" ]}.

(** What [fetch_daily] does to the outside world: calls of [pro.daily] and
    lines printed; its retry loop performs nothing else (it does not
    sleep).  [ts.set_token] and [ts.pro_api] only prepare the client that
    the oracle [daily] stands for. *)
Inductive event : Type :=
  | ApiCall
  | Printed (attempt retry_count : Z) (e : exn).

Record world : Type := { calls : nat; trace : list event }.

(** [pro.daily(...)]: the vendor is an oracle giving the outcome of its
    k-th invocation. *)
Definition pro_daily (daily : nat → result DataFrame) (w : world)
  : result DataFrame * world :=
  (daily (calls w), {| calls := S (calls w); trace := trace w ++ [ApiCall] |}).

(** [print(f'API call failed (attempt {attempt + 1}/{retry_count}): {e}. Retrying...')] *)
Definition print_failed (attempt retry_count : Z) (e : exn) (w : world)
  : world :=
  {| calls := calls w;
     trace := trace w ++ [Printed (attempt + 1) retry_count e] |}.

(** The [for attempt in range(retry_count)] loop with its [else] clause;
    [attempts] is what is left of the range. *)
Fixpoint retry_loop (daily : nat → result DataFrame) (retry_count : Z)
    (attempts : list Z) (w : world) : result DataFrame * world :=
  match attempts with
  | [] => (Raise RuntimeError, w)
  | attempt :: attempts =>
      let '(r, w) := pro_daily daily w in
      match r with
      | Ok df => (Ok df, w)
      | Raise e =>
          if decide (attempt + 1 = retry_count)%Z then (Raise e, w)
          else retry_loop daily retry_count attempts
                 (print_failed attempt retry_count e w)
      end
  end.

(** Lines 72-85 of [fetch_daily]: rename, parse the dates, sort, project. *)
Definition rename_sort_project (df : DataFrame) : result DataFrame :=
  let df := rename tushare_map df in
  dt ← getitem "datetime" df ≫= to_datetime;
  df ← sort_values "datetime" (setitem "datetime" dt df);
  getitem_list use_cols df.

(** The default of the [retry_count] parameter. *)
Definition retry_count_default : Z := 3.

Definition fetch_daily (daily : nat → result DataFrame) (retry_count : Z)
    (w : world) : result DataFrame * world :=
  let '(r, w) := retry_loop daily retry_count (seqZ 0 retry_count) w in
  (r ≫= rename_sort_project, w).

End pandas.

(** ** framework/secrets.py *)

(** The names of environment variables are Python strings, the
    environment holds bytes: [os.getenv] encodes the name (filesystem
    encoding, surrogateescape), which fails for a string that has no
    encoding.  The encoding is taken as an interface. *)
Class Interpreter (str : Type) : Type := {
  fsencode : str → option string;
}.

(** The process environment and what [load_dotenv(find_dotenv())] does in
    this process: nothing when no [.env] file is found; otherwise the
    variables it sets where they are not set yet, and the exception it then
    raises, if any.  A search that fails, or a file that cannot be read or
    decoded, raises before any variable is set. *)
Record process : Type := {
  environ : gmap string string;
  dotenv_file : option (gmap string string * option exn);
}.

(** [load_dotenv(find_dotenv())]: variables of the file are added to the
    environment; variables already set keep their value. *)
Definition load_dotenv (p : process) : result () * process :=
  match dotenv_file p with
  | None => (Ok (), p)
  | Some (pairs, failure) =>
      (match failure with Some e => Raise e | None => Ok () end,
       {| environ := environ p ∪ pairs; dotenv_file := dotenv_file p |})
  end.

(** [if not v]: [None] and the empty string are falsy. *)
Definition falsy (v : option string) : bool :=
  match v with
  | None => true
  | Some s => bool_decide (s = "")
  end.

Section secrets.
Context {str : Type} `{!Interpreter str}.

(** [os.getenv(name)]; the value is given as the environment holds it
    (decoding it never fails and keeps the empty value empty). *)
Definition os_getenv (name : str) (p : process) : result (option string) :=
  match fsencode name with
  | None => Raise UnicodeEncodeError
  | Some key => Ok (environ p !! key)
  end.

Definition get_env (name : str) (p : process)
  : result (option string) * process :=
  let '(loaded, p) := load_dotenv p in
  match loaded with
  | Raise e => (Raise e, p)
  | Ok _ =>
      match os_getenv name p with
      | Raise e => (Raise e, p)
      | Ok v => if falsy v then (Ok None, p) else (Ok v, p)
      end
  end.

End secrets.

(** ** framework/strategy_base.py, decision/buy_and_hold.py,
       decision/random_trader.py

    The strategies are callbacks of the backtest engine.  What a callback
    reads from the engine (position, clock, bar count, broker value) is its
    argument [bar]; what it does to the outside (orders sent to the broker,
    lines printed, random numbers drawn) is recorded in the state next to
    the attributes of the strategy object.  Floats are the rationals they
    denote; they are compared and passed on, never computed with. *)

Abbreviation Q := QArith_base.Q.

Inductive order_status : Type :=
  | Created | Submitted | Accepted | Partial | Completed
  | Canceled | Expired | Margin | Rejected.

#[global] Instance order_status_eq_dec : EqDecision order_status.
Proof. solve_decision. Defined.

(** An order as [notify_order] sees it. *)
Record order_view : Type := {
  status : order_status;
  isbuy : bool;
  executed_price : Q;
  executed_value : Q;
  executed_comm : Q;
}.

Record trade_view : Type := { isclosed : bool; pnl : Q; pnlcomm : Q }.

(** What the strategy reads from the engine during one callback:
    [self.position.size], [self.datas[0].datetime.datetime(0)],
    [len(self)], [self.broker.getvalue()]. *)
Record bar : Type := {
  position : Z;
  clock : Z;
  bars_seen : nat;
  broker_value : Q;
}.

(** The text handed to [log], by the f-string that builds it. *)
Inductive message : Type :=
  | BuyExecuted (price value comm : Q)
  | SellExecuted (price value comm : Q)
  | OrderNotDone (o : order_view)
  | TradeProfit (gross net : Q)
  | EndingValue (v : Q)
  | PlacingBuy (size : Z)
  | RandomBuy (size : Z)
  | RandomSell (size : Z).

(** An order handed to the broker. *)
Inductive request : Type :=
  | BuyReq (size : Z)
  | SellReq (size : Z).

#[global] Instance request_eq_dec : EqDecision request.
Proof. solve_decision. Defined.

Record params : Type := {
  printlog : bool;
  size : Z;
  buy_prob : Q;
  sell_prob : Q;
}.

(** The strategy object ([order], [bought], [bar_executed]; [bought] is an
    attribute of the buy-and-hold strategy only) and its effects so far. *)
Record strategy : Type := {
  order : option nat;
  bought : bool;
  bar_executed : option nat;
  sent : list request;
  printed : list (Z * message);
  drawn : nat;
}.

Definition with_order (o : option nat) (s : strategy) : strategy :=
  {| order := o; bought := bought s; bar_executed := bar_executed s;
     sent := sent s; printed := printed s; drawn := drawn s |}.

Definition with_bought (b : bool) (s : strategy) : strategy :=
  {| order := order s; bought := b; bar_executed := bar_executed s;
     sent := sent s; printed := printed s; drawn := drawn s |}.

Definition with_bar_executed (n : nat) (s : strategy) : strategy :=
  {| order := order s; bought := bought s; bar_executed := Some n;
     sent := sent s; printed := printed s; drawn := drawn s |}.

(** [print(f'{dt.isoformat()} - {txt}')] *)
Definition print_line (dt : Z) (txt : message) (s : strategy) : strategy :=
  {| order := order s; bought := bought s; bar_executed := bar_executed s;
     sent := sent s; printed := printed s ++ [(dt, txt)]; drawn := drawn s |}.

(** [bt.Strategy.buy] and [bt.Strategy.sell]: no order (None) for a size of
    zero, otherwise an order for the absolute size goes to the broker; the
    order object is identified by its rank among the orders sent. *)
Definition submit (req : Z → request) (size : Z) (s : strategy)
  : option nat * strategy :=
  if decide (size = 0%Z) then (None, s)
  else (Some (length (sent s)),
        {| order := order s; bought := bought s;
           bar_executed := bar_executed s;
           sent := sent s ++ [req (Z.abs size)];
           printed := printed s; drawn := drawn s |}).

Definition buy : Z → strategy → option nat * strategy := submit BuyReq.
Definition sell : Z → strategy → option nat * strategy := submit SellReq.

(** [random.random()]: the generator is the stream [rng]; each call takes
    its next value. *)
Definition random_random (rng : nat → Q) (s : strategy) : Q * strategy :=
  (rng (drawn s),
   {| order := order s; bought := bought s; bar_executed := bar_executed s;
      sent := sent s; printed := printed s; drawn := S (drawn s) |}).

Module BaseStrategy.

(** [__init__]; [bought] is set by the subclass. *)
Definition init : strategy :=
  {| order := None; bought := false; bar_executed := None;
     sent := []; printed := []; drawn := 0 |}.

Definition log (p : params) (b : bar) (txt : message) (dt : option Z)
    (s : strategy) : strategy :=
  if printlog p then
    let dt := default (clock b) dt in
    print_line dt txt s
  else s.

Definition notify_order (p : params) (b : bar) (o : order_view)
    (s : strategy) : strategy :=
  if decide (status o ∈ [Submitted; Accepted]) then s
  else
    let s :=
      if decide (status o ∈ [Completed]) then
        let s :=
          if isbuy o then
            log p b (BuyExecuted (executed_price o) (executed_value o)
                       (executed_comm o)) None s
          else
            log p b (SellExecuted (executed_price o) (executed_value o)
                       (executed_comm o)) None s in
        with_bar_executed (bars_seen b) s
      else if decide (status o ∈ [Canceled; Margin; Rejected]) then
        log p b (OrderNotDone o) None s
      else s in
    with_order None s.

Definition notify_trade (p : params) (b : bar) (t : trade_view)
    (s : strategy) : strategy :=
  if negb (isclosed t) then s
  else log p b (TradeProfit (pnl t) (pnlcomm t)) None s.

Definition stop (p : params) (b : bar) (s : strategy) : strategy :=
  log p b (EndingValue (broker_value b)) None s.

End BaseStrategy.

Module BuyAndHoldStrategy.

Definition init : strategy := with_bought false BaseStrategy.init.

Definition next (p : params) (b : bar) (s : strategy) : strategy :=
  if decide (is_Some (order s)) then s
  else if decide (position b = 0%Z ∧ bought s = false) then
    let s := BaseStrategy.log p b (PlacingBuy (size p)) None s in
    let '(o, s) := buy (size p) s in
    with_bought true (with_order o s)
  else s.

End BuyAndHoldStrategy.

Module RandomTraderStrategy.

Definition init : strategy := BaseStrategy.init.

Definition next (rng : nat → Q) (p : params) (b : bar) (s : strategy)
  : strategy :=
  if decide (is_Some (order s)) then s
  else if decide (position b = 0%Z) then
    let '(r, s) := random_random rng s in
    if QArith_base.Qlt_le_dec r (buy_prob p) then
      let s := BaseStrategy.log p b (RandomBuy (size p)) None s in
      let '(o, s) := buy (size p) s in
      with_order o s
    else s
  else
    let '(r, s) := random_random rng s in
    if QArith_base.Qlt_le_dec r (sell_prob p) then
      let s := BaseStrategy.log p b (RandomSell (position b)) None s in
      let '(o, s) := sell (position b) s in
      with_order o s
    else s.

End RandomTraderStrategy.

(** The engine drives a strategy by calling its methods, in some order. *)
Inductive callback : Type :=
  | CallNext (b : bar)
  | CallNotifyOrder (b : bar) (o : order_view)
  | CallNotifyTrade (b : bar) (t : trade_view)
  | CallStop (b : bar).

Definition dispatch (next : params → bar → strategy → strategy)
    (p : params) (s : strategy) (c : callback) : strategy :=
  match c with
  | CallNext b => next p b s
  | CallNotifyOrder b o => BaseStrategy.notify_order p b o s
  | CallNotifyTrade b t => BaseStrategy.notify_trade p b t s
  | CallStop b => BaseStrategy.stop p b s
  end.

Definition run (next : params → bar → strategy → strategy) (p : params)
    (cs : list callback) (s : strategy) : strategy :=
  foldl (dispatch next p) s cs.

(** ** evaluation/evaluate.py: [load_strategy] *)

Module evaluate.

(** How [load_strategy] fails; [E] is what the code of an imported module
    can raise. *)
Inductive load_error {E : Type} : Type :=
  | UnknownStrategy (name : string)
      (* KeyError(f'Unknown strategy: {name}') *)
  | UnpackError
      (* ValueError: the two-name unpacking of rsplit's result *)
  | ModuleNotFound (module : string)
      (* importlib.import_module: no module of that name *)
  | ImportRaised (module : string) (e : E)
      (* importlib.import_module: running the module raises, as a failing
         import statement of its own does *)
  | AttributeMissing (module attr : string)
      (* getattr *).
Arguments load_error : clear implicits.

(** [s.rsplit(sep, 1)] for a one-character separator: the text before and
    after the last separator, when there is one. *)
Fixpoint rsplit_last (sep : Ascii.ascii) (s : string)
  : option (string * string) :=
  match s with
  | EmptyString => None
  | String a s' =>
      match rsplit_last sep s' with
      | Some (before, after) => Some (String a before, after)
      | None => if decide (a = sep) then Some (EmptyString, s') else None
      end
  end.

Definition rsplit (sep : Ascii.ascii) (s : string) : list string :=
  match rsplit_last sep s with
  | Some (before, after) => [before; after]
  | None => [s]
  end.

(** The character ['.']. *)
Definition dot : Ascii.ascii := Ascii.ascii_of_nat 46.

Definition mapping : gmap string string :=
  {[ "buy_hold" := "buy_and_hold.BuyAndHoldStrategy";
     "random" := "random_trader.RandomTraderStrategy" ]}.

(** What can be imported is a table from module name to what importing
    the module gives: the exception its code raises, or the module, a table
    from attribute name to object.  A name outside the table is no
    module. *)
Definition load_strategy {C E : Type}
    (modules : gmap string (E + gmap string C)) (name : string)
  : load_error E + C :=
  match mapping !! name with
  | None => inl (UnknownStrategy name)
  | Some target =>
      match rsplit dot target with
      | [module_name; class_name] =>
          match modules !! ("decision." +:+ module_name) with
          | None => inl (ModuleNotFound ("decision." +:+ module_name))
          | Some (inl e) => inl (ImportRaised ("decision." +:+ module_name) e)
          | Some (inr module) =>
              match module !! class_name with
              | None =>
                  inl (AttributeMissing ("decision." +:+ module_name)
                         class_name)
              | Some cls => inr cls
              end
          end
      | _ => inl UnpackError
      end
  end.

End evaluate.

(** ** The [main] functions of the two fetch scripts

    [parser.parse_args()] is the argument [args]; the file system is a table
    from path to what the file holds, with an oracle for what writing a
    frame to a path meets; [saved] is the list of (row count, path) of the
    "Saved ... rows to ..." lines printed. *)

(** What a file holds: the CSV text of a frame, or what a write that
    failed has left of it. *)
Inductive content {obj num : Type} : Type :=
  | Csv (df : list (string * list (cell obj num)))
  | Incomplete.
Arguments content : clear implicits.

(** What writing meets: nothing, an exception on opening the file (no such
    directory, no permission), or an exception after the file was opened
    (no space left, a value that cannot be encoded). *)
Inductive write_outcome : Type :=
  | Written
  | NotOpened (e : exn)
  | Interrupted (e : exn).

Record disk {obj num : Type} : Type := {
  files : gmap string (content obj num);
  writing : string → list (string * list (cell obj num)) → write_outcome;
  saved : list (nat * string);
}.
Arguments disk : clear implicits.

Section scripts.
Context {obj num : Type} `{!Pandas obj num}.

Abbreviation DataFrame := (list (string * list (cell obj num))).

(** [len(df)] of a frame that has columns. *)
Definition len (df : DataFrame) : nat :=
  match df with
  | [] => 0
  | column :: _ => length column.2
  end.

(** [df.to_csv(path, index=False)]: an exception on opening leaves the
    disk as it is, one raised later leaves the file incomplete. *)
Definition to_csv (df : DataFrame) (path : string) (d : disk obj num)
  : result () * disk obj num :=
  match writing d path df with
  | Written =>
      (Ok (),
       {| files := <[path := Csv df]> (files d); writing := writing d;
          saved := saved d |})
  | NotOpened e => (Raise e, d)
  | Interrupted e =>
      (Raise e,
       {| files := <[path := Incomplete]> (files d); writing := writing d;
          saved := saved d |})
  end.

(** [print(f"Saved {len(df)} rows to {args.outfile}")] *)
Definition print_saved (rows : nat) (path : string) (d : disk obj num)
  : disk obj num :=
  {| files := files d; writing := writing d;
     saved := saved d ++ [(rows, path)] |}.

Record akshare_args : Type := {
  ak_symbol : string;
  ak_start : option string;
  ak_end : option string;
  ak_adjust : string;
  ak_outfile : string;
}.

Record tushare_args : Type := {
  ts_token : string;
  ts_symbol : string;
  ts_start : option string;
  ts_end : option string;
  ts_outfile : string;
}.

(** [main] of data/fetch_akshare_data.py; [stock_zh_a_hist] is the vendor
    call as a function of symbol, start, end and adjust. *)
Definition akshare_main
    (stock_zh_a_hist :
       string → option string → option string → string → result DataFrame)
    (args : akshare_args) (d : disk obj num) : result () * disk obj num :=
  match fetch_daily_akshare
          (stock_zh_a_hist (ak_symbol args) (ak_start args) (ak_end args)
             (ak_adjust args)) with
  | Raise e => (Raise e, d)
  | Ok df =>
      let '(written, d) := to_csv df (ak_outfile args) d in
      match written with
      | Raise e => (Raise e, d)
      | Ok _ => (Ok (), print_saved (len df) (ak_outfile args) d)
      end
  end.

(** [main] of data/fetch_tushare_data.py; [pro_daily_for] is the vendor
    oracle for a token, symbol, start and end; [retry_count] is left to its
    default. *)
Definition tushare_main
    (pro_daily_for :
       string → string → option string → option string →
       nat → result DataFrame)
    (args : tushare_args) (w : world) (d : disk obj num)
  : result () * world * disk obj num :=
  let '(r, w) :=
    fetch_daily
      (pro_daily_for (ts_token args) (ts_symbol args) (ts_start args)
         (ts_end args))
      retry_count_default w in
  match r with
  | Raise e => (Raise e, w, d)
  | Ok df =>
      let '(written, d) := to_csv df (ts_outfile args) d in
      match written with
      | Raise e => (Raise e, w, d)
      | Ok _ => (Ok (), w, print_saved (len df) (ts_outfile args) d)
      end
  end.

End scripts.

(** ** A small vendor vocabulary for examples

    Vendor values are text; a non-empty string of decimal digits reads as
    that number (as a date such as 20240102 or as a price), the empty string
    is a missing date, anything else does not parse.  A numeric column all
    of whose values read as integers holds integers; as soon as one value
    does not, it holds floats and the missing-value marker.  The sample
    indexer is a merge sort of the keys paired with their positions. *)
Module Sample.

Definition digit (a : Ascii.ascii) : option Z :=
  let n := Z.of_nat (Ascii.nat_of_ascii a) in
  if decide (48 ≤ n ≤ 57)%Z then Some (n - 48)%Z else None.

Fixpoint digits (acc : Z) (s : string) : option Z :=
  match s with
  | EmptyString => Some acc
  | String a s => d ← digit a; digits (10 * acc + d) s
  end.

Definition number (s : string) : option Z :=
  match s with
  | EmptyString => None
  | _ => digits 0 s
  end.

(** The numbers of a typed column: an integer (int64) or the float
    (float64) of that integral value. *)
Inductive scalar : Type :=
  | I64 (z : Z)
  | F64 (z : Z).

#[global] Instance scalar_eq_dec : EqDecision scalar.
Proof. solve_decision. Defined.

(** Python strings as their code points, encoded as UTF-8 with the
    surrogateescape handler: the surrogates U+DC80 to U+DCFF stand for the
    bytes 128 to 255, any other surrogate has no encoding. *)
Definition byte (n : N) : string := String (Ascii.ascii_of_N n) EmptyString.

Definition encode_point (c : N) : option string :=
  if (c <? 128)%N then Some (byte c)
  else if (c <? 2048)%N then
    Some (byte (192 + c / 64) +:+ byte (128 + c mod 64))
  else if ((55296 <=? c) && (c <=? 57343))%N then
    if ((56448 <=? c) && (c <=? 56575))%N then Some (byte (c - 56320))
    else None
  else if (c <? 65536)%N then
    Some (byte (224 + c / 4096) +:+ byte (128 + (c / 64) mod 64)
          +:+ byte (128 + c mod 64))
  else
    Some (byte (240 + c / 262144) +:+ byte (128 + (c / 4096) mod 64)
          +:+ byte (128 + (c / 64) mod 64) +:+ byte (128 + c mod 64)).

Fixpoint encode (s : list N) : option string :=
  match s with
  | [] => Some EmptyString
  | c :: s => b ← encode_point c; r ← encode s; Some (b +:+ r)
  end.

#[global] Instance utf8 : Interpreter (list N) := {| fsencode := encode |}.

(** The Python string of an ASCII text. *)
Fixpoint text (s : string) : list N :=
  match s with
  | EmptyString => []
  | String a s => Ascii.N_of_ascii a :: text s
  end.

(** Two ways of ordering (key, position) pairs by key; they differ on
    equal keys only: the earlier position first, or the later one first. *)
Definition by_key (a b : option Z * nat) : Prop :=
  key_le a.1 b.1 ∧ (key_le b.1 a.1 → a.2 ≤ b.2).

Definition by_key_later_first (a b : option Z * nat) : Prop :=
  key_le a.1 b.1 ∧ (key_le b.1 a.1 → b.2 ≤ a.2).

#[global] Instance by_key_dec a b : Decision (by_key a b).
Proof. unfold by_key. apply _. Defined.

#[global] Instance by_key_later_first_dec a b :
  Decision (by_key_later_first a b).
Proof. unfold by_key_later_first. apply _. Defined.

Definition merge_argsort (R : relation (option Z * nat))
    `{∀ a b, Decision (R a b)} (keys : list (option Z)) : list nat :=
  (merge_sort R (zip keys (seq 0 (length keys)))).*2.

Definition read_datetime (column : list (cell string scalar)) (c : cell string scalar)
  : dt_parse :=
  match c with
  | Obj s => if decide (s = "") then DtNaT
             else match number s with Some t => DtOk t | None => DtFail end
  | Timestamp t => DtOk t
  | Num (I64 z) | Num (F64 z) => DtOk z
  | NaT | NaN => DtNaT
  end.

(** A value that reads as an integer. *)
Definition integer (c : cell string scalar) : option Z :=
  match c with
  | Obj s => number s
  | Num (I64 z) => Some z
  | _ => None
  end.

(** The dtype of the converted column: integers when every value reads as
    one. *)
Definition all_integers (column : list (cell string scalar)) : bool :=
  forallb (λ c, match integer c with Some _ => true | None => false end)
    column.

Definition read_numeric (column : list (cell string scalar))
    (c : cell string scalar) : option scalar :=
  match c with
  | Num (F64 z) => Some (F64 z)
  | Timestamp _ | NaT | NaN => None
  | _ =>
      z ← integer c;
      Some (if all_integers column then I64 z else F64 z)
  end.

#[global] Instance vendor : Pandas string scalar := {|
  parse_datetime := read_datetime;
  parse_numeric := read_numeric;
  argsort := merge_argsort by_key;
|}.

(** The same vendor with a sort that leaves equal keys the other way
    round. *)
Definition vendor_later_first : Pandas string scalar := {|
  parse_datetime := read_datetime;
  parse_numeric := read_numeric;
  argsort := merge_argsort by_key_later_first;
|}.

(** Shorthand for a column of vendor text. *)
Definition col (label : string) (values : list string)
  : string * list (cell string scalar) :=
  (label, Obj <$> values).

(** An AKShare table with Chinese headers, newest row first: one price does
    not parse, both the plain and the lot-denominated volume column are
    present, and a column no candidate knows. *)
Definition bars_zh : list (string * list (cell string scalar)) :=
  [col "日期" ["20240103"; "20240102"; "20240101"];
   col "开盘" ["10"; "n/a"; "12"];
   col "最高" ["11"; "12"; "13"];
   col "最低" ["9"; "10"; "11"];
   col "收盘" ["10"; "11"; "12"];
   col "成交量" ["100"; "200"; "300"];
   col "成交量(手)" ["1"; "2"; "3"];
   col "股票代码" ["000001"; "000001"; "000001"]].

(** A table that already has the canonical headers. *)
Definition bars_canonical : list (string * list (cell string scalar)) :=
  [col "datetime" ["20240102"; "20240101"];
   col "open" ["10"; "11"]; col "high" ["12"; "13"]; col "low" ["8"; "9"];
   col "close" ["11"; "12"]; col "volume" ["100"; "200"]].

(** Tushare tables: as [pro.daily] shapes them, and one that carries a
    column named volume next to vol. *)
Definition bars_tushare : list (string * list (cell string scalar)) :=
  [col "ts_code" ["000001.SZ"; "000001.SZ"];
   col "trade_date" ["20240102"; "20240101"];
   col "open" ["10"; "11"]; col "high" ["12"; "13"]; col "low" ["8"; "9"];
   col "close" ["11"; "12"]; col "vol" ["100"; "200"]].

Definition bars_tushare_volume : list (string * list (cell string scalar)) :=
  bars_tushare ++ [col "volume" ["7"; "8"]].

(** A feed without a volume column, its dates unreadable, and a caller's
    mapping for its five headers. *)
Definition bars_five : list (string * list (cell string scalar)) :=
  [col "d" ["yesterday"]; col "o" ["10"]; col "h" ["12"]; col "l" ["8"];
   col "c" ["11"]].

Definition five_map : dict :=
  {[ "d" := "datetime"; "o" := "open"; "h" := "high"; "l" := "low";
     "c" := "close" ]}.

(** A vendor whose first [failures] invocations time out. *)
Definition flaky (failures : nat) (raw : list (string * list (cell string scalar)))
  : nat → result (list (string * list (cell string scalar))) :=
  λ k, if decide (k < failures) then Raise (VendorError "timeout") else Ok raw.

Definition fresh : world := {| calls := 0; trace := [] |}.

(** Two bars of the same day. *)
Definition bars_same_day : list (string * list (cell string scalar)) :=
  [col "日期" ["20240102"; "20240102"];
   col "开盘" ["10"; "11"]; col "最高" ["12"; "13"]; col "最低" ["8"; "9"];
   col "收盘" ["11"; "12"]; col "成交量" ["100"; "200"]].

(** An AKShare table one of whose dates is unreadable. *)
Definition bars_bad_date : list (string * list (cell string scalar)) :=
  [col "日期" ["20240102"; "soon"];
   col "开盘" ["10"; "11"]; col "最高" ["12"; "13"]; col "最低" ["8"; "9"];
   col "收盘" ["11"; "12"]; col "成交量" ["100"; "200"]].

(** An AKShare table whose second date is empty, and [bars_zh] with its
    unreadable price replaced by a readable one. *)
Definition bars_null_date : list (string * list (cell string scalar)) :=
  [col "日期" ["20240102"; ""];
   col "开盘" ["10"; "11"]; col "最高" ["12"; "13"]; col "最低" ["8"; "9"];
   col "收盘" ["11"; "12"]; col "成交量" ["100"; "200"]].

Definition bars_zh_readable : list (string * list (cell string scalar)) :=
  [col "日期" ["20240103"; "20240102"; "20240101"];
   col "开盘" ["10"; "11"; "12"];
   col "最高" ["11"; "12"; "13"];
   col "最低" ["9"; "10"; "11"];
   col "收盘" ["10"; "11"; "12"];
   col "成交量" ["100"; "200"; "300"];
   col "成交量(手)" ["1"; "2"; "3"];
   col "股票代码" ["000001"; "000001"; "000001"]].

End Sample.

(** ** Sample strategies, bars and script arguments for examples *)
Module Demo.

Definition half : Q := QArith_base.Qmake 1 2.

(** Parameters with logging off and on, and a random trader that always
    buys and never sells. *)
Definition quiet : params :=
  {| printlog := false; size := 10; buy_prob := half; sell_prob := half |}.

Definition loud : params :=
  {| printlog := true; size := 10; buy_prob := half; sell_prob := half |}.

Definition eager : params :=
  {| printlog := true; size := 10; buy_prob := QArith_base.Qmake 1 1;
     sell_prob := QArith_base.Qmake 0 1 |}.

(** A bar with no position and a bar with ten units held. *)
Definition flat : bar :=
  {| position := 0; clock := 20240102; bars_seen := 1;
     broker_value := QArith_base.Qmake 100000 1 |}.

Definition holding : bar :=
  {| position := 10; clock := 20240103; bars_seen := 2;
     broker_value := QArith_base.Qmake 100010 1 |}.

Definition accepted : order_view :=
  {| status := Accepted; isbuy := true;
     executed_price := QArith_base.Qmake 0 1;
     executed_value := QArith_base.Qmake 0 1;
     executed_comm := QArith_base.Qmake 0 1 |}.

(** A strategy whose first order is pending. *)
Definition pending : strategy :=
  {| order := Some 0; bought := true; bar_executed := None;
     sent := [BuyReq 10]; printed := []; drawn := 0 |}.

(** Callbacks that leave a pending order pending. *)
Definition waiting : list callback :=
  [CallNext flat; CallNotifyOrder flat accepted; CallNext holding;
   CallStop holding].

(** A random stream that alternates between a quarter and three
    quarters. *)
Definition coin (k : nat) : Q :=
  if Nat.even k then QArith_base.Qmake 1 4 else QArith_base.Qmake 3 4.

(** The six Chinese headers, with three rows, with the first two columns
    exchanged, and without rows. *)
Definition bars_plain : list (string * list (cell string Sample.scalar)) :=
  [Sample.col "日期" ["20240103"; "20240102"; "20240101"];
   Sample.col "开盘" ["10"; "11"; "12"];
   Sample.col "最高" ["11"; "12"; "13"];
   Sample.col "最低" ["9"; "10"; "11"];
   Sample.col "收盘" ["10"; "11"; "12"];
   Sample.col "成交量" ["100"; "200"; "300"]].

Definition bars_swapped : list (string * list (cell string Sample.scalar)) :=
  [Sample.col "开盘" ["10"; "11"; "12"];
   Sample.col "日期" ["20240103"; "20240102"; "20240101"];
   Sample.col "最高" ["11"; "12"; "13"];
   Sample.col "最低" ["9"; "10"; "11"];
   Sample.col "收盘" ["10"; "11"; "12"];
   Sample.col "成交量" ["100"; "200"; "300"]].

Definition bars_no_rows : list (string * list (cell string Sample.scalar)) :=
  [Sample.col "日期" []; Sample.col "开盘" []; Sample.col "最高" [];
   Sample.col "最低" []; Sample.col "收盘" []; Sample.col "成交量" []].

(** The vendors behind the two scripts, their arguments, and a disk
    without files. *)
Definition stock_zh_a_hist (symbol : string) (start end_ : option string)
    (adjust : string) : result (list (string * list (cell string Sample.scalar))) :=
  Ok Sample.bars_zh.

Definition pro_daily_for (token symbol : string) (start end_ : option string)
  : nat → result (list (string * list (cell string Sample.scalar))) :=
  Sample.flaky 1 Sample.bars_tushare.

Definition akshare_cli : akshare_args :=
  {| ak_symbol := "000001"; ak_start := Some "20240101";
     ak_end := Some "20240103"; ak_adjust := ""; ak_outfile := "bars.csv" |}.

Definition tushare_cli : tushare_args :=
  {| ts_token := "token"; ts_symbol := "000001.SZ";
     ts_start := Some "20240101"; ts_end := Some "20240102";
     ts_outfile := "bars.csv" |}.

Definition blank : disk string Sample.scalar :=
  {| files := ∅; writing := λ _ _, Written; saved := [] |}.

(** A disk on which the output path of the two scripts cannot be opened,
    and one that is full. *)
Definition no_directory : disk string Sample.scalar :=
  {| files := ∅; writing := λ _ _, NotOpened OSError; saved := [] |}.

Definition no_space : disk string Sample.scalar :=
  {| files := ∅; writing := λ _ _, Interrupted OSError; saved := [] |}.

(** What can be imported when [decision] is a top-level package: the
    relative import of decision/buy_and_hold.py goes beyond it and raises,
    decision/random_trader.py imports and defines its class. *)
Definition importable : gmap string (string + gmap string string) :=
  {[ "decision.buy_and_hold" :=
       inl "ImportError: attempted relative import beyond top-level package";
     "decision.random_trader" :=
       inr {[ "RandomTraderStrategy" := "class RandomTraderStrategy" ]} ]}.

End Demo.

(** * Properties *)

(** What [sort_values] promises of its indexer, whatever the sort kind: it
    is a permutation of the row positions, and the keys taken in its order
    ascend with the missing ones last.  The order it gives to rows with
    equal keys is not part of the contract. *)
Class SortContract `{Pandas obj num} : Prop := {
  argsort_perm keys : argsort keys ≡ₚ seq 0 (length keys);
  argsort_sorted keys :
    Sorted key_le (omap (λ i, keys !! i) (argsort keys));
}.

(** The key set of a candidate is contained in the column set. *)
Definition keys_within (mp : dict) (cols : list string) : Prop :=
  dom mp ⊆@{gset string} list_to_set cols.

(** [mp] is the first candidate of [cands] whose keys are all columns. *)
Definition first_match (cands : list dict) (cols : list string) (mp : dict)
  : Prop :=
  ∃ pre post, cands = pre ++ mp :: post
    ∧ Forall (λ m, ¬ keys_within m cols) pre
    ∧ keys_within mp cols.

(** The frame [_normalize_ohlcv] builds from the six selected columns once
    the dates [d'] are parsed: numeric cells coerced, every column reordered
    by the indexer of the dates. *)
Definition typed_frame `{Pandas obj num} (d' o h l c v : list (cell obj num))
  : list (string * list (cell obj num)) :=
  let indexer := argsort (sort_key <$> d') in
  [("datetime", take indexer d');
   ("open", take indexer (to_numeric_cell o <$> o));
   ("high", take indexer (to_numeric_cell h <$> h));
   ("low", take indexer (to_numeric_cell l <$> l));
   ("close", take indexer (to_numeric_cell c <$> c));
   ("volume", take indexer (to_numeric_cell v <$> v))].


(** The candidate list as the specification words it: the caller's
    mapping, when one is passed, then the built-in candidates. *)
Definition candidates_as_stated (mapping : option dict) : list dict :=
  option_list mapping ++ [zh_map; en_map; zh_lot_map; zh_share_map].

Definition is_schema_mismatch (e : exn) : Prop :=
  match e with SchemaMismatch _ => True | _ => False end.

(** What failed attempts leave in the trace: each one is a call followed
    at once by the printed notice, attempt numbers counting from [j + 1]. *)
Fixpoint retries (retry_count j : Z) (es : list exn) : list event :=
  match es with
  | [] => []
  | e :: es =>
      ApiCall :: Printed (j + 1) retry_count e
        :: retries retry_count (j + 1) es
  end.

(** The mapping of each canonical label to itself. *)
Definition canonical_map : dict :=
  {[ "datetime" := "datetime"; "open" := "open"; "high" := "high";
     "low" := "low"; "close" := "close"; "volume" := "volume" ]}.

(** The variables that loading the [.env] file sets where they are not set,
    and the exception that loading it raises. *)
Definition dotenv_pairs (p : process) : gmap string string :=
  match dotenv_file p with
  | Some (pairs, _) => pairs
  | None => ∅
  end.

Definition dotenv_failure (p : process) : option exn :=
  match dotenv_file p with
  | Some (_, failure) => failure
  | None => None
  end.

(** A callback that cannot end a pending order: anything but an order
    notification with a status other than Submitted and Accepted. *)
Definition keeps_pending (c : callback) : Prop :=
  match c with
  | CallNotifyOrder _ o => status o ∈ [Submitted; Accepted]
  | _ => True
  end.

(** A callback that is not a bar on which the position is flat. *)
Definition not_flat_bar (c : callback) : Prop :=
  match c with
  | CallNext b => position b ≠ 0%Z
  | _ => True
  end.

Definition is_buy_request (r : request) : Prop :=
  match r with BuyReq _ => True | SellReq _ => False end.

Definition is_sell_request (r : request) : Prop :=
  match r with SellReq _ => True | BuyReq _ => False end.

(** The buy-and-hold strategy has either not yet bought and sent nothing, or
    has set [bought] and sent its one order at most. *)
Definition buy_and_hold_invariant (p : params) (s : strategy) : Prop :=
  (bought s = false ∧ sent s = [] ∧ order s = None)
  ∨ (bought s = true
     ∧ (sent s = [] ∧ size p = 0%Z ∧ order s = None
        ∨ sent s = [BuyReq (Z.abs (size p))] ∧ size p ≠ 0%Z)).


(** The canonical labels that no column of a frame carries, in canonical
    order. *)
Definition missing_labels {obj num : Type}
    (df : list (string * list (cell obj num))) : list string :=
  filter (λ l, l ∉ columns df) use_cols.

(** Two strategy objects that differ in what was printed only. *)
Definition same_trading (s s' : strategy) : Prop :=
  order s = order s' ∧ bought s = bought s'
  ∧ bar_executed s = bar_executed s' ∧ sent s = sent s'
  ∧ drawn s = drawn s'.

(** The six canonical columns without a row. *)
Definition empty_table {obj num : Type}
  : list (string * list (cell obj num)) :=
  (λ l, (l, [])) <$> use_cols.

(** ** The error monad *)

Lemma bind_Ok {A B} (f : A → result B) (m : result A) (b : B) :
  m ≫= f = Ok b ↔ ∃ a, m = Ok a ∧ f a = Ok b.
Proof.
  destruct m as [a|e]; simpl; split.
  - intros Hf. by exists a.
  - by intros (a' & [= ->] & Hf).
  - intros [=].
  - by intros (a' & [=] & _).
Qed.

Lemma bind_Raise {A B} (f : A → result B) (m : result A) (e : exn) :
  m ≫= f = Raise e ↔ m = Raise e ∨ ∃ a, m = Ok a ∧ f a = Raise e.
Proof.
  destruct m as [a|e']; simpl; split.
  - intros Hf. right. by exists a.
  - intros [[=]|(a' & [= ->] & Hf)]. done.
  - intros [= ->]. by left.
  - intros [[= ->]|(a' & [=] & _)]. done.
Qed.

Lemma Ok_bind {A B} (f : A → result B) (a : A) : Ok a ≫= f = f a.
Proof. reflexivity. Qed.

(** ** Candidate scan *)

Lemma all_keys_in_within (cols : list string) (mp : dict) :
  all_keys_in cols mp = true ↔ keys_within mp cols.
Proof.
  unfold all_keys_in, keys_within.
  rewrite forallb_forall. split.
  - intros Hall k Hk. apply elem_of_dom in Hk as [v Hv].
    apply elem_of_list_to_set.
    assert (Hin : In k (map_to_list mp).*1).
    { apply list_elem_of_In, list_elem_of_fmap. exists (k, v).
      split; [done|]. by apply elem_of_map_to_list. }
    apply Hall in Hin. by apply bool_decide_eq_true in Hin.
  - intros Hsub k Hin. apply bool_decide_eq_true.
    apply list_elem_of_In, list_elem_of_fmap in Hin as ([k' v] & -> & Hkv).
    apply elem_of_map_to_list in Hkv. simpl.
    apply (elem_of_list_to_set (C:=gset string)), Hsub, elem_of_dom. eauto.
Qed.

Lemma find_first_match (cands : list dict) (cols : list string) (mp : dict) :
  find (all_keys_in cols) cands = Some mp ↔ first_match cands cols mp.
Proof.
  unfold first_match. induction cands as [|m cands IH]; simpl.
  - split; [done|]. intros ([|??] & ? & ? & _); discriminate.
  - destruct (all_keys_in cols m) eqn:Hm.
    + apply all_keys_in_within in Hm. split.
      * intros [= ->]. exists [], cands. by repeat split.
      * intros ([|m' pre] & post & Heq & Hpre & Hmp); simplify_eq/=; [done|].
        by apply Forall_cons in Hpre as [? _].
    + assert (¬ keys_within m cols) as Hm'.
      { rewrite <- all_keys_in_within. by rewrite Hm. }
      rewrite IH. split.
      * intros (pre & post & -> & Hpre & Hmp).
        exists (m :: pre), post. repeat split; [|done]. by constructor.
      * intros ([|m' pre] & post & Heq & Hpre & Hmp); simplify_eq/=; [done|].
        apply Forall_cons in Hpre as [_ Hpre]. by exists pre, post.
Qed.

Lemma find_no_match (cands : list dict) (cols : list string) :
  find (all_keys_in cols) cands = None
  ↔ Forall (λ m, ¬ keys_within m cols) cands.
Proof.
  induction cands as [|m cands IH]; simpl; [by split|].
  destruct (all_keys_in cols m) eqn:Hm.
  - apply all_keys_in_within in Hm. split; [done|].
    intros [? _]%Forall_cons. done.
  - rewrite IH. rewrite Forall_cons. split; [|tauto].
    intros ?. split; [|done]. rewrite <- all_keys_in_within. by rewrite Hm.
Qed.

(** ** Frames *)

Section frames.
Context {obj num : Type} `{!Pandas obj num}.

Implicit Types (df : list (string * list (cell obj num))).
Implicit Types (xs : list (cell obj num)).
Implicit Types (l : string).
Implicit Types (daily : nat → result (list (string * list (cell obj num)))).

Lemma loc_app l df1 df2 : loc l (df1 ++ df2) = loc l df1 ++ loc l df2.
Proof. apply filter_app. Qed.

Lemma loc_labels l df : Forall (λ c, c.1 = l) (loc l df).
Proof. apply Forall_forall. by intros c [? _]%list_elem_of_filter. Qed.

Lemma loc_nil l df : loc l df = [] ↔ l ∉ columns df.
Proof.
  unfold loc, columns. induction df as [|[l' xs] df IH]; simpl.
  - split; [|done]. intros _. apply not_elem_of_nil.
  - rewrite filter_cons, not_elem_of_cons. simpl.
    destruct (decide (l' = l)) as [->|Hne]; [split; [done|tauto]|].
    rewrite IH. split; [|tauto]. intros ?. split; [congruence|done].
Qed.

Lemma loc_present l df col cols : loc l df = col :: cols → l ∈ columns df.
Proof.
  intros Hl. destruct (decide (l ∈ columns df)) as [|Hn]; [done|].
  apply loc_nil in Hn. congruence.
Qed.

Lemma loc_other l l' df : l ≠ l' → loc l (loc l' df) = [].
Proof.
  intros Hne. apply loc_nil. unfold columns.
  intros ([? ?] & -> & [? _]%list_elem_of_filter)%list_elem_of_fmap.
  simpl in *. congruence.
Qed.

Lemma loc_same l df : loc l (loc l df) = loc l df.
Proof. unfold loc. rewrite list_filter_filter. apply list_filter_iff. tauto. Qed.

(** Selecting [labels] and then looking up one of them gives the columns
    that carried it in the first place. *)
Lemma loc_select l labels df :
  NoDup labels → l ∈ labels →
  loc l (labels ≫= λ l', loc l' df) = loc l df.
Proof.
  induction labels as [|l' labels IH]; intros Hnd Hin.
  - by apply elem_of_nil in Hin.
  - apply NoDup_cons in Hnd as [Hfresh Hnd].
    rewrite bind_cons, loc_app.
    destruct (decide (l = l')) as [->|Hne].
    + rewrite loc_same.
      assert (loc l' (labels ≫= λ l'', loc l'' df) = []) as ->;
        [|by rewrite app_nil_r].
      clear IH Hin Hnd. induction labels as [|l labels IH]; [done|].
      apply not_elem_of_cons in Hfresh as [Hne Hfresh].
      rewrite bind_cons, loc_app, loc_other, IH by done. done.
    + apply elem_of_cons in Hin as [?|Hin]; [done|].
      rewrite loc_other by done. by apply IH.
Qed.

Lemma getitem_list_Ok labels df out :
  getitem_list labels df = Ok out
  ↔ Forall (λ l, l ∈ columns df) labels ∧ out = labels ≫= λ l, loc l df.
Proof.
  unfold getitem_list.
  destruct (filter _ labels) as [|m ms] eqn:Hf.
  - assert (Forall (λ l, l ∈ columns df) labels) as Hall.
    { apply Forall_forall. intros l Hl.
      destruct (decide (l ∈ columns df)) as [|Hn]; [done|].
      exfalso. by apply (filter_nil_not_elem_of _ _ l Hf Hn). }
    split; [by intros [= <-]|by intros [_ ->]].
  - split; [done|]. intros [Hall _]. exfalso.
    assert (m ∈ filter (λ l, l ∉ columns df) labels) as Hm
      by (rewrite Hf; left).
    apply list_elem_of_filter in Hm as [Hm Hin].
    by eapply Forall_forall in Hall.
Qed.

Lemma getitem_series l df xs :
  getitem l df = Ok (OneColumn xs) ↔ loc l df = [(l, xs)].
Proof.
  unfold getitem. pose proof (loc_labels l df) as Hl.
  destruct (loc l df) as [|[l' ys] [|c cs]]; [by split| |by split].
  apply Forall_cons in Hl as [Hl _]. simpl in Hl. subst l'.
  split; [by intros [= ->]|by intros [= ->]].
Qed.

Lemma getitem_to_datetime l df dt :
  getitem l df ≫= to_datetime = Ok dt
  ↔ ∃ xs, loc l df = [(l, xs)] ∧ to_datetime_series xs = Ok dt.
Proof.
  rewrite bind_Ok. split.
  - intros ([xs|cols] & Hg & Ht); [|done].
    apply getitem_series in Hg. eauto.
  - intros (xs & Hl & Ht). exists (OneColumn xs).
    by rewrite getitem_series.
Qed.

Lemma getitem_to_numeric l df s :
  getitem l df ≫= to_numeric = Ok s
  ↔ ∃ xs, loc l df = [(l, xs)] ∧ s = to_numeric_cell xs <$> xs.
Proof.
  rewrite bind_Ok. split.
  - intros ([xs|cols] & Hg & Ht); [|done].
    apply getitem_series in Hg. injection Ht as <-. eauto.
  - intros (xs & Hl & ->). exists (OneColumn xs).
    by rewrite getitem_series.
Qed.

Lemma loc_overwrite_ne l l' xs df :
  l ≠ l' →
  loc l ((λ col, if decide (col.1 = l') then (l', xs) else col) <$> df)
  = loc l df.
Proof.
  intros Hne. unfold loc. induction df as [|[l0 ys] df IH]; [done|].
  rewrite fmap_cons, !filter_cons. simpl.
  destruct (decide (l0 = l')) as [->|Hne']; simpl.
  - rewrite !decide_False by done. apply IH.
  - destruct (decide (l0 = l)); [f_equal|]; apply IH.
Qed.

Lemma loc_setitem_ne l l' xs df :
  l ≠ l' → loc l (setitem l' xs df) = loc l df.
Proof.
  intros Hne. unfold setitem. destruct (decide (l' ∈ columns df)).
  - by apply loc_overwrite_ne.
  - rewrite loc_app. unfold loc at 2. rewrite filter_cons, filter_nil.
    simpl. rewrite decide_False by done. apply app_nil_r.
Qed.

Lemma coerce_columns_single cs df out :
  coerce_columns cs df = Ok out →
  Forall (λ c, ∃ xs, loc c df = [(c, xs)]) cs.
Proof.
  revert df. induction cs as [|c cs IH]; intros df Hc; [constructor|].
  simpl in Hc. apply bind_Ok in Hc as (s & Hs & Hc).
  apply getitem_to_numeric in Hs as (xs & Hloc & ->).
  constructor; [eauto|].
  apply IH in Hc. eapply Forall_impl; [exact Hc|].
  intros c' [ys Hys]. destruct (decide (c' = c)) as [->|Hne]; [eauto|].
  rewrite loc_setitem_ne in Hys by done. eauto.
Qed.

Lemma six_columns (d o h l c v : list (cell obj num)) :
  getitem_list use_cols
    [("datetime", d); ("open", o); ("high", h); ("low", l); ("close", c);
     ("volume", v)]
  = Ok [("datetime", d); ("open", o); ("high", h); ("low", l); ("close", c);
        ("volume", v)].
Proof. reflexivity. Qed.

Lemma six_columns_typed (d d' o h l c v : list (cell obj num)) :
  coerce_columns numeric_cols
    (setitem "datetime" d'
       [("datetime", d); ("open", o); ("high", h); ("low", l); ("close", c);
        ("volume", v)])
  = Ok [("datetime", d'); ("open", to_numeric_cell o <$> o);
        ("high", to_numeric_cell h <$> h); ("low", to_numeric_cell l <$> l);
        ("close", to_numeric_cell c <$> c); ("volume", to_numeric_cell v <$> v)].
Proof. reflexivity. Qed.

Lemma NoDup_use_cols : NoDup use_cols.
Proof. by apply (bool_decide_unpack (NoDup use_cols)). Qed.

(** When [project_and_type] succeeds: each canonical label is carried by
    exactly one column, every date parses, and the result is the typed,
    sorted frame of those six columns. *)
Lemma project_and_type_Ok df out :
  project_and_type df = Ok out
  ↔ ∃ (d o h l c v d' : list (cell obj num)),
      loc "datetime" df = [("datetime", d)]
      ∧ loc "open" df = [("open", o)] ∧ loc "high" df = [("high", h)]
      ∧ loc "low" df = [("low", l)] ∧ loc "close" df = [("close", c)]
      ∧ loc "volume" df = [("volume", v)]
      ∧ to_datetime_series d = Ok d'
      ∧ out = typed_frame d' o h l c v.
Proof.
  assert (∀ d o h l c v : list (cell obj num),
    loc "datetime" df = [("datetime", d)] → loc "open" df = [("open", o)] →
    loc "high" df = [("high", h)] → loc "low" df = [("low", l)] →
    loc "close" df = [("close", c)] → loc "volume" df = [("volume", v)] →
    getitem_list use_cols df
    = Ok [("datetime", d); ("open", o); ("high", h); ("low", l);
          ("close", c); ("volume", v)]) as Hsel.
  { intros d o h l c v Hd Ho Hh Hl Hc Hv. apply getitem_list_Ok. split.
    - repeat (apply Forall_cons; split); [..|constructor];
        (eapply loc_present; eassumption).
    - simpl. by rewrite Hd, Ho, Hh, Hl, Hc, Hv. }
  unfold project_and_type. split.
  - intros Hp. apply bind_Ok in Hp as (df1 & H1 & Hp).
    apply bind_Ok in Hp as (dt & H2 & Hp).
    apply bind_Ok in Hp as (df3 & H3 & H4).
    apply getitem_list_Ok in H1 as [_ ->].
    apply getitem_to_datetime in H2 as (d & Hd & Hdt).
    rewrite loc_select in Hd by (apply NoDup_use_cols || by left).
    apply coerce_columns_single in H3 as Hs.
    assert (∀ c, c ∈ numeric_cols → ∃ xs, loc c df = [(c, xs)]) as Hnum.
    { intros c Hc. eapply Forall_forall in Hs as [xs Hxs]; [|done].
      exists xs. rewrite loc_setitem_ne, loc_select in Hxs; [done|..].
      - apply NoDup_use_cols.
      - unfold use_cols. by right.
      - intros ->. revert Hc.
        by apply (bool_decide_unpack ("datetime" ∉ numeric_cols)). }
    destruct (Hnum "open") as [o Ho]; [by apply (bool_decide_unpack (_ ∈ numeric_cols))|].
    destruct (Hnum "high") as [h Hh]; [by apply (bool_decide_unpack (_ ∈ numeric_cols))|].
    destruct (Hnum "low") as [l Hl]; [by apply (bool_decide_unpack (_ ∈ numeric_cols))|].
    destruct (Hnum "close") as [c Hc]; [by apply (bool_decide_unpack (_ ∈ numeric_cols))|].
    destruct (Hnum "volume") as [v Hv]; [by apply (bool_decide_unpack (_ ∈ numeric_cols))|].
    exists d, o, h, l, c, v, dt. repeat (split; [done|]).
    specialize (Hsel _ _ _ _ _ _ Hd Ho Hh Hl Hc Hv).
    apply getitem_list_Ok in Hsel as [_ Hsel]. rewrite <- Hsel in H3.
    rewrite six_columns_typed in H3. injection H3 as <-.
    by injection H4 as <-.
  - intros (d & o & h & l & c & v & d' & Hd & Ho & Hh & Hl & Hc & Hv & Hdt & ->).
    rewrite (Hsel _ _ _ _ _ _ Hd Ho Hh Hl Hc Hv), Ok_bind.
    assert (getitem "datetime"
              [("datetime", d); ("open", o); ("high", h); ("low", l);
               ("close", c); ("volume", v)] ≫= to_datetime = Ok d') as ->.
    { apply getitem_to_datetime. by exists d. }
    rewrite Ok_bind, six_columns_typed, Ok_bind. reflexivity.
Qed.

(** *** Which exceptions the steps can raise *)

Lemma getitem_list_Raise labels df e :
  getitem_list labels df = Raise e → ¬ is_schema_mismatch e.
Proof.
  unfold getitem_list. destruct (filter _ labels); [done|].
  intros [= <-]; exact id.
Qed.

Lemma getitem_Raise {A} l df (f : selection → result A) e :
  (∀ s e, f s = Raise e → ¬ is_schema_mismatch e) →
  getitem l df ≫= f = Raise e → ¬ is_schema_mismatch e.
Proof.
  intros Hf. unfold getitem.
  destruct (loc l df) as [|[? xs] [|??]]; simpl; [intros [= <-]; exact id|..];
    apply Hf.
Qed.

Lemma to_datetime_cells_Raise column xs e :
  to_datetime_cells column xs = Raise e → e = DateTimeParseError.
Proof.
  induction xs as [|x xs IH]; simpl; [done|].
  unfold to_datetime_cell at 1. destruct (parse_datetime column x); simpl.
  - destruct (to_datetime_cells column xs); simpl; [done|].
    intros [= <-]. by apply IH.
  - destruct (to_datetime_cells column xs); simpl; [done|].
    intros [= <-]. by apply IH.
  - by intros [= <-].
Qed.

Lemma to_datetime_series_Raise xs e :
  to_datetime_series xs = Raise e → e = DateTimeParseError.
Proof. apply to_datetime_cells_Raise. Qed.

Lemma to_datetime_Raise s e :
  to_datetime s = Raise e → ¬ is_schema_mismatch e.
Proof.
  destruct s as [xs|?]; simpl; [|intros [= <-]; exact id].
  intros ->%to_datetime_series_Raise; exact id.
Qed.

Lemma to_numeric_Raise s e :
  to_numeric s = Raise e → ¬ is_schema_mismatch e.
Proof. destruct s; simpl; [done|]. intros [= <-]; exact id. Qed.

Lemma coerce_columns_Raise cs df e :
  coerce_columns cs df = Raise e → ¬ is_schema_mismatch e.
Proof.
  revert df. induction cs as [|c cs IH]; intros df; simpl; [done|].
  intros [Hr|(s & _ & Hr)]%bind_Raise.
  - eapply getitem_Raise; [|exact Hr]. apply to_numeric_Raise.
  - eapply IH; exact Hr.
Qed.

Lemma sort_values_Raise l df e :
  sort_values l df = Raise e → ¬ is_schema_mismatch e.
Proof.
  unfold sort_values. destruct (loc l df) as [|[? ?] [|??]]; [| done |];
    intros [= <-]; exact id.
Qed.

Lemma project_and_type_Raise df e :
  project_and_type df = Raise e → ¬ is_schema_mismatch e.
Proof.
  unfold project_and_type.
  intros [Hr|(df1 & _ & Hr)]%bind_Raise;
    [eapply getitem_list_Raise; exact Hr|].
  apply bind_Raise in Hr as [Hr|(dt & _ & Hr)].
  { eapply getitem_Raise; [|exact Hr]. apply to_datetime_Raise. }
  apply bind_Raise in Hr as [Hr|(df3 & _ & Hr)];
    [eapply coerce_columns_Raise|eapply sort_values_Raise]; exact Hr.
Qed.

(** C1 (amended). For every raw table and optional custom mapping, the
    normalizer scans the candidate list in order (the caller's mapping
    first unless it is absent or has no entry, then the four built-in
    candidates in their declaration order) and applies the first candidate
    whose whole key set is contained in the table's columns: the call
    continues with the table renamed by that candidate.  A candidate is
    first when every candidate listed before it fails the containment test,
    so of two candidates the columns satisfy the earlier one is applied. *)
Theorem normalize_applies_first_match df (mapping : option dict) :
  candidate_maps mapping
  = match mapping with
    | Some m => if decide (m = ∅) then [] else [m]
    | None => []
    end ++ [zh_map; en_map; zh_lot_map; zh_share_map]
  ∧ ∀ mp, first_match (candidate_maps mapping) (columns df) mp →
      _normalize_ohlcv df mapping = project_and_type (rename mp df).
Proof.
  split.
  - unfold candidate_maps. destruct mapping as [m|]; [|reflexivity].
    destruct (decide (m = ∅)); reflexivity.
  - intros mp Hfirst%find_first_match. unfold _normalize_ohlcv.
    by rewrite Hfirst.
Qed.

(** C2 (amended). The normalizer raises the schema-mismatch error exactly
    when no candidate it scans has its key set contained in the raw table's
    columns.  The candidates scanned are the caller's mapping when it has
    an entry and the four built-in candidates: a mapping without entries is
    not scanned, so it does not prevent the error although its key set is
    contained in every column set; for any other argument the candidates
    scanned are the stated ones.  The error carries the raw table's column
    list, and the call yields no table. *)
Theorem schema_mismatch_iff_no_candidate df (mapping : option dict) :
  ((∃ cols, _normalize_ohlcv df mapping = Raise (SchemaMismatch cols))
   ↔ Forall (λ m, ¬ keys_within m (columns df)) (candidate_maps mapping))
  ∧ ((∃ cols, _normalize_ohlcv df mapping = Raise (SchemaMismatch cols))
     ↔ (∀ m, mapping = Some m → m ≠ ∅ → ¬ keys_within m (columns df))
       ∧ Forall (λ m, ¬ keys_within m (columns df))
           [zh_map; en_map; zh_lot_map; zh_share_map])
  ∧ (mapping ≠ Some ∅ → candidate_maps mapping = candidates_as_stated mapping)
  ∧ (∀ cols, _normalize_ohlcv df mapping = Raise (SchemaMismatch cols) →
       cols = columns df ∧ ∀ out, _normalize_ohlcv df mapping ≠ Ok out).
Proof.
  assert ((∃ cols, _normalize_ohlcv df mapping = Raise (SchemaMismatch cols))
          ↔ Forall (λ m, ¬ keys_within m (columns df))
              (candidate_maps mapping)) as Hiff.
  { unfold _normalize_ohlcv.
    destruct (find _ (candidate_maps mapping)) as [mp|] eqn:Hfind.
    - split.
      + intros [cols Hr]. by apply project_and_type_Raise in Hr.
      + intros Hall%find_no_match. congruence.
    - split; [intros _; by apply find_no_match|intros _; by eexists]. }
  split; [exact Hiff|]. split; [|split].
  - rewrite Hiff. unfold candidate_maps.
    destruct mapping as [m|]; [destruct (decide (m = ∅)) as [->|Hne]|].
    + split; [intros Hall; split; [by intros m [= <-]|done]|by intros [_ ?]].
    + rewrite Forall_cons. split.
      * intros [Hm Hall]. split; [by intros m' [= <-] _|done].
      * intros [Hm Hall]. split; [by apply Hm|done].
    + split; [intros Hall; split; [done|done]|by intros [_ ?]].
  - intros Hne. unfold candidate_maps, candidates_as_stated.
    destruct mapping as [m|]; [|done].
    destruct (decide (m = ∅)) as [->|]; done.
  - intros cols Hr. unfold _normalize_ohlcv in *.
    destruct (find _ (candidate_maps mapping)) as [mp|] eqn:Hfind.
    + by apply project_and_type_Raise in Hr.
    + by injection Hr as <-.
Qed.

(** *** Sorting *)

Lemma columns_reorder (f : list (cell obj num) → list (cell obj num)) df :
  columns (prod_map id f <$> df) = columns df.
Proof.
  unfold columns. rewrite <- list_fmap_compose. apply list_fmap_ext.
  by intros ? [??].
Qed.

Lemma loc_reorder (f : list (cell obj num) → list (cell obj num)) l df :
  loc l (prod_map id f <$> df) = prod_map id f <$> loc l df.
Proof.
  unfold loc. induction df as [|[l' xs] df IH]; [done|].
  rewrite fmap_cons, !filter_cons. simpl.
  destruct (decide (l' = l)); [rewrite fmap_cons; f_equal|]; apply IH.
Qed.

Lemma loc_setitem_eq l xs ys df :
  loc l df = [(l, xs)] → loc l (setitem l ys df) = [(l, ys)].
Proof.
  intros Hl. unfold setitem.
  rewrite decide_True by (by eapply loc_present).
  revert Hl. unfold loc. induction df as [|[l' zs] df IH]; [done|].
  rewrite fmap_cons, !filter_cons. simpl.
  destruct (decide (l' = l)) as [->|Hne]; simpl.
  - rewrite decide_True by done. intros [= -> Hnil]. f_equal.
    clear IH. induction df as [|[l' zs'] df IH]; [done|].
    rewrite filter_cons in Hnil. simpl in Hnil.
    rewrite fmap_cons, filter_cons. simpl.
    destruct (decide (l' = l)); [done|]. simpl.
    rewrite decide_False by done. by apply IH.
  - rewrite decide_False by done. apply IH.
Qed.





Lemma sort_values_Ok l df ks :
  loc l df = [(l, ks)] →
  sort_values l df
  = Ok (prod_map id (take (argsort (sort_key <$> ks))) <$> df).
Proof. intros Hl. unfold sort_values. by rewrite Hl. Qed.

(** *** The Tushare post-processing *)

Lemma rename_sort_project_Ok df out :
  rename_sort_project df = Ok out
  ↔ ∃ d d' : list (cell obj num),
      loc "datetime" (rename tushare_map df) = [("datetime", d)]
      ∧ to_datetime_series d = Ok d'
      ∧ Forall (λ l, l ∈ columns (rename tushare_map df)) use_cols
      ∧ out = use_cols ≫= λ l,
          loc l (prod_map id (take (argsort (sort_key <$> d')))
                   <$> setitem "datetime" d' (rename tushare_map df)).
Proof.
  unfold rename_sort_project.
  assert (∀ d d' : list (cell obj num),
    loc "datetime" (rename tushare_map df) = [("datetime", d)] →
    columns (prod_map id (take (argsort (sort_key <$> d')))
               <$> setitem "datetime" d' (rename tushare_map df))
    = columns (rename tushare_map df)) as Hcols.
  { intros d d' Hd. rewrite columns_reorder. unfold setitem.
    rewrite decide_True by (by eapply loc_present).
    unfold columns. rewrite <- list_fmap_compose. apply list_fmap_ext.
    intros ? [l' xs]. simpl. by destruct (decide (l' = "datetime")). }
  split.
  - intros Hp. apply bind_Ok in Hp as (dt & H1 & Hp).
    apply bind_Ok in Hp as (df2 & H2 & H3).
    apply getitem_to_datetime in H1 as (d & Hd & Hdt).
    rewrite (sort_values_Ok _ _ dt) in H2 by (by eapply loc_setitem_eq).
    injection H2 as <-. apply getitem_list_Ok in H3 as [Hall ->].
    exists d, dt. rewrite (Hcols _ _ Hd) in Hall. done.
  - intros (d & d' & Hd & Hdt & Hall & ->).
    assert (getitem "datetime" (rename tushare_map df) ≫= to_datetime
            = Ok d') as ->.
    { apply getitem_to_datetime. by exists d. }
    rewrite Ok_bind, (sort_values_Ok _ _ d') by (by eapply loc_setitem_eq).
    rewrite Ok_bind. apply getitem_list_Ok. by rewrite (Hcols _ _ Hd).
Qed.

(** *** The retry loop *)

Lemma retry_loop_calls daily rc attempts w :
  calls w ≤ calls (retry_loop daily rc attempts w).2
  ∧ calls (retry_loop daily rc attempts w).2 ≤ calls w + length attempts.
Proof.
  revert w. induction attempts as [|a attempts IH]; intros w; simpl; [lia|].
  destruct (daily (calls w)) as [df|e]; simpl; [lia|].
  destruct (decide (a + 1 = rc)%Z); simpl; [lia|].
  specialize (IH (print_failed a rc e
    {| calls := S (calls w); trace := trace w ++ [ApiCall] |})).
  simpl in IH. lia.
Qed.

Lemma retry_loop_Ok daily rc attempts w raw w' :
  retry_loop daily rc attempts w = (Ok raw, w') → ∃ k, daily k = Ok raw.
Proof.
  revert w. induction attempts as [|a attempts IH]; intros w; simpl; [done|].
  destruct (daily (calls w)) as [df|e] eqn:Hd; simpl.
  - intros [= <- _]. eauto.
  - destruct (decide (a + 1 = rc)%Z); [done|]. apply IH.
Qed.

(** [k] failures that do not exhaust the range, then a success. *)
Lemma retry_loop_success daily rc (es : list exn) : ∀ j m w df,
  (0 ≤ j)%Z → (j + m ≤ rc)%Z → (Z.of_nat (length es) < m)%Z →
  (∀ i e, es !! i = Some e → daily (calls w + i) = Raise e) →
  daily (calls w + length es) = Ok df →
  retry_loop daily rc (seqZ j m) w
  = (Ok df, {| calls := calls w + S (length es);
               trace := trace w ++ retries rc j es ++ [ApiCall] |}).
Proof.
  induction es as [|e es IH]; intros j m w df Hj Hm Hlen Hfail Hok;
    simpl in *; (rewrite seqZ_cons by lia); simpl.
  - rewrite Nat.add_0_r in Hok. rewrite Hok. do 2 f_equal. lia.
  - specialize (Hfail 0 e eq_refl) as H0. rewrite Nat.add_0_r in H0.
    rewrite H0, decide_False by lia.
    rewrite (IH (Z.succ j) (Z.pred m) _ df); simpl; try lia.
    + f_equal. f_equal; [lia|].
      replace (Z.succ j) with (j + 1)%Z by lia.
      rewrite <- !app_assoc. reflexivity.
    + intros i e' Hi. specialize (Hfail (S i) e' Hi).
      rewrite <- Hfail. f_equal. lia.
    + rewrite <- Hok. f_equal. lia.
Qed.

(** Every attempt of the range fails: the last exception is re-raised. *)
Lemma retry_loop_exhausted daily rc (es : list exn) : ∀ e j w,
  (0 ≤ j)%Z → (j + Z.of_nat (S (length es)) = rc)%Z →
  (∀ i e', (es ++ [e]) !! i = Some e' → daily (calls w + i) = Raise e') →
  retry_loop daily rc (seqZ j (Z.of_nat (S (length es)))) w
  = (Raise e, {| calls := calls w + S (length es);
                 trace := trace w ++ retries rc j es ++ [ApiCall] |}).
Proof.
  induction es as [|e0 es IH]; intros e j w Hj Hrc Hfail;
    (rewrite seqZ_cons by lia); cbn [retry_loop pro_daily].
  - specialize (Hfail 0 e eq_refl) as H0. rewrite Nat.add_0_r in H0.
    simpl in Hrc. rewrite H0, decide_True by lia. simpl.
    do 2 f_equal. lia.
  - specialize (Hfail 0 e0 eq_refl) as H0. rewrite Nat.add_0_r in H0.
    rewrite H0, decide_False by (simpl in Hrc; lia).
    replace (Z.pred (Z.of_nat (S (length (e0 :: es)))))
      with (Z.of_nat (S (length es))) by (simpl; lia).
    rewrite (IH e (Z.succ j)); simpl in *; try lia.
    + f_equal. f_equal; [lia|].
      replace (Z.succ j) with (j + 1)%Z by lia.
      rewrite <- !app_assoc. reflexivity.
    + intros i e' Hi. specialize (Hfail (S i) e' Hi).
      rewrite <- Hfail. f_equal. lia.
Qed.

Lemma fetch_daily_Ok daily rc w out w' :
  fetch_daily daily rc w = (Ok out, w') →
  ∃ raw k, daily k = Ok raw ∧ rename_sort_project raw = Ok out.
Proof.
  unfold fetch_daily.
  destruct (retry_loop daily rc (seqZ 0 rc) w) as [[raw|e] w1] eqn:Hloop;
    [|done].
  intros [= Hout _]. apply retry_loop_Ok in Hloop as [k Hk]. eauto.
Qed.

(** *** The normalizer as a whole *)

Lemma normalize_Ok df (mapping : option dict) out :
  _normalize_ohlcv df mapping = Ok out
  ↔ ∃ mp, first_match (candidate_maps mapping) (columns df) mp
      ∧ project_and_type (rename mp df) = Ok out.
Proof.
  unfold _normalize_ohlcv. split.
  - destruct (find _ _) as [mp|] eqn:Hfind; [|done].
    apply find_first_match in Hfind. eauto.
  - intros (mp & Hfirst%find_first_match & Hp). by rewrite Hfirst.
Qed.

Lemma fetch_daily_akshare_Ok
    (stock_zh_a_hist : result (list (string * list (cell obj num)))) out :
  fetch_daily_akshare stock_zh_a_hist = Ok out
  ↔ ∃ df, stock_zh_a_hist = Ok df ∧ _normalize_ohlcv df None = Ok out.
Proof. apply bind_Ok. Qed.

Lemma loc_single l df :
  l ∈ columns df → length (loc l df) ≤ 1 → ∃ xs, loc l df = [(l, xs)].
Proof.
  intros Hin Hlen. pose proof (loc_labels l df) as Hl.
  destruct (loc l df) as [|[l' xs] [|??]] eqn:Hloc; simpl in *; [|eauto|lia].
  - apply loc_nil in Hloc. done.
  - apply Forall_cons in Hl as [? _]. simpl in *. subst. eauto.
Qed.

(** C3 (amended). Every table the AKShare normalizer (and so the AKShare
    fetcher) returns has exactly the six columns datetime, open, high, low,
    close, volume in that order, whichever candidate matched and whatever
    other columns the input had.  Every table the Tushare fetcher returns
    comes from a vendor table and has exactly these six columns in that
    order whenever the renamed vendor table carries none of the five price
    and volume labels twice. *)
Theorem returned_columns :
  (∀ df (mapping : option dict) out,
     _normalize_ohlcv df mapping = Ok out → columns out = use_cols)
  ∧ (∀ stock_zh_a_hist out,
       fetch_daily_akshare stock_zh_a_hist = Ok out → columns out = use_cols)
  ∧ (∀ daily rc w out w',
       fetch_daily daily rc w = (Ok out, w') →
       ∃ raw k, daily k = Ok raw ∧ rename_sort_project raw = Ok out
         ∧ (Forall (λ l, length (loc l (rename tushare_map raw)) ≤ 1)
              numeric_cols →
            columns out = use_cols)).
Proof.
  assert (∀ df (mapping : option dict) out,
    _normalize_ohlcv df mapping = Ok out → columns out = use_cols) as Hak.
  { intros df mapping out (mp & _ & Hp)%normalize_Ok.
    apply project_and_type_Ok in Hp
      as (d & o & h & l & c & v & d' & _ & _ & _ & _ & _ & _ & _ & ->).
    reflexivity. }
  split; [exact Hak|]. split.
  - intros vendor out (df & _ & Hn)%fetch_daily_akshare_Ok. by eapply Hak.
  - intros daily rc w out w' (raw & k & Hk & Hp)%fetch_daily_Ok.
    exists raw, k. do 2 (split; [done|]). intros Hone.
    apply rename_sort_project_Ok in Hp as (d & d' & Hd & _ & Hall & ->).
    set (r := rename tushare_map raw) in *.
    assert (∀ l, l ∈ numeric_cols →
      ∃ xs, loc l (prod_map id (take (argsort (sort_key <$> d')))
                     <$> setitem "datetime" d' r)
            = [(l, take (argsort (sort_key <$> d')) xs)]) as Hnum.
    { intros l Hl. destruct (loc_single l r) as [xs Hxs].
      - eapply Forall_forall in Hall; [done|]. unfold use_cols. by right.
      - by eapply Forall_forall in Hone.
      - exists xs. rewrite loc_reorder, loc_setitem_ne, Hxs; [done|].
        intros ->. revert Hl.
        by apply (bool_decide_unpack ("datetime" ∉ numeric_cols)). }
    destruct (Hnum "open") as [o Ho];
      [by apply (bool_decide_unpack (_ ∈ numeric_cols))|].
    destruct (Hnum "high") as [h Hh];
      [by apply (bool_decide_unpack (_ ∈ numeric_cols))|].
    destruct (Hnum "low") as [lo Hlo];
      [by apply (bool_decide_unpack (_ ∈ numeric_cols))|].
    destruct (Hnum "close") as [c Hc];
      [by apply (bool_decide_unpack (_ ∈ numeric_cols))|].
    destruct (Hnum "volume") as [v Hv];
      [by apply (bool_decide_unpack (_ ∈ numeric_cols))|].
    cbn [use_cols mbind list_bind].
    rewrite Ho, Hh, Hlo, Hc, Hv, loc_reorder.
    rewrite (loc_setitem_eq _ _ _ _ Hd). reflexivity.
Qed.


(** *** Dates *)

Lemma to_datetime_cells_Ok (column d d' : list (cell obj num)) :
  to_datetime_cells column d = Ok d'
  ↔ Forall2 (λ x y, to_datetime_cell column x = Ok y) d d'.
Proof.
  revert d'. induction d as [|x d IH]; intros d'; simpl.
  - split; [intros [= <-]; constructor|]. by intros ->%Forall2_nil_inv_l.
  - split.
    + intros (y & Hy & (ys & Hys & [= <-])%bind_Ok)%bind_Ok.
      constructor; [done|]. by apply IH.
    + intros (y & ys & Hy & Hys & ->)%Forall2_cons_inv_l.
      apply IH in Hys. by rewrite Hy, Hys.
Qed.

Lemma to_datetime_cells_fails (column d : list (cell obj num)) :
  Exists (λ x, parse_datetime column x = DtFail) d →
  to_datetime_cells column d = Raise DateTimeParseError.
Proof.
  induction 1 as [x d Hx|x d _ IH]; simpl; unfold to_datetime_cell at 1.
  - by rewrite Hx.
  - rewrite IH. by destruct (parse_datetime column x).
Qed.

Lemma to_datetime_cells_total (column d : list (cell obj num)) :
  Forall (λ x, parse_datetime column x ≠ DtFail) d
  ↔ ∃ d', to_datetime_cells column d = Ok d'.
Proof.
  split.
  - induction 1 as [|x d Hx _ [d' IH]]; simpl; [by eexists|].
    rewrite IH. unfold to_datetime_cell.
    destruct (parse_datetime column x); [by eexists..|done].
  - intros [d' Hd].
    destruct (decide (Forall (λ x, parse_datetime column x ≠ DtFail) d))
      as [|Hn]; [done|].
    apply not_Forall_Exists in Hn; [|apply _].
    rewrite to_datetime_cells_fails in Hd; [done|].
    eapply Exists_impl; [exact Hn|]. intros x Hx. simpl in Hx.
    by apply dec_stable.
Qed.

Lemma to_datetime_series_Ok (d d' : list (cell obj num)) :
  to_datetime_series d = Ok d'
  ↔ Forall2 (λ x y, to_datetime_cell d x = Ok y) d d'.
Proof. apply to_datetime_cells_Ok. Qed.

Lemma to_datetime_series_fails (d : list (cell obj num)) :
  Exists (λ x, parse_datetime d x = DtFail) d →
  to_datetime_series d = Raise DateTimeParseError.
Proof. apply to_datetime_cells_fails. Qed.

Lemma to_datetime_series_total (d : list (cell obj num)) :
  Forall (λ x, parse_datetime d x ≠ DtFail) d
  ↔ ∃ d', to_datetime_series d = Ok d'.
Proof. apply to_datetime_cells_total. Qed.

Lemma to_datetime_series_length (d d' : list (cell obj num)) :
  to_datetime_series d = Ok d' → length d' = length d.
Proof. intros Hd%to_datetime_series_Ok. symmetry. by eapply Forall2_length. Qed.

(** *** Reordering *)

Lemma take_lookup indexer (xs : list (cell obj num)) j i :
  Forall (λ i, i < length xs) indexer →
  indexer !! j = Some i → take indexer xs !! j = xs !! i.
Proof.
  unfold take. intros Hall. revert j.
  induction Hall as [|i0 indexer Hi0 _ IH]; intros j; [done|].
  apply lookup_lt_is_Some in Hi0 as [x Hx]. simpl. rewrite Hx. simpl.
  destruct j as [|j]; simpl; [by intros [= <-]|]. apply IH.
Qed.

Lemma take_length indexer (xs : list (cell obj num)) :
  Forall (λ i, i < length xs) indexer →
  length (take indexer xs) = length indexer.
Proof.
  unfold take. induction 1 as [|i indexer Hi _ IH]; [done|].
  apply lookup_lt_is_Some in Hi as [x Hx]. simpl. rewrite Hx. simpl. by f_equal.
Qed.

Lemma indexer_in_range (indexer : list nat) n :
  indexer ≡ₚ seq 0 n → Forall (λ i, i < n) indexer ∧ length indexer = n.
Proof.
  intros Hp. split.
  - rewrite Hp. apply Forall_forall. intros i Hi%elem_of_seq. lia.
  - by rewrite Hp, length_seq.
Qed.

Lemma rectangular_rename n (mp : dict) df :
  rectangular n df → rectangular n (rename mp df).
Proof.
  unfold rectangular, rename. intros Hr. apply Forall_fmap.
  eapply Forall_impl; [exact Hr|]. by intros [??].
Qed.

Lemma rectangular_loc n l df xs :
  rectangular n df → loc l df = [(l, xs)] → length xs = n.
Proof.
  intros Hr Hl.
  assert ((l, xs) ∈ loc l df) as [_ Hin]%list_elem_of_filter
    by (rewrite Hl; left).
  exact (proj1 (Forall_forall _ _) Hr _ Hin).
Qed.

Lemma coerced_column indexer n (xs : list (cell obj num)) j i :
  indexer ≡ₚ seq 0 n → length xs = n → indexer !! j = Some i →
  ∃ x, xs !! i = Some x
    ∧ take indexer (to_numeric_cell xs <$> xs) !! j
      = Some (match parse_numeric xs x with
              | Some v => Num v
              | None => NaN
              end).
Proof.
  intros [Hrange _]%indexer_in_range Hlen Hj.
  assert (i < n) as Hi.
  { eapply Forall_forall in Hrange; [done|]. by eapply list_elem_of_lookup_2. }
  destruct (lookup_lt_is_Some_2 xs i) as [x Hx]; [lia|].
  exists x. split; [done|].
  rewrite (take_lookup _ _ j i); [|by rewrite length_fmap, Hlen|done].
  by rewrite list_lookup_fmap, Hx.
Qed.

Lemma reordered_length indexer n (xs : list (cell obj num)) :
  indexer ≡ₚ seq 0 n → length xs = n → length (take indexer xs) = n.
Proof.
  intros [Hrange Hlen]%indexer_in_range Hxs.
  rewrite take_length; [done|]. by rewrite Hxs.
Qed.

(** C5 (amended). A table whose columns are exactly datetime, open, high,
    low, close, volume is rejected with the schema-mismatch error when no
    custom mapping is passed (no built-in candidate has "datetime" among its
    keys).  When the caller passes the mapping of the six canonical names to
    themselves and every date parses, normalizing succeeds and changes
    nothing beyond typing the values and reordering the rows by date. *)
Theorem canonical_table_normalization `{!SortContract}
    (d o h l c v : list (cell obj num)) :
  let df := [("datetime", d); ("open", o); ("high", h); ("low", l);
             ("close", c); ("volume", v)] in
  _normalize_ohlcv df None = Raise (SchemaMismatch use_cols)
  ∧ (Forall (λ x, parse_datetime d x ≠ DtFail) d →
     ∃ d' indexer,
       Forall2 (λ x y, to_datetime_cell d x = Ok y) d d'
       ∧ indexer ≡ₚ seq 0 (length d)
       ∧ _normalize_ohlcv df (Some canonical_map)
         = Ok [("datetime", take indexer d');
               ("open", take indexer (to_numeric_cell o <$> o));
               ("high", take indexer (to_numeric_cell h <$> h));
               ("low", take indexer (to_numeric_cell l <$> l));
               ("close", take indexer (to_numeric_cell c <$> c));
               ("volume", take indexer (to_numeric_cell v <$> v))]).
Proof.
  intros df. split; [reflexivity|].
  intros [d' Hd']%to_datetime_series_total.
  exists d', (argsort (sort_key <$> d')). split; [|split].
  - by apply to_datetime_series_Ok.
  - rewrite <- (to_datetime_series_length _ _ Hd'), <- (length_fmap sort_key).
    apply argsort_perm.
  - assert (_normalize_ohlcv df (Some canonical_map) = project_and_type df)
      as -> by reflexivity.
    apply project_and_type_Ok. by exists d, o, h, l, c, v, d'.
Qed.

(** C6 (amended). A numeric cell that does not parse never makes the call
    fail: whether the normalizer returns a table depends only on the
    matched candidate, on each canonical label being carried by one column
    after the rename, and on the dates.  When it returns a table for an
    input of n rows, the output has n rows; its rows are the input rows in
    the order of one indexer, and in each of the five numeric columns a
    cell is what [pd.to_numeric] reads from the input cell of that row as a
    value of its column: the missing-value marker when the cell does not
    parse, a number otherwise.  The number read depends on the cell and on
    its own column, on no other column. *)
Theorem numeric_failure_becomes_missing `{!SortContract} df
    (mapping : option dict) :
  ((∃ out, _normalize_ohlcv df mapping = Ok out)
   ↔ ∃ mp d, first_match (candidate_maps mapping) (columns df) mp
       ∧ Forall (λ l, ∃ xs, loc l (rename mp df) = [(l, xs)]) use_cols
       ∧ loc "datetime" (rename mp df) = [("datetime", d)]
       ∧ Forall (λ x, parse_datetime d x ≠ DtFail) d)
  ∧ ∀ out n,
      rectangular n df → _normalize_ohlcv df mapping = Ok out →
      ∃ mp indexer,
        first_match (candidate_maps mapping) (columns df) mp
        ∧ indexer ≡ₚ seq 0 n
        ∧ rectangular n out
        ∧ (∃ d dts, loc "datetime" (rename mp df) = [("datetime", d)]
             ∧ loc "datetime" out = [("datetime", dts)]
             ∧ ∀ j i, indexer !! j = Some i →
                 ∃ x y, d !! i = Some x ∧ to_datetime_cell d x = Ok y
                   ∧ dts !! j = Some y)
        ∧ ∀ col, col ∈ numeric_cols →
            ∃ xs ys, loc col (rename mp df) = [(col, xs)]
              ∧ loc col out = [(col, ys)]
              ∧ ∀ j i, indexer !! j = Some i →
                  ∃ x, xs !! i = Some x
                    ∧ ys !! j
                      = Some (match parse_numeric xs x with
                              | Some v => Num v
                              | None => NaN
                              end).
Proof.
  split.
  - split.
    + intros [out (mp & Hfirst & Hp)%normalize_Ok].
      apply project_and_type_Ok in Hp
        as (d & o & h & l & c & v & d' & Hd & Ho & Hh & Hl & Hc & Hv & Hd' & _).
      exists mp, d. repeat split; [done| |done|].
      * repeat (apply Forall_cons; split; [eauto|]). constructor.
      * apply to_datetime_series_total. eauto.
    + intros (mp & d & Hfirst & Hall & Hd & [d' Hd']%to_datetime_series_total).
      apply Forall_cons in Hall as [_ Hall].
      apply Forall_cons in Hall as [[o Ho] Hall].
      apply Forall_cons in Hall as [[h Hh] Hall].
      apply Forall_cons in Hall as [[l Hl] Hall].
      apply Forall_cons in Hall as [[c Hc] Hall].
      apply Forall_cons in Hall as [[v Hv] _].
      exists (typed_frame d' o h l c v). apply normalize_Ok.
      exists mp. split; [done|]. apply project_and_type_Ok.
      by exists d, o, h, l, c, v, d'.
  - intros out n Hrect (mp & Hfirst & Hp)%normalize_Ok.
    apply (rectangular_rename _ mp) in Hrect.
    apply project_and_type_Ok in Hp
      as (d & o & h & l & c & v & d' & Hd & Ho & Hh & Hl & Hc & Hv & Hd' & ->).
    pose proof (rectangular_loc _ _ _ _ Hrect Hd) as Hnd.
    pose proof (rectangular_loc _ _ _ _ Hrect Ho) as Hno.
    pose proof (rectangular_loc _ _ _ _ Hrect Hh) as Hnh.
    pose proof (rectangular_loc _ _ _ _ Hrect Hl) as Hnl.
    pose proof (rectangular_loc _ _ _ _ Hrect Hc) as Hnc.
    pose proof (rectangular_loc _ _ _ _ Hrect Hv) as Hnv.
    apply to_datetime_series_length in Hd' as Hnd'. rewrite Hnd in Hnd'.
    assert (argsort (sort_key <$> d') ≡ₚ seq 0 n) as Hperm.
    { rewrite <- Hnd', <- (length_fmap sort_key). apply argsort_perm. }
    exists mp, (argsort (sort_key <$> d')).
    split; [done|]. split; [done|]. split; [|split].
    + unfold typed_frame, rectangular.
      repeat (apply Forall_cons; split;
        [by apply reordered_length; rewrite ?length_fmap|]).
      constructor.
    + exists d, (take (argsort (sort_key <$> d')) d').
      split; [done|]. split; [reflexivity|]. intros j i Hj.
      apply indexer_in_range in Hperm as [Hrange _].
      assert (i < n) as Hi.
      { eapply Forall_forall in Hrange; [done|].
        by eapply list_elem_of_lookup_2. }
      destruct (lookup_lt_is_Some_2 d i) as [x Hx]; [lia|].
      apply to_datetime_series_Ok in Hd'.
      destruct (Forall2_lookup_l _ _ _ _ _ Hd' Hx) as (y & Hy & Hxy).
      exists x, y. repeat split; [done..|].
      rewrite (take_lookup _ _ j i); [done| |done]. by rewrite Hnd'.
    + intros col Hcol. unfold numeric_cols in Hcol.
      repeat (apply elem_of_cons in Hcol as [->|Hcol];
        [eexists _, _; split; [eassumption|]; split; [reflexivity|];
         intros j i Hj; by eapply coerced_column|]).
      by apply elem_of_nil in Hcol.
Qed.

Lemma renamed_label (mp : dict) df (k l : string) :
  keys_within mp (columns df) → mp !! k = Some l →
  l ∈ columns (rename mp df).
Proof.
  intros Hwithin Hk.
  assert (k ∈ columns df) as Hin.
  { apply (elem_of_list_to_set (C:=gset string)), Hwithin, elem_of_dom. eauto. }
  apply list_elem_of_fmap in Hin as ([k' xs] & -> & Hin).
  apply list_elem_of_fmap. exists (l, xs). split; [done|].
  apply list_elem_of_fmap. exists (k', xs). split; [|done].
  simpl in *. by rewrite Hk.
Qed.

(** A built-in candidate that matches renames onto all six canonical
    labels. *)
Lemma builtin_match_has_all_labels (mp : dict) df :
  mp ∈ builtin_maps → keys_within mp (columns df) →
  Forall (λ l, l ∈ columns (rename mp df)) use_cols.
Proof.
  intros Hmp Hwithin. unfold builtin_maps in Hmp.
  repeat (apply elem_of_cons in Hmp as [->|Hmp];
    [repeat (apply Forall_cons; split;
       [first [ by apply (renamed_label _ _ "日期")
              | by apply (renamed_label _ _ "开盘")
              | by apply (renamed_label _ _ "最高")
              | by apply (renamed_label _ _ "最低")
              | by apply (renamed_label _ _ "收盘")
              | by apply (renamed_label _ _ "成交量")
              | by apply (renamed_label _ _ "成交量(手)")
              | by apply (renamed_label _ _ "成交量(股)")
              | by apply (renamed_label _ _ "date")
              | by apply (renamed_label _ _ "open")
              | by apply (renamed_label _ _ "high")
              | by apply (renamed_label _ _ "low")
              | by apply (renamed_label _ _ "close")
              | by apply (renamed_label _ _ "volume") ]|]);
     constructor|]).
  by apply elem_of_nil in Hmp.
Qed.

Lemma coerce_columns_Raise_kind (cs : list string) df e :
  coerce_columns cs df = Raise e → e = TypeError ∨ ∃ c, e = KeyError [c].
Proof.
  revert df. induction cs as [|c cs IH]; intros df; simpl; [done|].
  intros [Hr|(s & _ & Hr)]%bind_Raise; [|by eapply IH].
  unfold getitem in Hr.
  destruct (loc c df) as [|[? xs] [|??]]; simpl in Hr; [|done|];
    injection Hr as <-; eauto.
Qed.

Lemma sort_values_Raise_kind l df e :
  sort_values l df = Raise e → e = DuplicateLabel ∨ e = KeyError [l].
Proof.
  unfold sort_values. destruct (loc l df) as [|[? ?] [|??]]; [|done|];
    intros [= <-]; auto.
Qed.

(** C7 (amended). When the raw table matches a candidate and
    [pd.to_datetime] raises on a value of a column the rename labels
    datetime, the call yields no table.  The failure is the date-parse
    error whenever the renamed table carries all six canonical labels and
    that column is its only datetime column, which for a built-in candidate
    leaves the second condition only; a canonical label missing after the
    rename is reported first, as a key error.  A null or empty date is no
    calendar timestamp, yet [pd.to_datetime] does not raise on it: when it
    raises on no value of the column, the call does not fail with the
    date-parse error, and in a table it returns the row of every such date
    is kept, dated with the missing timestamp. *)
Theorem unparseable_date_fails_call `{!SortContract} df
    (mapping : option dict) (mp : dict) (d : list (cell obj num)) :
  first_match (candidate_maps mapping) (columns df) mp →
  ("datetime", d) ∈ rename mp df →
  (Exists (λ x, parse_datetime d x = DtFail) d →
   (∃ e, _normalize_ohlcv df mapping = Raise e)
   ∧ (Forall (λ l, l ∈ columns (rename mp df)) use_cols →
      loc "datetime" (rename mp df) = [("datetime", d)] →
      _normalize_ohlcv df mapping = Raise DateTimeParseError))
  ∧ (mp ∈ builtin_maps → Forall (λ l, l ∈ columns (rename mp df)) use_cols)
  ∧ (Forall (λ x, parse_datetime d x ≠ DtFail) d →
     _normalize_ohlcv df mapping ≠ Raise DateTimeParseError)
  ∧ ∀ out, _normalize_ohlcv df mapping = Ok out →
      ∃ dts, loc "datetime" out = [("datetime", dts)]
        ∧ length dts = length d
        ∧ ∀ i x, d !! i = Some x → parse_datetime d x = DtNaT →
            ∃ j, dts !! j = Some NaT.
Proof.
  intros Hfirst Hin.
  assert (keys_within mp (columns df)) as Hwithin
    by (by destruct Hfirst as (? & ? & _ & _ & ?)).
  assert (_normalize_ohlcv df mapping = project_and_type (rename mp df))
    as ->.
  { unfold _normalize_ohlcv. apply find_first_match in Hfirst.
    by rewrite Hfirst. }
  assert (("datetime", d) ∈ loc "datetime" (rename mp df)) as Hloc
    by (by apply list_elem_of_filter).
  split; [|split; [|split]].
  - intros Hbad. split.
    + destruct (project_and_type (rename mp df)) as [out|e] eqn:Hp; [|eauto].
      apply project_and_type_Ok in Hp
        as (d0 & o & h & l & c & v & d' & Hd & _ & _ & _ & _ & _ & Hd' & _).
      rewrite Hd in Hloc. apply list_elem_of_singleton in Hloc as [= ->].
      rewrite to_datetime_series_fails in Hd' by done. done.
    + intros Hall Hd. unfold project_and_type.
      assert (getitem_list use_cols (rename mp df)
              = Ok (use_cols ≫= λ l, loc l (rename mp df))) as ->
        by (by apply getitem_list_Ok).
      rewrite Ok_bind.
      assert (getitem "datetime" (use_cols ≫= λ l, loc l (rename mp df))
              = Ok (OneColumn d)) as ->.
      { apply getitem_series.
        by rewrite loc_select by (apply NoDup_use_cols || by left). }
      rewrite Ok_bind. simpl. by rewrite to_datetime_series_fails.
  - intros Hmp. by apply builtin_match_has_all_labels.
  - intros Hok Hr. unfold project_and_type in Hr.
    apply bind_Raise in Hr as [Hr|(df1 & Hsel & Hr)].
    { unfold getitem_list in Hr. by destruct (filter _ use_cols). }
    apply getitem_list_Ok in Hsel as [_ ->].
    apply bind_Raise in Hr as [Hr|(dt & _ & Hr)].
    { unfold getitem in Hr.
      rewrite loc_select in Hr by (apply NoDup_use_cols || by left).
      destruct (loc "datetime" (rename mp df)) as [|[l0 xs] [|??]];
        simpl in Hr; [done| |done].
      apply list_elem_of_singleton in Hloc as [= <- <-].
      apply to_datetime_series_total in Hok as [d' Hd']. congruence. }
    apply bind_Raise in Hr as [Hr|(df3 & _ & Hr)].
    + by apply coerce_columns_Raise_kind in Hr as [|[??]].
    + by apply sort_values_Raise_kind in Hr as [|].
  - intros out Hp.
    apply project_and_type_Ok in Hp
      as (d0 & o & h & l & c & v & d' & Hd & _ & _ & _ & _ & _ & Hd' & ->).
    rewrite Hd in Hloc. apply list_elem_of_singleton in Hloc as [= <-].
    apply to_datetime_series_length in Hd' as Hlen.
    assert (argsort (sort_key <$> d') ≡ₚ seq 0 (length d')) as Hperm.
    { rewrite <- (length_fmap sort_key). apply argsort_perm. }
    exists (take (argsort (sort_key <$> d')) d').
    split; [reflexivity|]. split.
    { rewrite <- Hlen. by apply reordered_length. }
    intros i x Hx Hnat.
    apply to_datetime_series_Ok in Hd'.
    destruct (Forall2_lookup_l _ _ _ _ _ Hd' Hx) as (y & Hy & Hxy).
    unfold to_datetime_cell in Hxy. rewrite Hnat in Hxy.
    injection Hxy as <-.
    assert (i ∈ argsort (sort_key <$> d')) as Hi.
    { rewrite Hperm. apply elem_of_seq. apply lookup_lt_Some in Hy. lia. }
    apply list_elem_of_lookup_1 in Hi as [j Hj]. exists j.
    rewrite (take_lookup _ _ j i); [done| |done].
    by apply indexer_in_range in Hperm as [? _].
Qed.

(** *** The Tushare fetcher *)

Lemma fetch_daily_no_attempt daily (rc : Z) w :
  (rc ≤ 0)%Z → fetch_daily daily rc w = (Raise RuntimeError, w).
Proof. intros Hrc. unfold fetch_daily. by rewrite seqZ_nil. Qed.

(** C9. [fetch_daily] calls the vendor at most [retry_count] times.  A
    failed attempt that is not the last is followed at once by the printed
    notice and the next call, nothing else happening in between.  The first
    successful attempt ends the loop: after k failures and a success the
    vendor has been called k + 1 times and the fetched table is processed.
    When all [retry_count] attempts fail, the exception of the last attempt
    is the one raised. *)
Theorem fetch_daily_retry_policy daily (rc : Z) w :
  calls (fetch_daily daily rc w).2 ≤ calls w + Z.to_nat rc
  ∧ (∀ es raw,
       (Z.of_nat (length es) < rc)%Z →
       (∀ i e, es !! i = Some e → daily (calls w + i) = Raise e) →
       daily (calls w + length es) = Ok raw →
       fetch_daily daily rc w
       = (rename_sort_project raw,
          {| calls := calls w + S (length es);
             trace := trace w ++ retries rc 0 es ++ [ApiCall] |}))
  ∧ (∀ es e,
       rc = Z.of_nat (S (length es)) →
       (∀ i e', (es ++ [e]) !! i = Some e' → daily (calls w + i) = Raise e') →
       fetch_daily daily rc w
       = (Raise e,
          {| calls := calls w + S (length es);
             trace := trace w ++ retries rc 0 es ++ [ApiCall] |})).
Proof.
  split; [|split].
  - unfold fetch_daily.
    pose proof (retry_loop_calls daily rc (seqZ 0 rc) w) as [_ Hle].
    rewrite length_seqZ in Hle.
    by destruct (retry_loop daily rc (seqZ 0 rc) w) as [r w1].
  - intros es raw Hlen Hfail Hok. unfold fetch_daily.
    rewrite (retry_loop_success daily rc es 0 rc w raw); [done|lia..|done|done].
  - intros es e -> Hfail. unfold fetch_daily.
    rewrite (retry_loop_exhausted daily _ es e 0 w); [done|lia|lia|done].
Qed.

End frames.

(** ** Credentials *)

Lemma load_dotenv_environ (p : process) :
  environ (load_dotenv p).2 = environ p ∪ dotenv_pairs p.
Proof.
  unfold load_dotenv, dotenv_pairs.
  destruct (dotenv_file p) as [[pairs failure]|]; simpl; [done|].
  by rewrite (right_id_L ∅ (∪)).
Qed.

Lemma load_dotenv_result (p : process) :
  (load_dotenv p).1
  = match dotenv_failure p with Some e => Raise e | None => Ok () end.
Proof.
  unfold load_dotenv, dotenv_failure.
  by destruct (dotenv_file p) as [[pairs failure]|].
Qed.

Lemma load_dotenv_lookup (key : string) (p : process) :
  environ (load_dotenv p).2 !! key
  = match environ p !! key with
    | Some v => Some v
    | None => dotenv_pairs p !! key
    end.
Proof.
  rewrite load_dotenv_environ, lookup_union.
  by destruct (environ p !! key) as [v|], (dotenv_pairs p !! key).
Qed.

Lemma get_env_cases {str : Type} `{!Interpreter str} (name : str)
    (p : process) :
  get_env name p
  = (match dotenv_failure p with
     | Some e => Raise e
     | None =>
         match fsencode name with
         | None => Raise UnicodeEncodeError
         | Some key =>
             if falsy (environ (load_dotenv p).2 !! key) then Ok None
             else Ok (environ (load_dotenv p).2 !! key)
         end
     end,
     (load_dotenv p).2).
Proof.
  unfold get_env, os_getenv. pose proof (load_dotenv_result p) as Hr.
  destruct (load_dotenv p) as [loaded p']. simpl in *. subst loaded.
  destruct (dotenv_failure p) as [e|]; [done|].
  destruct (fsencode name) as [key|]; [|done]. by destruct (falsy _).
Qed.

(** C10 (amended). [get_env] raises in two cases only: when loading the
    .env file raises (that exception is the one raised), and, the file
    loaded, when the name has no encoding for the environment lookup (a
    UnicodeEncodeError).  Otherwise it returns None when, in the
    environment it reads, the variable is absent or set to the empty
    string, and the variable's value otherwise.  The environment it reads
    is the process environment completed by the .env file: a variable the
    process has, be it empty, is not replaced by the file's. *)
Theorem get_env_value {str : Type} `{!Interpreter str} (name : str)
    (p : process) :
  let env := environ (load_dotenv p).2 in
  (∀ e, (get_env name p).1 = Raise e
        ↔ dotenv_failure p = Some e
          ∨ (dotenv_failure p = None ∧ fsencode name = None
             ∧ e = UnicodeEncodeError))
  ∧ (∀ key, dotenv_failure p = None → fsencode name = Some key →
       ((get_env name p).1 = Ok None
        ↔ env !! key = None ∨ env !! key = Some "")
       ∧ ∀ v, (get_env name p).1 = Ok (Some v)
              ↔ env !! key = Some v ∧ v ≠ "")
  ∧ ∀ key, env !! key
           = match environ p !! key with
             | Some v => Some v
             | None => dotenv_pairs p !! key
             end.
Proof.
  cbv zeta. rewrite get_env_cases. cbn [fst].
  split; [|split; [|intros key; apply load_dotenv_lookup]].
  - intros e. destruct (dotenv_failure p) as [e'|].
    + split; [intros [= ->]; by left|].
      intros [[= ->]|(? & _)]; done.
    + destruct (fsencode name) as [key|].
      * split; [by destruct (falsy _)|]. intros [|(_ & ? & _)]; done.
      * split; [intros [= <-]; by right|]. by intros [|(_ & _ & ->)].
  - intros key -> ->. unfold falsy.
    destruct (environ (load_dotenv p).2 !! key) as [s|] eqn:Hs.
    + case_bool_decide as Hd.
      * subst s. split; [split; [by right|done]|].
        intros v. split; [done|]. by intros [[= <-] ?].
      * split; [split; [done|]|].
        -- intros [|[= ->]]; done.
        -- intros v. split; [by intros [= <-]|by intros [[= <-] _]].
    + split; [split; [by left|done]|].
      intros v. split; [done|by intros [? _]].
Qed.

(** ** The sample vendor *)

Lemma key_le_total : Total key_le.
Proof. intros [x|] [y|]; simpl; auto. destruct (Z.le_ge_cases x y); auto. Qed.

Lemma merge_argsort_perm (R : relation (option Z * nat))
    `{∀ a b, Decision (R a b)} (keys : list (option Z)) :
  Sample.merge_argsort R keys ≡ₚ seq 0 (length keys).
Proof.
  unfold Sample.merge_argsort.
  rewrite merge_sort_Permutation, snd_zip; [done|]. by rewrite length_seq.
Qed.

Lemma merge_argsort_sorted (R : relation (option Z * nat))
    `{∀ a b, Decision (R a b)} (keys : list (option Z)) :
  Total R → (∀ a b, R a b → key_le a.1 b.1) →
  Sorted key_le (omap (λ i, keys !! i) (Sample.merge_argsort R keys)).
Proof.
  intros Htotal Hkey. unfold Sample.merge_argsort.
  set (sorted := merge_sort R (zip keys (seq 0 (length keys)))).
  assert (Forall (λ p, keys !! p.2 = Some p.1) sorted) as Hkeys.
  { unfold sorted. rewrite merge_sort_Permutation.
    apply Forall_forall. intros [k i] (p & Hp)%list_elem_of_lookup_1.
    apply lookup_zip_with_Some in Hp as (k' & i' & [= <- <-] & Hk & Hi).
    apply lookup_seq in Hi as [-> _]. done. }
  assert (omap (λ i, keys !! i) sorted.*2 = sorted.*1) as ->.
  { induction Hkeys as [|[k i] rest Hki _ IH]; [done|].
    rewrite !fmap_cons. cbn [omap list_omap fst snd] in *.
    rewrite Hki. cbn. by rewrite <- IH. }
  apply (Sorted_fmap _ R); [done|]. by apply Sorted_merge_sort.
Qed.

Lemma by_key_total : Total Sample.by_key.
Proof.
  intros [a i] [b j]. unfold Sample.by_key. simpl.
  destruct (decide (key_le a b)) as [Hab|Hab],
    (decide (key_le b a)) as [Hba|Hba].
  - destruct (Nat.le_ge_cases i j); [left|right]; split; auto.
  - left. split; [done|]. by intros ?.
  - right. split; [done|]. by intros ?.
  - by destruct (key_le_total a b).
Qed.

Lemma by_key_later_first_total : Total Sample.by_key_later_first.
Proof.
  intros [a i] [b j]. unfold Sample.by_key_later_first. simpl.
  destruct (decide (key_le a b)) as [Hab|Hab],
    (decide (key_le b a)) as [Hba|Hba].
  - destruct (Nat.le_ge_cases i j); [right|left]; split; auto.
  - left. split; [done|]. by intros ?.
  - right. split; [done|]. by intros ?.
  - by destruct (key_le_total a b).
Qed.

Lemma sample_sort_contract : SortContract (H := Sample.vendor).
Proof.
  split; simpl; intros keys.
  - apply merge_argsort_perm.
  - apply merge_argsort_sorted; [apply by_key_total|]. by intros ?? [? _].
Qed.

Lemma later_first_sort_contract :
  SortContract (H := Sample.vendor_later_first).
Proof.
  split; simpl; intros keys.
  - apply merge_argsort_perm.
  - apply merge_argsort_sorted; [apply by_key_later_first_total|].
    by intros ?? [? _].
Qed.

(** ** Worked examples *)

Section examples.
Import Sample.

Lemma zh_first_for_bars_zh :
  first_match (candidate_maps None) (columns bars_zh) zh_map.
Proof.
  exists [], [en_map; zh_lot_map; zh_share_map].
  split; [reflexivity|]. split; [constructor|].
  by apply all_keys_in_within.
Defined.

(** [bars_zh] satisfies both the plain and the lot-denominated candidate;
    the plain one, listed first, is applied. *)
Lemma normalize_applies_first_match_witness :
  first_match (candidate_maps None) (columns bars_zh) zh_map
  ∧ keys_within zh_lot_map (columns bars_zh)
  ∧ _normalize_ohlcv bars_zh None
    = project_and_type (rename zh_map bars_zh).
Proof.
  split; [exact zh_first_for_bars_zh|]. split.
  - by apply all_keys_in_within.
  - exact (proj2 (normalize_applies_first_match bars_zh None) zh_map
             zh_first_for_bars_zh).
Defined.

(** A caller's mapping with no entry is listed first by the specification
    and its (empty) key set is contained in any column set, yet the call
    does not continue with the table renamed by it: the built-in candidate
    is applied and a table returned, where the unrenamed table would have
    no canonical column. *)
Lemma empty_custom_mapping_not_applied :
  first_match (candidates_as_stated (Some ∅)) (columns bars_zh) ∅
  ∧ project_and_type (rename ∅ bars_zh)
    = Raise (KeyError ["datetime"; "open"; "high"; "low"; "close"; "volume"])
  ∧ _normalize_ohlcv bars_zh (Some ∅)
    = project_and_type (rename zh_map bars_zh)
  ∧ _normalize_ohlcv bars_zh (Some ∅)
    ≠ project_and_type (rename ∅ bars_zh).
Proof.
  split.
  { exists [], [zh_map; en_map; zh_lot_map; zh_share_map].
    split; [reflexivity|]. split; [constructor|].
    by apply all_keys_in_within. }
  split; [vm_compute; reflexivity|]. split; [vm_compute; reflexivity|].
  vm_compute. discriminate.
Qed.

Example normalize_bars_zh :
  _normalize_ohlcv bars_zh None
  = Ok [("datetime", [Timestamp 20240101; Timestamp 20240102;
                      Timestamp 20240103]);
        ("open", [Num (F64 12); NaN; Num (F64 10)]);
        ("high", [Num (I64 13); Num (I64 12); Num (I64 11)]);
        ("low", [Num (I64 11); Num (I64 10); Num (I64 9)]);
        ("close", [Num (I64 12); Num (I64 11); Num (I64 10)]);
        ("volume", [Num (I64 300); Num (I64 200); Num (I64 100)])].
Proof. vm_compute. reflexivity. Qed.

Example normalize_bars_canonical :
  _normalize_ohlcv bars_canonical (Some canonical_map)
  = Ok [("datetime", [Timestamp 20240101; Timestamp 20240102]);
        ("open", [Num (I64 11); Num (I64 10)]);
        ("high", [Num (I64 13); Num (I64 12)]);
        ("low", [Num (I64 9); Num (I64 8)]);
        ("close", [Num (I64 12); Num (I64 11)]);
        ("volume", [Num (I64 200); Num (I64 100)])].
Proof. vm_compute. reflexivity. Qed.

Example fetch_bars_tushare :
  fetch_daily (flaky 0 bars_tushare) 3 fresh
  = (Ok [("datetime", [Timestamp 20240101; Timestamp 20240102]);
         ("open", [Obj "11"; Obj "10"]); ("high", [Obj "13"; Obj "12"]);
         ("low", [Obj "9"; Obj "8"]); ("close", [Obj "12"; Obj "11"]);
         ("volume", [Obj "200"; Obj "100"])],
     {| calls := 1; trace := [ApiCall] |}).
Proof. vm_compute. reflexivity. Qed.

Lemma returned_columns_witness :
  (∃ out, _normalize_ohlcv bars_zh None = Ok out ∧ columns out = use_cols)
  ∧ (∃ out w',
       fetch_daily (flaky 0 bars_tushare) 3 fresh = (Ok out, w')
       ∧ Forall (λ l, length (loc l (rename tushare_map bars_tushare)) ≤ 1)
           numeric_cols
       ∧ columns out = use_cols).
Proof.
  split.
  - eexists. split; [exact normalize_bars_zh|].
    exact (proj1 returned_columns _ _ _ normalize_bars_zh).
  - eexists _, _. split; [exact fetch_bars_tushare|].
    assert (Forall (λ l, length (loc l (rename tushare_map bars_tushare)) ≤ 1)
              numeric_cols) as Hone
      by (repeat constructor).
    split; [exact Hone|].
    destruct (proj2 (proj2 returned_columns) _ _ _ _ _ fetch_bars_tushare)
      as (raw & k & Hk & _ & Hcols).
    apply Hcols. unfold flaky in Hk.
    destruct (decide (k < 0)); [lia|]. by injection Hk as <-.
Defined.

(** A vendor table that carries a column named volume next to vol: the
    fetcher returns seven columns. *)
Lemma tushare_volume_column_repeated :
  fetch_daily (flaky 0 bars_tushare_volume) 3 fresh
  = (Ok [("datetime", [Timestamp 20240101; Timestamp 20240102]);
         ("open", [Obj "11"; Obj "10"]); ("high", [Obj "13"; Obj "12"]);
         ("low", [Obj "9"; Obj "8"]); ("close", [Obj "12"; Obj "11"]);
         ("volume", [Obj "200"; Obj "100"]); ("volume", [Obj "8"; Obj "7"])],
     {| calls := 1; trace := [ApiCall] |})
  ∧ ∃ out, (fetch_daily (flaky 0 bars_tushare_volume) 3 fresh).1 = Ok out
      ∧ columns out ≠ use_cols.
Proof.
  split; [vm_compute; reflexivity|].
  eexists. split; [vm_compute; reflexivity|]. vm_compute. discriminate.
Qed.


(** The canonical table is rejected when no custom mapping is passed. *)
Lemma canonical_table_rejected :
  _normalize_ohlcv bars_canonical None
  = Raise (SchemaMismatch
             ["datetime"; "open"; "high"; "low"; "close"; "volume"])
  ∧ ∀ out, _normalize_ohlcv bars_canonical None ≠ Ok out.
Proof. split; [vm_compute; reflexivity|]. intros out. vm_compute. discriminate. Qed.

Lemma canonical_table_normalization_witness :
  Forall (λ x, parse_datetime (Obj <$> ["20240102"; "20240101"]) x ≠ DtFail)
    (Obj <$> ["20240102"; "20240101"])
  ∧ _normalize_ohlcv bars_canonical None = Raise (SchemaMismatch use_cols)
  ∧ ∃ out, _normalize_ohlcv bars_canonical (Some canonical_map) = Ok out.
Proof.
  assert (Forall (λ x, parse_datetime (Obj <$> ["20240102"; "20240101"]) x
                       ≠ DtFail)
            (Obj <$> ["20240102"; "20240101"])) as Hdates
    by (repeat constructor; discriminate).
  split; [exact Hdates|].
  destruct (@canonical_table_normalization _ _ _ sample_sort_contract
              (Obj <$> ["20240102"; "20240101"]) (Obj <$> ["10"; "11"])
              (Obj <$> ["12"; "13"]) (Obj <$> ["8"; "9"])
              (Obj <$> ["11"; "12"]) (Obj <$> ["100"; "200"]))
    as [Hnone Hsome].
  split; [exact Hnone|].
  destruct (Hsome Hdates) as (d' & indexer & _ & _ & Hout).
  eexists. exact Hout.
Defined.

Lemma numeric_failure_becomes_missing_witness :
  rectangular 3 bars_zh
  ∧ ∃ out, _normalize_ohlcv bars_zh None = Ok out
      ∧ rectangular 3 out
      ∧ loc "open" out = [("open", [Num (F64 12); NaN; Num (F64 10)])].
Proof.
  assert (rectangular 3 bars_zh) as Hrect by (repeat constructor).
  split; [exact Hrect|]. eexists. split; [exact normalize_bars_zh|].
  destruct (proj2 (@numeric_failure_becomes_missing _ _ _ sample_sort_contract
                     bars_zh None) _ 3 Hrect normalize_bars_zh)
    as (mp & indexer & _ & _ & Hout & _).
  split; [exact Hout|reflexivity].
Defined.

Lemma zh_first_for_bars_bad_date :
  first_match (candidate_maps None) (columns bars_bad_date) zh_map.
Proof.
  exists [], [en_map; zh_lot_map; zh_share_map].
  split; [reflexivity|]. split; [constructor|].
  by apply all_keys_in_within.
Defined.

Lemma unparseable_date_fails_call_witness :
  first_match (candidate_maps None) (columns bars_bad_date) zh_map
  ∧ Exists (λ x, parse_datetime (Obj <$> ["20240102"; "soon"]) x = DtFail)
      (Obj <$> ["20240102"; "soon"])
  ∧ _normalize_ohlcv bars_bad_date None = Raise DateTimeParseError.
Proof.
  assert (Exists (λ x, parse_datetime (Obj <$> ["20240102"; "soon"]) x
                       = DtFail)
            (Obj <$> ["20240102"; "soon"])) as Hbad
    by (right; left; reflexivity).
  split; [exact zh_first_for_bars_bad_date|]. split; [exact Hbad|].
  refine (proj2 (proj1 (@unparseable_date_fails_call _ _ _
                          sample_sort_contract bars_bad_date None zh_map
                          (Obj <$> ["20240102"; "soon"])
                          zh_first_for_bars_bad_date _) Hbad) _ _).
  - left.
  - by apply (bool_decide_unpack (Forall _ _)).
  - reflexivity.
Defined.

(** Two dates that are no calendar timestamps without a date-parse error.
    A caller's mapping for a feed without volume matches, the date of the
    feed does not parse, and the call fails with the key error of the
    projection.  The second date of [bars_null_date] is empty: it is read
    as the missing timestamp, and the table is returned with its row. *)
Lemma dates_without_date_error :
  (first_match (candidate_maps (Some five_map)) (columns bars_five) five_map
   ∧ loc "datetime" (rename five_map bars_five)
     = [("datetime", [Obj "yesterday"])]
   ∧ parse_datetime [Obj "yesterday"] (Obj "yesterday" : cell string scalar)
     = DtFail
   ∧ _normalize_ohlcv bars_five (Some five_map) = Raise (KeyError ["volume"])
   ∧ _normalize_ohlcv bars_five (Some five_map) ≠ Raise DateTimeParseError)
  ∧ (first_match (candidate_maps None) (columns bars_null_date) zh_map
     ∧ loc "datetime" (rename zh_map bars_null_date)
       = [("datetime", [Obj "20240102"; Obj ""])]
     ∧ parse_datetime [Obj "20240102"; Obj ""] (Obj "" : cell string scalar)
       = DtNaT
     ∧ _normalize_ohlcv bars_null_date None
       = Ok [("datetime", [Timestamp 20240102; NaT]);
             ("open", [Num (I64 10); Num (I64 11)]);
             ("high", [Num (I64 12); Num (I64 13)]);
             ("low", [Num (I64 8); Num (I64 9)]);
             ("close", [Num (I64 11); Num (I64 12)]);
             ("volume", [Num (I64 100); Num (I64 200)])]).
Proof.
  split.
  - split.
    { exists [], [zh_map; en_map; zh_lot_map; zh_share_map].
      split; [reflexivity|]. split; [constructor|].
      by apply all_keys_in_within. }
    split; [reflexivity|]. split; [reflexivity|].
    split; [vm_compute; reflexivity|]. vm_compute. discriminate.
  - split.
    { exists [], [en_map; zh_lot_map; zh_share_map].
      split; [reflexivity|]. split; [constructor|].
      by apply all_keys_in_within. }
    split; [reflexivity|]. split; [reflexivity|].
    vm_compute. reflexivity.
Qed.

(** [bars_zh] has one price that does not parse; with that price readable
    the other two cells of the column, which parsed in both tables, are
    integers where they were floats. *)
Lemma unreadable_cell_retypes_its_column :
  (loc "open" <$> _normalize_ohlcv bars_zh None)
  = Ok [("open", [Num (F64 12); NaN; Num (F64 10)])]
  ∧ (loc "open" <$> _normalize_ohlcv bars_zh_readable None)
    = Ok [("open", [Num (I64 12); Num (I64 11); Num (I64 10)])].
Proof. split; vm_compute; reflexivity. Qed.

(** With the default of three attempts: two time-outs and a success, and
    three time-outs. *)
Lemma fetch_daily_retry_policy_witness :
  fetch_daily (flaky 2 bars_tushare) retry_count_default fresh
  = (rename_sort_project bars_tushare,
     {| calls := 3;
        trace := [ApiCall; Printed 1 3 (VendorError "timeout");
                  ApiCall; Printed 2 3 (VendorError "timeout"); ApiCall] |})
  ∧ fetch_daily (flaky 3 bars_tushare) retry_count_default fresh
    = (Raise (VendorError "timeout"),
       {| calls := 3;
          trace := [ApiCall; Printed 1 3 (VendorError "timeout");
                    ApiCall; Printed 2 3 (VendorError "timeout"); ApiCall] |}).
Proof.
  split.
  - refine (proj1 (proj2 (fetch_daily_retry_policy
      (flaky 2 bars_tushare) 3 fresh))
      [VendorError "timeout"; VendorError "timeout"] bars_tushare _ _ _).
    + simpl. lia.
    + intros [|[|i]] e; simpl; [by intros [= <-]..|done].
    + reflexivity.
  - refine (proj2 (proj2 (fetch_daily_retry_policy
      (flaky 3 bars_tushare) 3 fresh))
      [VendorError "timeout"; VendorError "timeout"]
      (VendorError "timeout") _ _).
    + reflexivity.
    + intros [|[|[|i]]] e; simpl; [by intros [= <-]..|done].
Defined.

Lemma schema_mismatch_iff_no_candidate_witness :
  Forall (λ m, ¬ keys_within m (columns bars_canonical)) (candidate_maps None)
  ∧ ∃ cols, _normalize_ohlcv bars_canonical None
            = Raise (SchemaMismatch cols).
Proof.
  assert (∃ cols, _normalize_ohlcv bars_canonical None
                  = Raise (SchemaMismatch cols)) as Hraise
    by (eexists; vm_compute; reflexivity).
  split; [|exact Hraise].
  exact (proj1 (proj1 (schema_mismatch_iff_no_candidate bars_canonical None))
           Hraise).
Defined.

(** The caller passes a mapping without entries for a table that no
    built-in candidate matches: the key set of that mapping, one of the
    stated candidates, is contained in the table's columns, yet the error
    is raised. *)
Lemma schema_mismatch_despite_contained_mapping :
  (∅ : dict) ∈ candidates_as_stated (Some ∅)
  ∧ keys_within ∅ (columns bars_canonical)
  ∧ _normalize_ohlcv bars_canonical (Some ∅)
    = Raise (SchemaMismatch
               ["datetime"; "open"; "high"; "low"; "close"; "volume"]).
Proof.
  split; [left|]. split; [by apply all_keys_in_within|].
  vm_compute. reflexivity.
Qed.

Lemma get_env_value_witness :
  let p := {| environ := {[ "TUSHARE_TOKEN" := "" ]};
              dotenv_file := Some ({[ "TUSHARE_TOKEN" := "abc" ]}, None) |} in
  dotenv_failure p = None
  ∧ fsencode (text "TUSHARE_TOKEN") = Some "TUSHARE_TOKEN"
  ∧ environ (load_dotenv p).2 !! "TUSHARE_TOKEN" = Some ""
  ∧ (get_env (text "TUSHARE_TOKEN") p).1 = Ok None.
Proof.
  intros p.
  assert (fsencode (text "TUSHARE_TOKEN") = Some "TUSHARE_TOKEN") as Hkey
    by (vm_compute; reflexivity).
  assert (environ (load_dotenv p).2 !! "TUSHARE_TOKEN" = Some "") as Hset
    by (vm_compute; reflexivity).
  split; [reflexivity|]. split; [exact Hkey|]. split; [exact Hset|].
  exact (proj2 (proj1 (proj1 (proj2 (get_env_value (text "TUSHARE_TOKEN") p))
                         "TUSHARE_TOKEN" eq_refl Hkey))
           (or_intror Hset)).
Defined.

(** Two calls that raise: the name is a lone surrogate, which has no
    encoding; the .env file is not UTF-8 text. *)
Lemma get_env_raises :
  (get_env [55296%N] {| environ := ∅; dotenv_file := None |}).1
  = Raise UnicodeEncodeError
  ∧ (get_env (text "TUSHARE_TOKEN")
       {| environ := {[ "TUSHARE_TOKEN" := "abc" ]};
          dotenv_file := Some (∅, Some UnicodeDecodeError) |}).1
    = Raise UnicodeDecodeError.
Proof. split; vm_compute; reflexivity. Qed.

Example get_env_examples :
  (get_env (text "TUSHARE_TOKEN")
     {| environ := ∅; dotenv_file := None |}).1 = Ok None
  ∧ (get_env (text "TUSHARE_TOKEN")
       {| environ := {[ "TUSHARE_TOKEN" := "" ]};
          dotenv_file := Some ({[ "TUSHARE_TOKEN" := "abc" ]}, None) |}).1
    = Ok None
  ∧ (get_env (text "TUSHARE_TOKEN")
       {| environ := ∅;
          dotenv_file := Some ({[ "TUSHARE_TOKEN" := "abc" ]}, None) |}).1
    = Ok (Some "abc")
  ∧ fsencode [233%N; 56575%N] = Some (byte 195 +:+ byte 169 +:+ byte 255).
Proof. repeat split; vm_compute; reflexivity. Qed.

(** The order of bars with equal dates is the sort's own: both sample sorts
    honour [SortContract], one returns the two bars of [bars_same_day] as
    they came, the other swaps them. *)
Example equal_dates_order_follows_the_sort :
  (loc "open" <$> @_normalize_ohlcv _ _ vendor bars_same_day None)
  = Ok [("open", [Num (I64 10); Num (I64 11)])]
  ∧ (loc "open" <$> @_normalize_ohlcv _ _ vendor_later_first bars_same_day None)
    = Ok [("open", [Num (I64 11); Num (I64 10)])].
Proof. split; vm_compute; reflexivity. Qed.

End examples.

(** * Further properties *)

(** ** Strategies *)

Lemma run_snoc next p cs c s :
  run next p (cs ++ [c]) s = dispatch next p (run next p cs s) c.
Proof. unfold run. by rewrite foldl_snoc. Qed.

Lemma run_cons next p c cs s :
  run next p (c :: cs) s = run next p cs (dispatch next p s c).
Proof. reflexivity. Qed.

Lemma notify_order_effects p b o s :
  bought (BaseStrategy.notify_order p b o s) = bought s
  ∧ sent (BaseStrategy.notify_order p b o s) = sent s
  ∧ drawn (BaseStrategy.notify_order p b o s) = drawn s.
Proof.
  unfold BaseStrategy.notify_order, BaseStrategy.log.
  repeat case_decide; try done; by destruct (isbuy o), (printlog p).
Qed.

Lemma notify_order_keeps p b o s :
  status o ∈ [Submitted; Accepted] → BaseStrategy.notify_order p b o s = s.
Proof. intros Hs. unfold BaseStrategy.notify_order. by rewrite decide_True. Qed.

Lemma notify_order_clears p b o s :
  status o ∉ [Submitted; Accepted] →
  order (BaseStrategy.notify_order p b o s) = None.
Proof.
  intros Hs. unfold BaseStrategy.notify_order. by rewrite decide_False.
Qed.

Lemma notify_trade_effects p b t s :
  order (BaseStrategy.notify_trade p b t s) = order s
  ∧ bought (BaseStrategy.notify_trade p b t s) = bought s
  ∧ sent (BaseStrategy.notify_trade p b t s) = sent s
  ∧ drawn (BaseStrategy.notify_trade p b t s) = drawn s.
Proof.
  unfold BaseStrategy.notify_trade, BaseStrategy.log.
  by destruct (isclosed t), (printlog p).
Qed.

Lemma stop_effects p b s :
  order (BaseStrategy.stop p b s) = order s
  ∧ bought (BaseStrategy.stop p b s) = bought s
  ∧ sent (BaseStrategy.stop p b s) = sent s
  ∧ drawn (BaseStrategy.stop p b s) = drawn s.
Proof.
  unfold BaseStrategy.stop, BaseStrategy.log. by destruct (printlog p).
Qed.

(** A strategy whose [next] returns at once when an order is pending sends
    nothing and keeps the order through callbacks that cannot end it. *)
Lemma pending_blocks (next : params → bar → strategy → strategy) p cs s h :
  (∀ b s, is_Some (order s) → next p b s = s) →
  order s = Some h → Forall keeps_pending cs →
  order (run next p cs s) = Some h
  ∧ sent (run next p cs s) = sent s
  ∧ drawn (run next p cs s) = drawn s
  ∧ bought (run next p cs s) = bought s.
Proof.
  intros Hnext Hs Hcs. revert s Hs.
  induction Hcs as [|c cs Hc _ IH]; intros s Hs; [done|].
  rewrite run_cons.
  assert (order (dispatch next p s c) = Some h
          ∧ sent (dispatch next p s c) = sent s
          ∧ drawn (dispatch next p s c) = drawn s
          ∧ bought (dispatch next p s c) = bought s) as (Ho & Hsent & Hd & Hb).
  { destruct c as [b|b o|b t|b]; simpl in *.
    - by rewrite Hnext by (by rewrite Hs).
    - by rewrite notify_order_keeps.
    - destruct (notify_trade_effects p b t s) as (-> & -> & -> & ->). done.
    - destruct (stop_effects p b s) as (-> & -> & -> & ->). done. }
  destruct (IH _ Ho) as (-> & -> & -> & ->). done.
Qed.

(** X1. Under both strategies an order that is pending blocks every further
    order: through any sequence of callbacks in which every order
    notification has status Submitted or Accepted, the pending order stays,
    nothing is sent to the broker and no random number is drawn.  The first
    notification with any other status (Partial, Expired and Created
    included) clears the pending order. *)
Theorem pending_order_blocks_until_notified p rng cs s h :
  order s = Some h → Forall keeps_pending cs →
  (order (run BuyAndHoldStrategy.next p cs s) = Some h
   ∧ sent (run BuyAndHoldStrategy.next p cs s) = sent s
   ∧ bought (run BuyAndHoldStrategy.next p cs s) = bought s)
  ∧ (order (run (RandomTraderStrategy.next rng) p cs s) = Some h
     ∧ sent (run (RandomTraderStrategy.next rng) p cs s) = sent s
     ∧ drawn (run (RandomTraderStrategy.next rng) p cs s) = drawn s)
  ∧ ∀ b o, status o ∉ [Submitted; Accepted] →
      order (BaseStrategy.notify_order p b o s) = None
      ∧ sent (BaseStrategy.notify_order p b o s) = sent s.
Proof.
  intros Hs Hcs. split; [|split].
  - destruct (pending_blocks BuyAndHoldStrategy.next p cs s h)
      as (? & ? & ? & ?); [|done..].
    intros b s' Hp. unfold BuyAndHoldStrategy.next. by rewrite decide_True.
  - destruct (pending_blocks (RandomTraderStrategy.next rng) p cs s h)
      as (? & ? & ? & ?); [|done..].
    intros b s' Hp. unfold RandomTraderStrategy.next. by rewrite decide_True.
  - intros b o Ho. split; [by apply notify_order_clears|].
    apply notify_order_effects.
Qed.

Lemma buy_and_hold_step p s c :
  buy_and_hold_invariant p s →
  buy_and_hold_invariant p (dispatch BuyAndHoldStrategy.next p s c).
Proof.
  intros Hinv. destruct c as [b|b o|b t|b]; simpl.
  - unfold BuyAndHoldStrategy.next. case_decide as Hpend; [done|].
    case_decide as Hflat; [|done]. destruct Hflat as [_ Hb].
    destruct Hinv as [(_ & Hsent & _)|[Hb' _]]; [|congruence].
    unfold buy, submit, BaseStrategy.log. right.
    destruct (decide (size p = 0%Z)) as [Hz|Hz], (printlog p); simpl;
      rewrite ?Hsent; (split; [done|]); first [by left|by right].
  - destruct (notify_order_effects p b o s) as (Hb & Hs & _).
    unfold buy_and_hold_invariant. rewrite Hb, Hs.
    destruct (decide (status o ∈ [Submitted; Accepted])) as [Hk|Hk].
    + by rewrite notify_order_keeps.
    + rewrite notify_order_clears by done.
      destruct Hinv as [(? & ? & ?)|(? & [(? & ? & ?)|(? & ?)])];
        [by left|right; split; [done|by left]|right; split; [done|by right]].
  - destruct (notify_trade_effects p b t s) as (Ho & Hb & Hs & _).
    unfold buy_and_hold_invariant. by rewrite Ho, Hb, Hs.
  - destruct (stop_effects p b s) as (Ho & Hb & Hs & _).
    unfold buy_and_hold_invariant. by rewrite Ho, Hb, Hs.
Qed.

Lemma buy_and_hold_run p cs s :
  buy_and_hold_invariant p s →
  buy_and_hold_invariant p (run BuyAndHoldStrategy.next p cs s).
Proof.
  revert s. induction cs as [|c cs IH]; intros s Hinv; [done|].
  rewrite run_cons. by apply IH, buy_and_hold_step.
Qed.

(** X2. Whatever the engine calls and in whatever order, the buy-and-hold
    strategy sends at most one order in its life, a buy of the absolute
    value of its size parameter, and never a sell; it sends none at all
    when the size is zero.  In particular it does not order again after a
    rejection or cancellation. *)
Theorem buy_and_hold_sends_one_order_at_most p cs :
  sent (run BuyAndHoldStrategy.next p cs BuyAndHoldStrategy.init) = []
  ∨ (sent (run BuyAndHoldStrategy.next p cs BuyAndHoldStrategy.init)
     = [BuyReq (Z.abs (size p))]
     ∧ size p ≠ 0%Z
     ∧ bought (run BuyAndHoldStrategy.next p cs BuyAndHoldStrategy.init)
       = true).
Proof.
  destruct (buy_and_hold_run p cs BuyAndHoldStrategy.init)
    as [(_ & Hs & _)|(Hb & [(Hs & _)|(Hs & Hz)])].
  - by left.
  - by left.
  - by left.
  - by right.
Qed.

Lemma buy_and_hold_waits p cs :
  Forall not_flat_bar cs →
  order (run BuyAndHoldStrategy.next p cs BuyAndHoldStrategy.init) = None
  ∧ bought (run BuyAndHoldStrategy.next p cs BuyAndHoldStrategy.init) = false
  ∧ sent (run BuyAndHoldStrategy.next p cs BuyAndHoldStrategy.init) = [].
Proof.
  induction cs as [|c cs IH] using rev_ind; intros Hcs; [done|].
  apply Forall_app in Hcs as [Hcs Hc]. apply Forall_inv in Hc.
  rewrite run_snoc. destruct (IH Hcs) as (Ho & Hb & Hs).
  set (s := run BuyAndHoldStrategy.next p cs BuyAndHoldStrategy.init) in *.
  destruct c as [b|b o|b t|b]; simpl in *.
  - unfold BuyAndHoldStrategy.next.
    rewrite decide_False by (rewrite Ho; by intros [??]).
    rewrite decide_False by (intros [Hp _]; exact (Hc Hp)). auto.
  - destruct (notify_order_effects p b o s) as (-> & -> & _).
    split; [|done].
    destruct (decide (status o ∈ [Submitted; Accepted])).
    + by rewrite notify_order_keeps.
    + by apply notify_order_clears.
  - by destruct (notify_trade_effects p b t s) as (-> & -> & -> & _).
  - by destruct (stop_effects p b s) as (-> & -> & -> & _).
Qed.

(** X3. The buy-and-hold strategy buys at the first opportunity: on the
    first bar at which the position is flat it sends a buy of the absolute
    value of its (non-zero) size parameter, whatever callbacks came before,
    and keeps that order, the first it sends, as its pending order. *)
Theorem buy_and_hold_buys_on_first_flat_bar p cs b :
  Forall not_flat_bar cs → position b = 0%Z → size p ≠ 0%Z →
  sent (run BuyAndHoldStrategy.next p (cs ++ [CallNext b])
          BuyAndHoldStrategy.init)
  = [BuyReq (Z.abs (size p))]
  ∧ order (run BuyAndHoldStrategy.next p (cs ++ [CallNext b])
             BuyAndHoldStrategy.init)
    = Some 0.
Proof.
  intros Hcs Hflat Hsize. rewrite run_snoc.
  destruct (buy_and_hold_waits p cs Hcs) as (Ho & Hb & Hs).
  set (s := run BuyAndHoldStrategy.next p cs BuyAndHoldStrategy.init) in *.
  simpl. unfold BuyAndHoldStrategy.next.
  rewrite decide_False by (rewrite Ho; by intros [??]).
  rewrite decide_True by done.
  unfold buy, submit, BaseStrategy.log. rewrite decide_False by done.
  destruct (printlog p); simpl; by rewrite Hs.
Qed.

Lemma random_trader_step rng p s c :
  ∃ new, sent (dispatch (RandomTraderStrategy.next rng) p s c)
         = sent s ++ new
    ∧ Forall (λ r,
        match r with
        | BuyReq n =>
            n = Z.abs (size p) ∧ size p ≠ 0%Z
            ∧ (∃ b, c = CallNext b ∧ position b = 0%Z
                 ∧ QArith_base.Qlt (rng (drawn s)) (buy_prob p))
        | SellReq n =>
            ∃ b, c = CallNext b ∧ position b ≠ 0%Z ∧ n = Z.abs (position b)
              ∧ QArith_base.Qlt (rng (drawn s)) (sell_prob p)
        end) new
    ∧ drawn s ≤ drawn (dispatch (RandomTraderStrategy.next rng) p s c).
Proof.
  destruct c as [b|b o|b t|b]; simpl.
  - unfold RandomTraderStrategy.next.
    case_decide as Hpend; [exists []; by rewrite app_nil_r|].
    case_decide as Hflat; unfold random_random;
      destruct (QArith_base.Qlt_le_dec _ _) as [Hlt|Hle]; simpl;
      try (exists []; rewrite app_nil_r; split; [done|split; [done|lia]]).
    + unfold buy, submit, BaseStrategy.log.
      destruct (decide (size p = 0%Z)), (printlog p); simpl;
        try (exists []; rewrite app_nil_r; split; [done|split; [done|lia]]);
        (eexists [_]; split; [done|split; [|lia]]);
        apply Forall_singleton; eauto 10.
    + unfold sell, submit, BaseStrategy.log.
      rewrite decide_False by done.
      destruct (printlog p); simpl;
        (eexists [_]; split; [done|split; [|lia]]);
        apply Forall_singleton; eauto 10.
  - destruct (notify_order_effects p b o s) as (_ & -> & ->).
    exists []. by rewrite app_nil_r.
  - destruct (notify_trade_effects p b t s) as (_ & _ & -> & ->).
    exists []. by rewrite app_nil_r.
  - destruct (stop_effects p b s) as (_ & _ & -> & ->).
    exists []. by rewrite app_nil_r.
Qed.

(** X4. Whatever the engine calls, every order the random trader sends was
    decided on a bar: a buy only on a bar at which the position was flat,
    for the absolute value of the size parameter; a sell only on a bar at
    which a position was open, for the absolute size of that position.  A
    run whose bars are all flat sends no sell, a run without a flat bar
    sends no buy. *)
Theorem random_trader_orders_follow_position rng p cs s :
  ∃ new, sent (run (RandomTraderStrategy.next rng) p cs s) = sent s ++ new
    ∧ Forall (λ r,
        match r with
        | BuyReq n =>
            n = Z.abs (size p) ∧ size p ≠ 0%Z
            ∧ ∃ b, CallNext b ∈ cs ∧ position b = 0%Z
        | SellReq n =>
            ∃ b, CallNext b ∈ cs ∧ position b ≠ 0%Z
              ∧ n = Z.abs (position b)
        end) new.
Proof.
  revert s. induction cs as [|c cs IH]; intros s.
  - exists []. by rewrite app_nil_r.
  - rewrite run_cons.
    destruct (random_trader_step rng p s c) as (new1 & Hs1 & Hnew1 & _).
    destruct (IH (dispatch (RandomTraderStrategy.next rng) p s c))
      as (new2 & Hs2 & Hnew2).
    exists (new1 ++ new2). split; [by rewrite Hs2, Hs1, app_assoc|].
    apply Forall_app. split.
    + eapply Forall_impl; [exact Hnew1|]. intros [n|n].
      * intros (? & ? & b & -> & ? & _). repeat split; [done..|].
        exists b. split; [left|done].
      * intros (b & -> & ? & ? & _). exists b. split; [left|done].
    + eapply Forall_impl; [exact Hnew2|]. intros [n|n].
      * intros (? & ? & b & ? & ?). repeat split; [done..|].
        exists b. split; [by right|done].
      * intros (b & ? & ? & ?). exists b. split; [by right|done].
Qed.

Lemma random_trader_draws rng p cs s :
  ∃ new, sent (run (RandomTraderStrategy.next rng) p cs s) = sent s ++ new
    ∧ Forall (λ r,
        match r with
        | BuyReq _ => ∃ k, QArith_base.Qlt (rng k) (buy_prob p)
        | SellReq _ => ∃ k, QArith_base.Qlt (rng k) (sell_prob p)
        end) new.
Proof.
  revert s. induction cs as [|c cs IH]; intros s.
  - exists []. by rewrite app_nil_r.
  - rewrite run_cons.
    destruct (random_trader_step rng p s c) as (new1 & Hs1 & Hnew1 & _).
    destruct (IH (dispatch (RandomTraderStrategy.next rng) p s c))
      as (new2 & Hs2 & Hnew2).
    exists (new1 ++ new2). split; [by rewrite Hs2, Hs1, app_assoc|].
    apply Forall_app. split; [|done].
    eapply Forall_impl; [exact Hnew1|]. intros [n|n].
    + intros (_ & _ & b & _ & _ & Hlt). eauto.
    + intros (b & _ & _ & _ & Hlt). eauto.
Qed.

(** X5. With draws in [0, 1): a random trader whose buy probability is zero
    or negative never sends a buy, and one whose sell probability is zero
    or negative never sends a sell, whatever the engine calls; one whose
    buy probability is at least one buys on every flat bar on which no
    order is pending (size not zero), and one whose sell probability is at
    least one sells the whole position on every bar on which a position is
    open and no order is pending. *)
Theorem random_trader_degenerate_probabilities rng p :
  (∀ k, QArith_base.Qle (QArith_base.Qmake 0 1) (rng k)
        ∧ QArith_base.Qlt (rng k) (QArith_base.Qmake 1 1)) →
  (∀ cs s, QArith_base.Qle (buy_prob p) (QArith_base.Qmake 0 1) →
     ∃ new, sent (run (RandomTraderStrategy.next rng) p cs s) = sent s ++ new
       ∧ Forall is_sell_request new)
  ∧ (∀ cs s, QArith_base.Qle (sell_prob p) (QArith_base.Qmake 0 1) →
       ∃ new, sent (run (RandomTraderStrategy.next rng) p cs s)
              = sent s ++ new
         ∧ Forall is_buy_request new)
  ∧ (∀ b s, QArith_base.Qle (QArith_base.Qmake 1 1) (buy_prob p) →
       order s = None → position b = 0%Z → size p ≠ 0%Z →
       sent (RandomTraderStrategy.next rng p b s)
       = sent s ++ [BuyReq (Z.abs (size p))]
       ∧ order (RandomTraderStrategy.next rng p b s)
         = Some (length (sent s)))
  ∧ (∀ b s, QArith_base.Qle (QArith_base.Qmake 1 1) (sell_prob p) →
       order s = None → position b ≠ 0%Z →
       sent (RandomTraderStrategy.next rng p b s)
       = sent s ++ [SellReq (Z.abs (position b))]
       ∧ order (RandomTraderStrategy.next rng p b s)
         = Some (length (sent s))).
Proof.
  intros Hrng.
  assert (∀ k q, QArith_base.Qle q (QArith_base.Qmake 0 1) →
                 ¬ QArith_base.Qlt (rng k) q) as Hnever.
  { intros k q Hq Hlt. destruct (Hrng k) as [H0 _].
    eapply QArith_base.Qlt_not_le; [exact Hlt|].
    eapply QArith_base.Qle_trans; [exact Hq|exact H0]. }
  assert (∀ k q, QArith_base.Qle (QArith_base.Qmake 1 1) q →
                 ¬ QArith_base.Qle q (rng k)) as Halways.
  { intros k q Hq Hle. destruct (Hrng k) as [_ H1].
    eapply QArith_base.Qlt_not_le; [exact H1|].
    eapply QArith_base.Qle_trans; [exact Hq|exact Hle]. }
  split; [|split; [|split]].
  - intros cs s Hq.
    destruct (random_trader_draws rng p cs s) as (new & Hs & Hnew).
    exists new. split; [done|].
    eapply Forall_impl; [exact Hnew|]. intros [n|n]; [|done].
    intros [k Hlt]. by apply Hnever in Hlt.
  - intros cs s Hq.
    destruct (random_trader_draws rng p cs s) as (new & Hs & Hnew).
    exists new. split; [done|].
    eapply Forall_impl; [exact Hnew|]. intros [n|n]; [done|].
    intros [k Hlt]. by apply Hnever in Hlt.
  - intros b s Hq Ho Hflat Hsize. unfold RandomTraderStrategy.next.
    rewrite decide_False by (rewrite Ho; by intros [??]).
    rewrite decide_True by done. unfold random_random.
    destruct (QArith_base.Qlt_le_dec _ _) as [_|Hle];
      [|by apply Halways in Hle].
    unfold buy, submit, BaseStrategy.log. simpl.
    rewrite decide_False by done. by destruct (printlog p).
  - intros b s Hq Ho Hopen. unfold RandomTraderStrategy.next.
    rewrite decide_False by (rewrite Ho; by intros [??]).
    rewrite decide_False by done. unfold random_random.
    destruct (QArith_base.Qlt_le_dec _ _) as [_|Hle];
      [|by apply Halways in Hle].
    unfold sell, submit, BaseStrategy.log. simpl.
    rewrite decide_False by done. by destruct (printlog p).
Qed.

Lemma silent_dispatch (next : params → bar → strategy → strategy) p s c :
  printlog p = false →
  (∀ b s, printed (next p b s) = printed s) →
  printed (dispatch next p s c) = printed s.
Proof.
  intros Hp Hnext. destruct c as [b|b o|b t|b]; simpl; [done|..].
  - unfold BaseStrategy.notify_order, BaseStrategy.log. rewrite Hp.
    repeat case_decide; try done; by destruct (isbuy o).
  - unfold BaseStrategy.notify_trade, BaseStrategy.log. rewrite Hp.
    by destruct (isclosed t).
  - unfold BaseStrategy.stop, BaseStrategy.log. by rewrite Hp.
Qed.

Lemma silent_run (next : params → bar → strategy → strategy) p cs s :
  printlog p = false →
  (∀ b s, printed (next p b s) = printed s) →
  printed (run next p cs s) = printed s.
Proof.
  intros Hp Hnext. revert s. induction cs as [|c cs IH]; intros s; [done|].
  rewrite run_cons, IH. by apply silent_dispatch.
Qed.

(** X6. With the [printlog] parameter off neither strategy prints anything,
    whatever the engine calls: orders executed, orders refused, closed
    trades, orders placed and the ending value all go unreported. *)
Theorem printlog_off_prints_nothing rng p cs s :
  printlog p = false →
  printed (run BuyAndHoldStrategy.next p cs s) = printed s
  ∧ printed (run (RandomTraderStrategy.next rng) p cs s) = printed s.
Proof.
  intros Hp. split; apply silent_run; try done.
  - intros b s'. unfold BuyAndHoldStrategy.next, buy, submit,
      BaseStrategy.log. rewrite Hp.
    repeat case_decide; done.
  - intros b s'. unfold RandomTraderStrategy.next, random_random, buy, sell,
      submit, BaseStrategy.log. rewrite Hp.
    repeat case_decide; try done;
      destruct (QArith_base.Qlt_le_dec _ _); simpl; try done;
      repeat case_decide; done.
Qed.

(** ** Strategy lookup *)

(** X7. [load_strategy] accepts exactly the names buy_hold and random: any
    other name fails with the unknown-strategy error, whatever can be
    imported.  For buy_hold the outcome is that of importing
    decision.buy_and_hold and reading its attribute BuyAndHoldStrategy, for
    random that of importing decision.random_trader and reading
    RandomTraderStrategy: no such module, the exception that running the
    module raises, no such attribute, or the class.  Splitting a registered
    target never fails. *)
Theorem load_strategy_registered_names {C E : Type}
    (modules : gmap string (E + gmap string C)) (name : string) :
  (evaluate.load_strategy modules name = inl (evaluate.UnknownStrategy name)
   ↔ name ≠ "buy_hold" ∧ name ≠ "random")
  ∧ evaluate.load_strategy modules "buy_hold"
    = match modules !! "decision.buy_and_hold" with
      | None => inl (evaluate.ModuleNotFound "decision.buy_and_hold")
      | Some (inl e) => inl (evaluate.ImportRaised "decision.buy_and_hold" e)
      | Some (inr module) =>
          match module !! "BuyAndHoldStrategy" with
          | None =>
              inl (evaluate.AttributeMissing "decision.buy_and_hold"
                     "BuyAndHoldStrategy")
          | Some cls => inr cls
          end
      end
  ∧ evaluate.load_strategy modules "random"
    = match modules !! "decision.random_trader" with
      | None => inl (evaluate.ModuleNotFound "decision.random_trader")
      | Some (inl e) =>
          inl (evaluate.ImportRaised "decision.random_trader" e)
      | Some (inr module) =>
          match module !! "RandomTraderStrategy" with
          | None =>
              inl (evaluate.AttributeMissing "decision.random_trader"
                     "RandomTraderStrategy")
          | Some cls => inr cls
          end
      end
  ∧ evaluate.load_strategy modules name ≠ inl evaluate.UnpackError.
Proof.
  assert (evaluate.load_strategy modules "buy_hold"
    = match modules !! "decision.buy_and_hold" with
      | None => inl (evaluate.ModuleNotFound "decision.buy_and_hold")
      | Some (inl e) => inl (evaluate.ImportRaised "decision.buy_and_hold" e)
      | Some (inr module) =>
          match module !! "BuyAndHoldStrategy" with
          | None =>
              inl (evaluate.AttributeMissing "decision.buy_and_hold"
                     "BuyAndHoldStrategy")
          | Some cls => inr cls
          end
      end) as Hbuy by reflexivity.
  assert (evaluate.load_strategy modules "random"
    = match modules !! "decision.random_trader" with
      | None => inl (evaluate.ModuleNotFound "decision.random_trader")
      | Some (inl e) =>
          inl (evaluate.ImportRaised "decision.random_trader" e)
      | Some (inr module) =>
          match module !! "RandomTraderStrategy" with
          | None =>
              inl (evaluate.AttributeMissing "decision.random_trader"
                     "RandomTraderStrategy")
          | Some cls => inr cls
          end
      end) as Hrandom by reflexivity.
  assert (name ≠ "buy_hold" → name ≠ "random" →
          evaluate.load_strategy modules name
          = inl (evaluate.UnknownStrategy name)) as Hother.
  { intros H1 H2. unfold evaluate.load_strategy, evaluate.mapping.
    rewrite lookup_insert_ne by done. by rewrite lookup_singleton_ne. }
  split; [|split; [done|split; [done|]]].
  - split; [|by intros [??]; apply Hother].
    intros Hu. split; intros ->.
    + rewrite Hbuy in Hu. by repeat case_match.
    + rewrite Hrandom in Hu. by repeat case_match.
  - destruct (decide (name = "buy_hold")) as [->|H1];
      [rewrite Hbuy; by repeat case_match|].
    destruct (decide (name = "random")) as [->|H2];
      [rewrite Hrandom; by repeat case_match|].
    by rewrite Hother.
Qed.

(** ** The fetch scripts *)

Section scripts_facts.
Context {obj num : Type} `{!Pandas obj num}.

Implicit Types (daily : nat → result (list (string * list (cell obj num)))).

(** With at least one attempt in the range, the loop ends on a call of the
    vendor and returns what that call returned. *)
Lemma retry_loop_outcome daily (rc : Z) (m : nat) : ∀ (j : Z) (w : world),
  (0 ≤ j)%Z → (j + Z.of_nat (S m) = rc)%Z →
  calls w < calls (retry_loop daily rc (seqZ j (Z.of_nat (S m))) w).2
  ∧ calls (retry_loop daily rc (seqZ j (Z.of_nat (S m))) w).2
    ≤ calls w + S m
  ∧ (retry_loop daily rc (seqZ j (Z.of_nat (S m))) w).1
    = daily (calls (retry_loop daily rc (seqZ j (Z.of_nat (S m))) w).2 - 1)
  ∧ ∀ k, calls w ≤ k →
      k < calls (retry_loop daily rc (seqZ j (Z.of_nat (S m))) w).2 - 1 →
      ∃ e, daily k = Raise e.
Proof.
  induction m as [|m IH]; intros j w Hj Hrc;
    (rewrite seqZ_cons by lia); cbn [retry_loop pro_daily].
  - destruct (daily (calls w)) as [raw|e] eqn:Hd; simpl.
    + rewrite Nat.sub_0_r. repeat split; [lia..|done|intros; lia].
    + rewrite decide_True by lia. simpl. rewrite Nat.sub_0_r.
      repeat split; [lia..|done|intros; lia].
  - destruct (daily (calls w)) as [raw|e] eqn:Hd; simpl.
    + rewrite Nat.sub_0_r. repeat split; [lia..|done|intros; lia].
    + rewrite decide_False by lia.
      replace (Z.pred (Z.of_nat (S (S m)))) with (Z.of_nat (S m)) by lia.
      set (w1 := print_failed j rc e
                   {| calls := S (calls w); trace := trace w ++ [ApiCall] |}).
      destruct (IH (Z.succ j) w1) as (H1 & H2 & H3 & H4); [lia..|].
      change (calls w1) with (S (calls w)) in *.
      repeat split; [lia..|done|].
      intros k Hk1 Hk2. destruct (decide (k = calls w)) as [->|Hne]; [eauto|].
      apply H4; lia.
Qed.

(** X8. With a positive [retry_count], what [fetch_daily] does with the
    vendor is decided by the last call it makes: every earlier call raised,
    and the last call's table is processed or its exception is the one
    raised; the RuntimeError of the loop's else-clause is never raised.
    With a [retry_count] of zero or less the vendor is not called at all,
    nothing is printed, and that RuntimeError is raised. *)
Theorem fetch_daily_follows_last_call daily (rc : Z) (w : world) :
  ((0 < rc)%Z →
   calls w < calls (fetch_daily daily rc w).2
   ∧ (fetch_daily daily rc w).1
     = daily (calls (fetch_daily daily rc w).2 - 1) ≫= rename_sort_project
   ∧ ∀ k, calls w ≤ k → k < calls (fetch_daily daily rc w).2 - 1 →
       ∃ e, daily k = Raise e)
  ∧ ((rc ≤ 0)%Z → fetch_daily daily rc w = (Raise RuntimeError, w)).
Proof.
  split.
  - intros Hrc. unfold fetch_daily.
    pose proof (retry_loop_outcome daily rc (Z.to_nat rc - 1) 0 w) as H.
    replace (Z.of_nat (S (Z.to_nat rc - 1))) with rc in H by lia.
    destruct H as (H1 & _ & H3 & H4); [lia..|].
    destruct (retry_loop daily rc (seqZ 0 rc) w) as [r w1]. simpl in *.
    by rewrite H3.
  - intros Hrc. unfold fetch_daily. by rewrite seqZ_nil.
Qed.

End scripts_facts.

(** ** Row counts and the values of the Tushare fetcher *)

Section rows.
Context {obj num : Type} `{!Pandas obj num}.

Implicit Types (df raw out : list (string * list (cell obj num))).
Implicit Types (daily : nat → result (list (string * list (cell obj num)))).

Lemma rectangular_setitem n (l : string) (xs : list (cell obj num)) df :
  rectangular n df → length xs = n → rectangular n (setitem l xs df).
Proof.
  intros Hr Hx. unfold setitem, rectangular. case_decide.
  - apply Forall_fmap. eapply Forall_impl; [exact Hr|].
    intros [l' ys] Hys. simpl in *. by case_decide.
  - apply Forall_app. split; [done|]. by constructor.
Qed.

Lemma rectangular_reorder n (indexer : list nat) df :
  indexer ≡ₚ seq 0 n → rectangular n df →
  rectangular n (prod_map id (take indexer) <$> df).
Proof.
  intros Hp Hr. apply Forall_fmap. eapply Forall_impl; [exact Hr|].
  intros [l xs] Hx. simpl in *. by apply reordered_length.
Qed.

Lemma rectangular_select n (labels : list string) df :
  rectangular n df → rectangular n (labels ≫= λ l, loc l df).
Proof.
  intros Hr. apply Forall_forall.
  intros col (l & Hcol & _)%list_elem_of_bind.
  apply list_elem_of_filter in Hcol as [_ Hcol].
  by eapply Forall_forall in Hr.
Qed.

(** The normalizer keeps the number of rows. *)
Lemma normalize_keeps_rows `{!SortContract} df (mapping : option dict) out n :
  rectangular n df → _normalize_ohlcv df mapping = Ok out →
  rectangular n out ∧ len out = n.
Proof.
  intros Hrect (mp & _ & Hp)%normalize_Ok.
  apply (rectangular_rename _ mp) in Hrect.
  apply project_and_type_Ok in Hp
    as (d & o & h & l & c & v & d' & Hd & Ho & Hh & Hl & Hc & Hv & Hd' & ->).
  pose proof (rectangular_loc _ _ _ _ Hrect Hd) as Hnd.
  pose proof (rectangular_loc _ _ _ _ Hrect Ho) as Hno.
  pose proof (rectangular_loc _ _ _ _ Hrect Hh) as Hnh.
  pose proof (rectangular_loc _ _ _ _ Hrect Hl) as Hnl.
  pose proof (rectangular_loc _ _ _ _ Hrect Hc) as Hnc.
  pose proof (rectangular_loc _ _ _ _ Hrect Hv) as Hnv.
  apply to_datetime_series_length in Hd' as Hnd'. rewrite Hnd in Hnd'.
  assert (argsort (sort_key <$> d') ≡ₚ seq 0 n) as Hperm.
  { rewrite <- Hnd', <- (length_fmap sort_key). apply argsort_perm. }
  assert (rectangular n (typed_frame d' o h l c v)) as Hout.
  { unfold typed_frame, rectangular.
    repeat (apply Forall_cons; split;
      [by apply reordered_length; rewrite ?length_fmap|]).
    constructor. }
  split; [done|]. by apply Forall_inv in Hout.
Qed.

(** What the Tushare post-processing returns for a table of [n] rows. *)
Lemma rename_sort_project_rows `{!SortContract} raw out n :
  rectangular n raw → rename_sort_project raw = Ok out →
  ∃ d d' : list (cell obj num),
    loc "datetime" (rename tushare_map raw) = [("datetime", d)]
    ∧ to_datetime_series d = Ok d'
    ∧ argsort (sort_key <$> d') ≡ₚ seq 0 n
    ∧ out = use_cols ≫= (λ l,
        loc l (prod_map id (take (argsort (sort_key <$> d')))
                 <$> setitem "datetime" d' (rename tushare_map raw)))
    ∧ rectangular n out ∧ len out = n.
Proof.
  intros Hrect (d & d' & Hd & Hd' & Hall & ->)%rename_sort_project_Ok.
  apply (rectangular_rename _ tushare_map) in Hrect.
  pose proof (rectangular_loc _ _ _ _ Hrect Hd) as Hnd.
  apply to_datetime_series_length in Hd' as Hnd'. rewrite Hnd in Hnd'.
  assert (argsort (sort_key <$> d') ≡ₚ seq 0 n) as Hperm.
  { rewrite <- Hnd', <- (length_fmap sort_key). apply argsort_perm. }
  exists d, d'. do 4 (split; [done|]). split.
  - apply rectangular_select, rectangular_reorder; [done|].
    by apply rectangular_setitem.
  - cbn [use_cols mbind list_bind].
    rewrite loc_reorder, (loc_setitem_eq _ _ _ _ Hd). simpl.
    by apply reordered_length.
Qed.

(** A table [fetch_daily] returns is the processed table of the last call
    made to the vendor. *)
Lemma fetch_daily_Ok_last daily (rc : Z) (w w' : world) out :
  fetch_daily daily rc w = (Ok out, w') →
  calls w < calls w' ∧ calls w' ≤ calls w + Z.to_nat rc
  ∧ ∃ raw, daily (calls w' - 1) = Ok raw ∧ rename_sort_project raw = Ok out.
Proof.
  intros Hf. destruct (decide (rc ≤ 0)%Z) as [Hrc|Hrc].
  { by rewrite fetch_daily_no_attempt in Hf. }
  unfold fetch_daily in Hf.
  pose proof (retry_loop_outcome daily rc (Z.to_nat rc - 1) 0 w) as H.
  replace (Z.of_nat (S (Z.to_nat rc - 1))) with rc in H by lia.
  destruct H as (H1 & H2 & H3 & _); [lia..|].
  destruct (retry_loop daily rc (seqZ 0 rc) w) as [r w1]. simpl in *.
  injection Hf as Hr <-. split; [done|]. split; [lia|].
  rewrite <- H3. destruct r as [raw|e]; [|done]. by exists raw.
Qed.

(** X9. The Tushare fetcher types the dates only: in a table it returns for
    a vendor table of n rows, each of the columns open, high, low, close and
    volume holds the vendor's own cells, unconverted, in the order of one
    permutation of the rows (the one that sorts the dates); the table has n
    rows.  A price the vendor sent as text stays text, where the AKShare
    normalizer would make it a number or the missing-value marker. *)
Theorem fetch_daily_keeps_vendor_cells `{!SortContract} daily (rc : Z)
    (w w' : world) out :
  fetch_daily daily rc w = (Ok out, w') →
  ∃ raw, daily (calls w' - 1) = Ok raw
    ∧ ∀ n, rectangular n raw →
        ∃ indexer, indexer ≡ₚ seq 0 n ∧ rectangular n out
          ∧ ∀ col xs, col ∈ numeric_cols →
              (col, xs) ∈ rename tushare_map raw →
              (col, take indexer xs) ∈ out
              ∧ ∀ j i, indexer !! j = Some i →
                  take indexer xs !! j = xs !! i.
Proof.
  intros (_ & _ & raw & Hraw & Hp)%fetch_daily_Ok_last.
  exists raw. split; [done|]. intros n Hrect.
  destruct (rename_sort_project_rows raw out n Hrect Hp)
    as (d & d' & Hd & Hd' & Hperm & -> & Hout & _).
  exists (argsort (sort_key <$> d')). do 2 (split; [done|]).
  intros col xs Hcol Hin.
  assert (col ≠ "datetime") as Hne.
  { intros ->. revert Hcol.
    by apply (bool_decide_unpack ("datetime" ∉ numeric_cols)). }
  split.
  - apply list_elem_of_bind. exists col. split.
    + rewrite loc_reorder, loc_setitem_ne by done.
      apply (list_elem_of_fmap_2 (prod_map id _) _ (col, xs)).
      by apply list_elem_of_filter.
    + unfold use_cols. by right.
  - intros j i Hj. apply take_lookup; [|done].
    apply indexer_in_range in Hperm as [Hrange _].
    assert (length xs = n) as ->; [|done].
    apply (rectangular_rename _ tushare_map) in Hrect.
    exact (proj1 (Forall_forall _ _) Hrect _ Hin).
Qed.

End rows.

(** ** The two [main] functions *)

Section script_runs.
Context {obj num : Type} `{!Pandas obj num}.

Implicit Types (d : disk obj num).

Lemma fetch_daily_calls
    (daily : nat → result (list (string * list (cell obj num)))) (rc : Z)
    (w : world) :
  (0 < rc)%Z →
  calls w < calls (fetch_daily daily rc w).2
  ∧ calls (fetch_daily daily rc w).2 ≤ calls w + Z.to_nat rc.
Proof.
  intros Hrc. unfold fetch_daily.
  pose proof (retry_loop_outcome daily rc (Z.to_nat rc - 1) 0 w) as H.
  replace (Z.of_nat (S (Z.to_nat rc - 1))) with rc in H by lia.
  destruct H as (H1 & H2 & _); [lia..|].
  destruct (retry_loop daily rc (seqZ 0 rc) w) as [r w1]. simpl in *. lia.
Qed.

(** The notices of the retry loop: with a positive retry count the loop
    leaves, after the trace it found, one call and one notice for each
    failed call but the last call made, then that last call. *)
Lemma retry_loop_trace
    (daily : nat → result (list (string * list (cell obj num)))) (rc : Z)
    (m : nat) : ∀ (j : Z) (w : world),
  (0 ≤ j)%Z → (j + Z.of_nat (S m) = rc)%Z →
  ∃ es,
    length es ≤ m
    ∧ calls (retry_loop daily rc (seqZ j (Z.of_nat (S m))) w).2
      = calls w + S (length es)
    ∧ trace (retry_loop daily rc (seqZ j (Z.of_nat (S m))) w).2
      = trace w ++ retries rc j es ++ [ApiCall]
    ∧ ∀ i e, es !! i = Some e → daily (calls w + i) = Raise e.
Proof.
  induction m as [|m IH]; intros j w Hj Hrc;
    (rewrite seqZ_cons by lia); cbn [retry_loop pro_daily].
  - exists []. destruct (daily (calls w)) as [raw|e] eqn:Hd; simpl.
    + split; [lia|]. split; [lia|]. by split.
    + rewrite decide_True by lia. simpl.
      split; [lia|]. split; [lia|]. by split.
  - destruct (daily (calls w)) as [raw|e] eqn:Hd; simpl.
    + exists []. simpl. split; [lia|]. split; [lia|]. by split.
    + rewrite decide_False by lia.
      replace (Z.pred (Z.of_nat (S (S m)))) with (Z.of_nat (S m)) by lia.
      set (w1 := print_failed j rc e
                   {| calls := S (calls w); trace := trace w ++ [ApiCall] |}).
      destruct (IH (Z.succ j) w1) as (es & H1 & H2 & H3 & H4); [lia..|].
      exists (e :: es). rewrite H2, H3. simpl.
      replace (Z.succ j) with (j + 1)%Z by lia.
      split; [lia|]. split; [lia|].
      split; [by rewrite <- !app_assoc|].
      intros [|i] e'; simpl.
      * intros [= <-]. by rewrite Nat.add_0_r.
      * intros Hi. rewrite <- (H4 i e' Hi). f_equal. unfold w1. simpl. lia.
Qed.

Lemma fetch_daily_trace
    (daily : nat → result (list (string * list (cell obj num)))) (rc : Z)
    (w : world) :
  (0 < rc)%Z →
  ∃ es,
    (Z.of_nat (length es) < rc)%Z
    ∧ calls (fetch_daily daily rc w).2 = calls w + S (length es)
    ∧ trace (fetch_daily daily rc w).2
      = trace w ++ retries rc 0 es ++ [ApiCall]
    ∧ ∀ i e, es !! i = Some e → daily (calls w + i) = Raise e.
Proof.
  intros Hrc. unfold fetch_daily.
  pose proof (retry_loop_trace daily rc (Z.to_nat rc - 1) 0 w) as H.
  replace (Z.of_nat (S (Z.to_nat rc - 1))) with rc in H by lia.
  destruct H as (es & H1 & H2 & H3 & H4); [lia..|].
  destruct (retry_loop daily rc (seqZ 0 rc) w) as [r w1]. simpl in *.
  exists es. repeat split; [lia|done..].
Qed.

(** X10. The AKShare script prints its line only when the file is written
    in full.  When the vendor call or the normalization raises, the
    exception leaves [main], no file is touched and nothing is printed.
    When [to_csv] raises, its exception leaves [main] and nothing is
    printed; no file is touched when the output path could not be opened,
    and otherwise the output file alone, left incomplete.  When [main]
    returns, the one file written is the output path, holding the
    normalized vendor table, every other file is as before, and the one
    line printed reports the number of rows of the vendor table. *)
Theorem akshare_main_saves_normalized_table `{!SortContract}
    (stock_zh_a_hist :
       string → option string → option string → string →
       result (list (string * list (cell obj num))))
    (args : akshare_args) d :
  (∀ e,
     fetch_daily_akshare
       (stock_zh_a_hist (ak_symbol args) (ak_start args) (ak_end args)
          (ak_adjust args)) = Raise e →
     akshare_main stock_zh_a_hist args d = (Raise e, d))
  ∧ (∀ out e,
       fetch_daily_akshare
         (stock_zh_a_hist (ak_symbol args) (ak_start args) (ak_end args)
            (ak_adjust args)) = Ok out →
       (writing d (ak_outfile args) out = NotOpened e →
        akshare_main stock_zh_a_hist args d = (Raise e, d))
       ∧ (writing d (ak_outfile args) out = Interrupted e →
          ∃ d', akshare_main stock_zh_a_hist args d = (Raise e, d')
            ∧ saved d' = saved d
            ∧ files d' !! ak_outfile args = Some Incomplete
            ∧ ∀ path, path ≠ ak_outfile args →
                files d' !! path = files d !! path))
  ∧ ∀ d', akshare_main stock_zh_a_hist args d = (Ok (), d') →
      ∃ raw out,
        stock_zh_a_hist (ak_symbol args) (ak_start args) (ak_end args)
          (ak_adjust args) = Ok raw
        ∧ _normalize_ohlcv raw None = Ok out
        ∧ writing d (ak_outfile args) out = Written
        ∧ files d' !! ak_outfile args = Some (Csv out)
        ∧ (∀ path, path ≠ ak_outfile args →
             files d' !! path = files d !! path)
        ∧ ∃ rows, saved d' = saved d ++ [(rows, ak_outfile args)]
            ∧ ∀ n, rectangular n raw → rows = n.
Proof.
  unfold akshare_main, to_csv. split; [|split].
  - by intros e ->.
  - intros out e ->. split; [by intros ->|].
    intros ->. eexists. split; [done|]. simpl. split; [done|].
    split; [by rewrite lookup_insert_eq|].
    by intros path Hne; rewrite lookup_insert_ne.
  - intros d'.
    destruct (fetch_daily_akshare _) as [out|e] eqn:Hf; [|done].
    destruct (writing d (ak_outfile args) out) eqn:Hw; [|done..].
    intros [= <-].
    apply fetch_daily_akshare_Ok in Hf as (raw & Hraw & Hn).
    exists raw, out. do 3 (split; [done|]). simpl.
    split; [by rewrite lookup_insert_eq|].
    split; [by intros path Hne; rewrite lookup_insert_ne|].
    exists (len out). split; [done|].
    intros n Hrect. by destruct (normalize_keeps_rows raw None out n).
Qed.

(** X11. The Tushare script calls the vendor at least once and at most
    three times, and what [fetch_daily] prints is one retry notice after
    each failed call but the last call made, none after that one.  When
    [fetch_daily] raises, the exception leaves [main] and no file is
    touched.  When [to_csv] raises, its exception leaves [main]; no file is
    touched when the output path could not be opened, and otherwise the
    output file alone, left incomplete.  In both cases the line reporting
    the rows saved is not printed.  When [main] returns, the table
    processed is the one of the last call made, it is written to the output
    path and to no other, and the line printed reports the number of rows
    of that vendor table. *)
Theorem tushare_main_saves_last_fetch `{!SortContract}
    (pro_daily_for :
       string → string → option string → option string →
       nat → result (list (string * list (cell obj num))))
    (args : tushare_args) (w w' : world) d d' (r : result ()) :
  tushare_main pro_daily_for args w d = (r, w', d') →
  calls w < calls w' ∧ calls w' ≤ calls w + 3
  ∧ (∃ es,
       calls w' = calls w + S (length es)
       ∧ trace w' = trace w ++ retries 3 0 es ++ [ApiCall]
       ∧ ∀ i e, es !! i = Some e →
           pro_daily_for (ts_token args) (ts_symbol args) (ts_start args)
             (ts_end args) (calls w + i) = Raise e)
  ∧ (∀ path, path ≠ ts_outfile args → files d' !! path = files d !! path)
  ∧ match r with
    | Raise e =>
        saved d' = saved d
        ∧ ((fetch_daily
              (pro_daily_for (ts_token args) (ts_symbol args)
                 (ts_start args) (ts_end args)) retry_count_default w).1
           = Raise e ∧ d' = d
           ∨ ∃ out,
               (fetch_daily
                  (pro_daily_for (ts_token args) (ts_symbol args)
                     (ts_start args) (ts_end args)) retry_count_default w).1
               = Ok out
               ∧ (writing d (ts_outfile args) out = NotOpened e ∧ d' = d
                  ∨ writing d (ts_outfile args) out = Interrupted e
                    ∧ files d' !! ts_outfile args = Some Incomplete))
    | Ok _ =>
        ∃ raw out,
          pro_daily_for (ts_token args) (ts_symbol args) (ts_start args)
            (ts_end args) (calls w' - 1) = Ok raw
          ∧ rename_sort_project raw = Ok out
          ∧ writing d (ts_outfile args) out = Written
          ∧ files d' !! ts_outfile args = Some (Csv out)
          ∧ ∃ rows, saved d' = saved d ++ [(rows, ts_outfile args)]
              ∧ ∀ n, rectangular n raw → rows = n
    end.
Proof.
  unfold tushare_main, to_csv.
  pose proof (fetch_daily_calls
    (pro_daily_for (ts_token args) (ts_symbol args) (ts_start args)
       (ts_end args)) retry_count_default w) as Hcalls.
  pose proof (fetch_daily_trace
    (pro_daily_for (ts_token args) (ts_symbol args) (ts_start args)
       (ts_end args)) retry_count_default w) as Htrace.
  destruct (fetch_daily _ retry_count_default w) as [[out|e] w1] eqn:Hf;
    simpl in Hcalls, Htrace;
    (destruct Hcalls as [H1 H2]; [done|]);
    (destruct Htrace as (es & _ & H3 & H4 & H5); [done|]).
  - destruct (writing d (ts_outfile args) out) as [|e|e] eqn:Hw;
      intros [= <- <- <-];
      (split; [done|]); (split; [exact H2|]); (split; [by exists es|]).
    + split; [by intros path Hne; simpl; rewrite lookup_insert_ne|].
      apply fetch_daily_Ok_last in Hf as (_ & _ & raw & Hraw & Hp).
      exists raw, out. do 3 (split; [done|]). simpl.
      split; [by rewrite lookup_insert_eq|].
      exists (len out). split; [done|].
      intros n Hrect.
      by destruct (rename_sort_project_rows raw out n Hrect Hp)
        as (? & ? & _ & _ & _ & _ & _ & ?).
    + split; [done|]. split; [done|]. right. exists out.
      split; [done|]. by left.
    + split; [by intros path Hne; simpl; rewrite lookup_insert_ne|].
      split; [done|]. right. exists out. split; [done|]. right.
      split; [done|]. simpl. by rewrite lookup_insert_eq.
  - intros [= <- <- <-].
    split; [done|]. split; [exact H2|]. split; [by exists es|].
    split; [done|]. split; [done|]. by left.
Qed.

End script_runs.

(** ** The order of failures *)

Section failures.
Context {obj num : Type} `{!Pandas obj num}.

Implicit Types (df raw out : list (string * list (cell obj num))).

Lemma columns_setitem_present (l : string) (xs : list (cell obj num)) df :
  l ∈ columns df → columns (setitem l xs df) = columns df.
Proof.
  intros Hl. unfold setitem. rewrite decide_True by done.
  unfold columns. rewrite <- list_fmap_compose. apply list_fmap_ext.
  intros ? [l' ys]. simpl. by case_decide.
Qed.

Lemma loc_setitem_length (l c : string) (xs : list (cell obj num)) df :
  c ∈ columns df → length (loc l (setitem c xs df)) = length (loc l df).
Proof.
  intros Hc. unfold setitem. rewrite decide_True by done.
  unfold loc. induction df as [|[l' ys] df IH]; [done|].
  rewrite fmap_cons, !filter_cons. simpl.
  assert (length (filter (λ col, col.1 = l)
            ((λ col, if decide (col.1 = c) then (c, xs) else col) <$> df))
          = length (filter (λ col, col.1 = l) df)) as Hrest.
  { clear. induction df as [|[l0 zs] df IH]; [done|].
    rewrite fmap_cons, !filter_cons. simpl.
    destruct (decide (l0 = c)) as [->|?]; simpl;
      destruct (decide (c = l)) as [->|?]; simpl;
      repeat case_decide; simpl; congruence. }
  destruct (decide (l' = c)) as [->|?]; simpl;
    repeat case_decide; simpl; congruence.
Qed.

(** Coercing columns that are all present fails exactly on a repeated
    label, with the error of [pd.to_numeric]. *)
Lemma coerce_columns_repeated (cs : list string) df :
  Forall (λ c, c ∈ columns df) cs →
  Exists (λ c, 1 < length (loc c df)) cs →
  coerce_columns cs df = Raise TypeError.
Proof.
  revert df. induction cs as [|c cs IH]; intros df Hall Hdup.
  { by apply Exists_nil in Hdup. }
  apply Forall_cons in Hall as [Hc Hall]. simpl. unfold getitem.
  destruct (loc c df) as [|[l xs] [|col cols]] eqn:Hloc.
  - by apply loc_nil in Hloc.
  - simpl. apply IH.
    + by rewrite columns_setitem_present.
    + apply Exists_cons in Hdup as [Hdup|Hdup].
      * rewrite Hloc in Hdup. simpl in Hdup. lia.
      * eapply Exists_impl; [exact Hdup|]. intros c' Hc'. simpl in *.
        by rewrite loc_setitem_length.
  - reflexivity.
Qed.

Lemma getitem_list_ext (labels : list string) df df' :
  (∀ c, c ∈ labels → loc c df = loc c df') →
  getitem_list labels df = getitem_list labels df'.
Proof.
  intros Hloc. unfold getitem_list.
  assert (filter (λ l, l ∉ columns df) labels
          = filter (λ l, l ∉ columns df') labels
          ∧ labels ≫= (λ l, loc l df) = labels ≫= (λ l, loc l df'))
    as [-> ->]; [|done].
  induction labels as [|l labels IH]; [done|].
  destruct IH as [IH1 IH2]; [intros c Hc; apply Hloc; by right|].
  assert (loc l df = loc l df') as Hl by (apply Hloc; left).
  rewrite !filter_cons, !bind_cons, IH1, IH2, Hl. split; [|done].
  destruct (decide (l ∉ columns df)) as [Hn|Hn],
    (decide (l ∉ columns df')) as [Hn'|Hn']; try done.
  - apply loc_nil in Hn. rewrite Hl in Hn. by apply loc_nil in Hn.
  - apply loc_nil in Hn'. rewrite <- Hl in Hn'. by apply loc_nil in Hn'.
Qed.

(** The projection step sees the columns of the six canonical labels
    only. *)
Lemma project_and_type_ext df df' :
  (∀ c, c ∈ use_cols → loc c df = loc c df') →
  project_and_type df = project_and_type df'.
Proof.
  intros Hloc. unfold project_and_type.
  by rewrite (getitem_list_ext use_cols df df').
Qed.

(** What [project_and_type] does when a canonical label is missing, when
    the datetime label is repeated, when a date does not parse, and when a
    numeric label is repeated. *)
Lemma project_and_type_missing df m ms :
  filter (λ l, l ∉ columns df) use_cols = m :: ms →
  project_and_type df = Raise (KeyError (m :: ms)).
Proof. intros Hm. unfold project_and_type, getitem_list. by rewrite Hm. Qed.

Lemma project_and_type_present df :
  filter (λ l, l ∉ columns df) use_cols = [] →
  Forall (λ l, l ∈ columns df) use_cols
  ∧ getitem_list use_cols df = Ok (use_cols ≫= λ l, loc l df).
Proof.
  intros Hm. unfold getitem_list. rewrite Hm. split; [|done].
  apply Forall_forall. intros l Hl.
  destruct (decide (l ∈ columns df)) as [|Hn]; [done|].
  exfalso. by apply (filter_nil_not_elem_of _ _ l Hm Hn).
Qed.

Lemma project_and_type_dates_repeated df :
  filter (λ l, l ∉ columns df) use_cols = [] →
  1 < length (loc "datetime" df) →
  project_and_type df = Raise DuplicateLabel.
Proof.
  intros [_ Hsel]%project_and_type_present Hdup.
  unfold project_and_type. rewrite Hsel, Ok_bind. unfold getitem.
  rewrite loc_select by (apply NoDup_use_cols || by left).
  destruct (loc "datetime" df) as [|[??] [|??]]; simpl in *; [lia..|done].
Qed.

Lemma project_and_type_bad_date df (d : list (cell obj num)) :
  filter (λ l, l ∉ columns df) use_cols = [] →
  loc "datetime" df = [("datetime", d)] →
  Exists (λ x, parse_datetime d x = DtFail) d →
  project_and_type df = Raise DateTimeParseError.
Proof.
  intros [_ Hsel]%project_and_type_present Hd Hbad.
  unfold project_and_type. rewrite Hsel, Ok_bind. unfold getitem.
  rewrite loc_select by (apply NoDup_use_cols || by left).
  rewrite Hd. simpl. by rewrite to_datetime_series_fails.
Qed.

Lemma project_and_type_numeric_repeated df (d : list (cell obj num)) :
  filter (λ l, l ∉ columns df) use_cols = [] →
  loc "datetime" df = [("datetime", d)] →
  Forall (λ x, parse_datetime d x ≠ DtFail) d →
  Exists (λ l, 1 < length (loc l df)) numeric_cols →
  project_and_type df = Raise TypeError.
Proof.
  intros [Hall Hsel]%project_and_type_present Hd
    [d' Hd']%to_datetime_series_total Hdup.
  unfold project_and_type. rewrite Hsel, Ok_bind.
  set (df1 := use_cols ≫= λ l, loc l df).
  assert (getitem "datetime" df1 = Ok (OneColumn d)) as ->.
  { apply getitem_series. unfold df1.
    by rewrite loc_select by (apply NoDup_use_cols || by left). }
  rewrite Ok_bind. cbn [to_datetime]. rewrite Hd', Ok_bind.
  assert (∀ l, l ∈ use_cols → loc l df1 = loc l df) as Hloc
    by (intros l Hl; by apply loc_select; [apply NoDup_use_cols|]).
  assert (∀ l, l ∈ use_cols → l ∈ columns df1) as Hin.
  { intros l Hl. destruct (decide (l ∈ columns df1)) as [|Hn]; [done|].
    apply loc_nil in Hn. rewrite Hloc in Hn by done. apply loc_nil in Hn.
    by eapply Forall_forall in Hall. }
  rewrite coerce_columns_repeated; [done| |].
  - apply Forall_forall. intros c Hc.
    rewrite columns_setitem_present by (apply Hin; by left).
    apply Hin. unfold use_cols. by right.
  - apply Exists_exists in Hdup as (c & Hc & Hlen).
    apply Exists_exists. exists c. split; [done|].
    assert (c ∈ use_cols) as Hc' by (unfold use_cols; by right).
    rewrite loc_setitem_length by (apply Hin; by left).
    by rewrite Hloc.
Qed.

Lemma present_once (l : string) df :
  l ∈ columns df → ¬ 1 < length (loc l df) → ∃ xs, loc l df = [(l, xs)].
Proof. intros Hin Hlen. apply loc_single; [done|lia]. Qed.

Lemma dates_parse_or_not (d : list (cell obj num)) :
  Forall (λ x, parse_datetime d x ≠ DtFail) d
  ∨ Exists (λ x, parse_datetime d x = DtFail) d.
Proof.
  destruct (decide (Forall (λ x, parse_datetime d x ≠ DtFail) d))
    as [|Hn]; [by left|right].
  apply not_Forall_Exists in Hn; [|apply _].
  eapply Exists_impl; [exact Hn|]. intros x Hx. simpl in Hx.
  by apply dec_stable.
Qed.

(** X12. When a candidate matched, the AKShare normalizer reports what is
    wrong with the renamed table in a fixed order.  Canonical labels that no
    column carries come first: a key error listing all of them, in canonical
    order, whatever the dates.  With all six present: a repeated datetime
    label fails as a duplicate; otherwise a date that does not parse fails
    as a date error; otherwise a repeated price or volume label fails as a
    type error; otherwise a table is returned.  No other exception leaves
    the normalizer for a matched table. *)
Theorem normalize_failure_order df (mapping : option dict) (mp : dict) :
  first_match (candidate_maps mapping) (columns df) mp →
  (missing_labels (rename mp df) ≠ [] →
   _normalize_ohlcv df mapping
   = Raise (KeyError (missing_labels (rename mp df))))
  ∧ (missing_labels (rename mp df) = [] →
     (1 < length (loc "datetime" (rename mp df)) →
      _normalize_ohlcv df mapping = Raise DuplicateLabel)
     ∧ ∀ d, loc "datetime" (rename mp df) = [("datetime", d)] →
         (Exists (λ x, parse_datetime d x = DtFail) d →
          _normalize_ohlcv df mapping = Raise DateTimeParseError)
         ∧ (Forall (λ x, parse_datetime d x ≠ DtFail) d →
            Exists (λ l, 1 < length (loc l (rename mp df))) numeric_cols →
            _normalize_ohlcv df mapping = Raise TypeError)
         ∧ (Forall (λ x, parse_datetime d x ≠ DtFail) d →
            ¬ Exists (λ l, 1 < length (loc l (rename mp df))) numeric_cols →
            ∃ out, _normalize_ohlcv df mapping = Ok out))
  ∧ ∀ e, _normalize_ohlcv df mapping = Raise e →
      e = KeyError (missing_labels (rename mp df))
      ∨ e = DuplicateLabel ∨ e = DateTimeParseError ∨ e = TypeError.
Proof.
  intros Hfirst.
  assert (_normalize_ohlcv df mapping = project_and_type (rename mp df))
    as ->.
  { unfold _normalize_ohlcv. apply find_first_match in Hfirst.
    by rewrite Hfirst. }
  set (r := rename mp df).
  assert (missing_labels r ≠ [] →
          project_and_type r = Raise (KeyError (missing_labels r))) as H1.
  { intros Hm. unfold missing_labels in *.
    destruct (filter _ use_cols) as [|m ms] eqn:Hf; [done|].
    by apply project_and_type_missing. }
  assert (∀ d, missing_labels r = [] →
            loc "datetime" r = [("datetime", d)] →
            Forall (λ x, parse_datetime d x ≠ DtFail) d →
            ¬ Exists (λ l, 1 < length (loc l r)) numeric_cols →
            ∃ out, project_and_type r = Ok out) as H5.
  { intros d [Hall _]%project_and_type_present Hd
      [d' Hd']%to_datetime_series_total Hone.
    assert (∀ l, l ∈ numeric_cols → ∃ xs, loc l r = [(l, xs)]) as Hnum.
    { intros l Hl. apply present_once.
      - eapply Forall_forall in Hall; [done|]. unfold use_cols. by right.
      - intros Hlen. apply Hone, Exists_exists. eauto. }
    destruct (Hnum "open") as [o Ho];
      [by apply (bool_decide_unpack (_ ∈ numeric_cols))|].
    destruct (Hnum "high") as [h Hh];
      [by apply (bool_decide_unpack (_ ∈ numeric_cols))|].
    destruct (Hnum "low") as [lo Hlo];
      [by apply (bool_decide_unpack (_ ∈ numeric_cols))|].
    destruct (Hnum "close") as [c Hc];
      [by apply (bool_decide_unpack (_ ∈ numeric_cols))|].
    destruct (Hnum "volume") as [v Hv];
      [by apply (bool_decide_unpack (_ ∈ numeric_cols))|].
    exists (typed_frame d' o h lo c v). apply project_and_type_Ok.
    by exists d, o, h, lo, c, v, d'. }
  split; [exact H1|]. split.
  - intros Hm. split; [by apply project_and_type_dates_repeated|].
    intros d Hd. split; [by apply project_and_type_bad_date|].
    split; [by apply project_and_type_numeric_repeated|by apply H5].
  - intros e He.
    destruct (decide (missing_labels r = [])) as [Hm|Hm];
      [|left; rewrite H1 in He by done; by injection He as <-].
    right.
    destruct (decide (1 < length (loc "datetime" r))) as [Hdup|Hdup].
    { left. rewrite project_and_type_dates_repeated in He by done.
      by injection He as <-. }
    right.
    destruct (present_once "datetime" r) as [d Hd]; [|done|].
    { apply project_and_type_present in Hm as [Hall _].
      eapply Forall_forall in Hall; [done|]. by left. }
    destruct (dates_parse_or_not d) as [Hok|Hbad];
      [|left; rewrite (project_and_type_bad_date r d) in He by done;
        by injection He as <-].
    right.
    destruct (decide (Exists (λ l, 1 < length (loc l r)) numeric_cols))
      as [Hrep|Hrep].
    + rewrite (project_and_type_numeric_repeated r d) in He by done.
      by injection He as <-.
    + destruct (H5 d Hm Hd Hok Hrep) as [out Hout]. congruence.
Qed.

(** X13. The Tushare fetcher checks the renamed vendor table in another
    order: the dates come first and the projection last.  Without a
    datetime column the failure is a key error for datetime; with several, a
    duplicate error; a date that does not parse fails as a date error even
    when price or volume columns are missing; only when every date parses
    are missing canonical labels reported, all of them in one key error;
    otherwise a table is returned.  Repeated price or volume labels are no
    error here. *)
Theorem tushare_failure_order raw :
  (loc "datetime" (rename tushare_map raw) = [] →
   rename_sort_project raw = Raise (KeyError ["datetime"]))
  ∧ (1 < length (loc "datetime" (rename tushare_map raw)) →
     rename_sort_project raw = Raise DuplicateLabel)
  ∧ ∀ d, loc "datetime" (rename tushare_map raw) = [("datetime", d)] →
      (Exists (λ x, parse_datetime d x = DtFail) d →
       rename_sort_project raw = Raise DateTimeParseError)
      ∧ (Forall (λ x, parse_datetime d x ≠ DtFail) d →
         missing_labels (rename tushare_map raw) ≠ [] →
         rename_sort_project raw
         = Raise (KeyError (missing_labels (rename tushare_map raw))))
      ∧ (Forall (λ x, parse_datetime d x ≠ DtFail) d →
         missing_labels (rename tushare_map raw) = [] →
         ∃ out, rename_sort_project raw = Ok out).
Proof.
  unfold rename_sort_project. set (r := rename tushare_map raw).
  split; [|split].
  - intros Hd. unfold getitem. by rewrite Hd.
  - intros Hd. unfold getitem.
    destruct (loc "datetime" r) as [|[??] [|??]]; simpl in *; [lia..|done].
  - intros d Hd.
    assert (getitem "datetime" r = Ok (OneColumn d)) as Hg
      by (by apply getitem_series).
    rewrite Hg, Ok_bind. simpl.
    split; [by intros ->%to_datetime_series_fails|].
    assert (∀ d' : list (cell obj num),
      columns (prod_map id (take (argsort (sort_key <$> d')))
                 <$> setitem "datetime" d' r)
      = columns r) as Hcols.
    { intros d'. rewrite columns_reorder.
      apply columns_setitem_present. by eapply loc_present. }
    split.
    + intros [d' Hd']%to_datetime_series_total Hm.
      rewrite Hd', Ok_bind.
      rewrite (sort_values_Ok _ _ d') by (by eapply loc_setitem_eq).
      rewrite Ok_bind. unfold getitem_list. rewrite Hcols.
      unfold missing_labels in Hm |- *.
      by destruct (filter _ use_cols).
    + intros [d' Hd']%to_datetime_series_total Hm.
      rewrite Hd', Ok_bind.
      rewrite (sort_values_Ok _ _ d') by (by eapply loc_setitem_eq).
      rewrite Ok_bind. unfold getitem_list. rewrite Hcols.
      unfold missing_labels in Hm. rewrite Hm. by eexists.
Qed.

End failures.

(** ** What the normalizer does not depend on *)

Section invariance.
Context {obj num : Type} `{!Pandas obj num}.

Implicit Types (df raw out : list (string * list (cell obj num))).

Lemma find_ext_in {A} (f g : A → bool) (l : list A) :
  Forall (λ x, f x = g x) l → find f l = find g l.
Proof.
  induction 1 as [|x l Hx _ IH]; [done|]. simpl. by rewrite Hx, IH.
Qed.

Lemma find_some_elem_of {A} (f : A → bool) (l : list A) (x : A) :
  find f l = Some x → x ∈ l.
Proof. intros [Hin _]%find_some. by apply list_elem_of_In. Qed.

Lemma all_keys_in_same_set (cols cols' : list string) (mp : dict) :
  (∀ k, is_Some (mp !! k) → k ∈ cols ↔ k ∈ cols') →
  all_keys_in cols mp = all_keys_in cols' mp.
Proof.
  intros Hk. apply eq_true_iff_eq. rewrite !all_keys_in_within.
  unfold keys_within. split; intros Hsub k Hdom;
    apply elem_of_list_to_set; apply Hk; [by apply elem_of_dom| |
      by apply elem_of_dom|];
    by apply (elem_of_list_to_set (C:=gset string)), Hsub.
Qed.

Lemma project_and_type_no_mismatch df :
  match project_and_type df with
  | Raise (SchemaMismatch cols) => False
  | _ => True
  end.
Proof.
  destruct (project_and_type df) as [out|e] eqn:Hp; [done|].
  apply project_and_type_Raise in Hp. by destruct e.
Qed.

(** X14. A column that no candidate names and that has no canonical label
    is ignored by the AKShare normalizer, wherever it stands in the table:
    the same candidate is applied and the outcome, table or exception, is
    that of the table without the column.  Only the schema-mismatch error
    shows the column, in the list of columns it carries. *)
Theorem unknown_column_is_ignored df1 df2 (mapping : option dict)
    (l : string) (xs : list (cell obj num)) :
  l ∉ use_cols →
  Forall (λ mp : dict, mp !! l = None) (candidate_maps mapping) →
  _normalize_ohlcv (df1 ++ (l, xs) :: df2) mapping
  = match _normalize_ohlcv (df1 ++ df2) mapping with
    | Raise (SchemaMismatch cols) =>
        Raise (SchemaMismatch (columns (df1 ++ (l, xs) :: df2)))
    | r => r
    end.
Proof.
  intros Hl Hkeys. unfold _normalize_ohlcv.
  assert (find (all_keys_in (columns (df1 ++ (l, xs) :: df2)))
            (candidate_maps mapping)
          = find (all_keys_in (columns (df1 ++ df2)))
              (candidate_maps mapping)) as ->.
  { apply find_ext_in. eapply Forall_impl; [exact Hkeys|].
    intros mp Hmp. simpl in Hmp. apply all_keys_in_same_set.
    intros k [v Hk]. unfold columns. rewrite !fmap_app, fmap_cons.
    rewrite !elem_of_app, elem_of_cons. simpl.
    assert (k ≠ l) by congruence. tauto. }
  destruct (find _ (candidate_maps mapping)) as [mp|] eqn:Hfind; [|done].
  assert (mp !! l = None) as Hmp.
  { apply find_some_elem_of in Hfind.
    by eapply Forall_forall in Hkeys. }
  assert (project_and_type (rename mp (df1 ++ (l, xs) :: df2))
          = project_and_type (rename mp (df1 ++ df2))) as ->.
  { apply project_and_type_ext. intros c Hc. unfold rename.
    rewrite !fmap_app, fmap_cons, !loc_app. f_equal.
    unfold loc at 1. rewrite filter_cons. simpl. rewrite Hmp. simpl.
    rewrite decide_False; [done|]. by intros ->. }
  pose proof (project_and_type_no_mismatch (rename mp (df1 ++ df2))) as Hno.
  by destruct (project_and_type _) as [out|[]].
Qed.

Lemma loc_singleton_perm (c : string) df df' :
  df ≡ₚ df' → length (loc c df) ≤ 1 → loc c df = loc c df'.
Proof.
  intros Hperm Hlen.
  assert (loc c df ≡ₚ loc c df') as Hloc by (unfold loc; by rewrite Hperm).
  destruct (loc c df) as [|col [|??]]; simpl in Hlen; [| |lia].
  - by apply Permutation_nil_l.
  - by apply Permutation_singleton_l.
Qed.

Lemma missing_labels_perm df df' :
  df ≡ₚ df' → missing_labels df = missing_labels df'.
Proof.
  intros Hperm. unfold missing_labels. apply list_filter_iff.
  intros l. unfold columns. by rewrite Hperm.
Qed.

(** The outcome of the projection step when a canonical label is
    repeated. *)
Lemma project_and_type_repeated df :
  Exists (λ c, 1 < length (loc c df)) use_cols →
  project_and_type df
  = match missing_labels df with
    | [] =>
        match loc "datetime" df with
        | [(_, d)] =>
            if decide (Forall (λ x, parse_datetime d x ≠ DtFail) d)
            then Raise TypeError else Raise DateTimeParseError
        | _ => Raise DuplicateLabel
        end
    | missing => Raise (KeyError missing)
    end.
Proof.
  intros Hrep. destruct (missing_labels df) as [|m ms] eqn:Hm;
    [|by apply project_and_type_missing].
  destruct (decide (1 < length (loc "datetime" df))) as [Hdup|Hdup].
  { rewrite project_and_type_dates_repeated by done.
    by destruct (loc "datetime" df) as [|[??] [|??]]; simpl in *; try lia. }
  destruct (present_once "datetime" df) as [d Hd]; [|done|].
  { apply project_and_type_present in Hm as [Hall _].
    eapply Forall_forall in Hall; [done|]. by left. }
  rewrite Hd. case_decide as Hok.
  - apply (project_and_type_numeric_repeated df d); [done..|].
    unfold use_cols in Hrep.
    apply Exists_cons in Hrep as [Hrep|Hrep]; [|done].
    rewrite Hd in Hrep. simpl in Hrep. lia.
  - apply (project_and_type_bad_date df d); [done..|].
    by destruct (dates_parse_or_not d).
Qed.

(** X15. The outcome of the AKShare normalizer does not depend on the order
    of the columns of the vendor table: for every table and every
    rearrangement of its columns the same table is returned or the same
    exception raised; only the schema-mismatch error, which lists the
    columns, lists them in the order it found them. *)
Theorem column_order_is_irrelevant df df' (mapping : option dict) :
  df ≡ₚ df' →
  _normalize_ohlcv df' mapping
  = match _normalize_ohlcv df mapping with
    | Raise (SchemaMismatch cols) => Raise (SchemaMismatch (columns df'))
    | r => r
    end.
Proof.
  intros Hperm. unfold _normalize_ohlcv.
  assert (find (all_keys_in (columns df')) (candidate_maps mapping)
          = find (all_keys_in (columns df)) (candidate_maps mapping)) as ->.
  { apply find_ext_in, Forall_forall. intros mp _.
    apply all_keys_in_same_set. intros k _. unfold columns.
    by rewrite Hperm. }
  destruct (find _ (candidate_maps mapping)) as [mp|]; [|done].
  assert (rename mp df ≡ₚ rename mp df') as Hr
    by (unfold rename; by rewrite Hperm).
  assert (project_and_type (rename mp df')
          = project_and_type (rename mp df)) as ->.
  { destruct (decide (Exists (λ c, 1 < length (loc c (rename mp df)))
                        use_cols)) as [Hrep|Hrep].
    - rewrite !project_and_type_repeated; [..|done|].
      + rewrite <- (missing_labels_perm _ _ Hr).
        destruct (missing_labels (rename mp df)); [|done].
        assert (loc "datetime" (rename mp df)
                ≡ₚ loc "datetime" (rename mp df')) as Hd
          by (unfold loc; by rewrite Hr).
        destruct (loc "datetime" (rename mp df)) as [|[c d] [|col cols]].
        * apply Permutation_nil_l in Hd. by rewrite <- Hd.
        * apply Permutation_singleton_l in Hd. by rewrite <- Hd.
        * apply Permutation_length in Hd.
          by destruct (loc "datetime" (rename mp df')) as [|[??] [|??]].
      + eapply Exists_impl; [exact Hrep|]. intros c Hc. simpl in *.
        assert (loc c (rename mp df) ≡ₚ loc c (rename mp df')) as Hc'
          by (unfold loc; by rewrite Hr).
        apply Permutation_length in Hc'. lia.
    - symmetry. apply project_and_type_ext. intros c Hc.
      apply loc_singleton_perm; [done|].
      destruct (decide (length (loc c (rename mp df)) ≤ 1)) as [|Hn];
        [done|].
      exfalso. apply Hrep, Exists_exists. exists c. split; [done|lia]. }
  pose proof (project_and_type_no_mismatch (rename mp df)) as Hno.
  by destruct (project_and_type _) as [out|[]].
Qed.

End invariance.

(** ** Vendor answers without rows or without columns *)

Section empty.
Context {obj num : Type} `{!Pandas obj num}.

Implicit Types (df raw out : list (string * list (cell obj num))).

Lemma loc_once (l : string) df :
  length (loc l df) = 1 → ∃ xs, loc l df = [(l, xs)].
Proof.
  intros Hlen. apply loc_single; [|lia].
  destruct (loc l df) as [|col cols] eqn:Hloc; [done|].
  by eapply loc_present.
Qed.

Lemma loc_once_empty (l : string) df :
  rectangular 0 df → length (loc l df) = 1 → loc l df = [(l, [])].
Proof.
  intros Hrect [xs Hxs]%loc_once. rewrite Hxs.
  apply (rectangular_loc _ _ _ _ Hrect) in Hxs.
  by apply nil_length_inv in Hxs as ->.
Qed.

Lemma argsort_nil `{!SortContract} : argsort [] = [].
Proof. apply Permutation_nil_r. apply (argsort_perm []). Qed.

(** X16. A vendor answer without rows is not an error.  When its headers
    match a candidate and each canonical label is carried by one column
    after the rename, the AKShare normalizer returns the six canonical
    columns, empty, and so does the post-processing of the Tushare fetcher.
    An answer without any column is an error: the AKShare normalizer raises
    the schema-mismatch error with an empty column list, whatever mapping
    the caller passes, and the Tushare post-processing a key error for
    datetime. *)
Theorem vendor_answer_without_rows `{!SortContract} :
  (∀ df (mapping : option dict) (mp : dict),
     first_match (candidate_maps mapping) (columns df) mp →
     rectangular 0 df →
     Forall (λ l, length (loc l (rename mp df)) = 1) use_cols →
     _normalize_ohlcv df mapping = Ok empty_table)
  ∧ (∀ raw,
       rectangular 0 raw →
       Forall (λ l, length (loc l (rename tushare_map raw)) = 1) use_cols →
       rename_sort_project raw = Ok empty_table)
  ∧ (∀ mapping : option dict,
       _normalize_ohlcv [] mapping = Raise (SchemaMismatch []))
  ∧ rename_sort_project [] = Raise (KeyError ["datetime"]).
Proof.
  split; [|split; [|split]].
  - intros df mapping mp Hfirst Hrect Hone.
    apply normalize_Ok. exists mp. split; [done|].
    apply (rectangular_rename _ mp) in Hrect.
    apply project_and_type_Ok.
    exists [], [], [], [], [], [], [].
    repeat (apply Forall_cons in Hone as [?%(loc_once_empty _ _ Hrect) Hone]).
    do 7 (split; [done|]).
    unfold typed_frame. simpl. by rewrite argsort_nil.
  - intros raw Hrect Hone.
    apply (rectangular_rename _ tushare_map) in Hrect.
    apply rename_sort_project_Ok. exists [], [].
    assert (Forall (λ l, l ∈ columns (rename tushare_map raw)) use_cols)
      as Hall.
    { eapply Forall_impl; [exact Hone|]. intros l Hl. simpl in Hl.
      destruct (loc l (rename tushare_map raw)) as [|col cols] eqn:Hloc;
        [done|]. by eapply loc_present. }
    repeat (apply Forall_cons in Hone as [?%(loc_once_empty _ _ Hrect) Hone]).
    do 3 (split; [done|]). simpl. rewrite argsort_nil.
    cbn [use_cols mbind list_bind].
    rewrite !loc_reorder.
    rewrite (loc_setitem_ne "open"), (loc_setitem_ne "high"),
      (loc_setitem_ne "low"), (loc_setitem_ne "close"),
      (loc_setitem_ne "volume") by done.
    rewrite (loc_setitem_eq _ [] [] _) by done.
    by repeat match goal with H : loc _ _ = _ |- _ => rewrite H; clear H end.
  - intros mapping. unfold _normalize_ohlcv.
    assert (find (all_keys_in (columns ([] : list (string * list (cell obj num)))))
              (candidate_maps mapping) = None) as ->; [|done].
    apply find_no_match, Forall_forall. intros mp Hmp Hwithin.
    assert (mp = ∅) as ->.
    { apply (dom_empty_iff_L (D:=gset string)). unfold keys_within in Hwithin.
      simpl in Hwithin. set_solver. }
    unfold candidate_maps in Hmp.
    assert (∅ ∉ builtin_maps) as Hb
      by (by apply (bool_decide_unpack (∅ ∉ builtin_maps))).
    destruct mapping as [m|]; [|done].
    destruct (decide (m = ∅)); [done|].
    apply elem_of_cons in Hmp as [Heq|Hmp]; [congruence|done].
  - reflexivity.
Qed.

End empty.

(** ** The environment after [get_env] *)

Lemma load_dotenv_idemp (p : process) :
  load_dotenv (load_dotenv p).2 = load_dotenv p.
Proof.
  unfold load_dotenv.
  destruct (dotenv_file p) as [[pairs failure]|] eqn:Hfile; simpl;
    rewrite ?Hfile; [|done].
  do 2 f_equal. by rewrite <- (assoc_L (∪)), (idemp_L (∪)).
Qed.

(** X17. [get_env] changes the process environment in one way only: the
    variables of the .env file that the environment did not have are added;
    no variable the process had is changed, the variable asked for included,
    and nothing is removed.  The environment it leaves does not depend on
    the name asked for or on what was returned or raised, and a later call,
    for any name, returns or raises what it would have in the first place
    and leaves the environment as it is. *)
Theorem get_env_leaves_environment {str : Type} `{!Interpreter str}
    (name : str) (p : process) :
  (∀ k v, environ p !! k = Some v →
     environ (get_env name p).2 !! k = Some v)
  ∧ (∀ k, environ p !! k = None →
       environ (get_env name p).2 !! k = dotenv_pairs p !! k)
  ∧ (get_env name p).2 = (load_dotenv p).2
  ∧ ∀ name' : str,
      get_env name' (get_env name p).2
      = ((get_env name' p).1, (get_env name p).2).
Proof.
  assert ((get_env name p).2 = (load_dotenv p).2) as Hp
    by (by rewrite get_env_cases).
  rewrite Hp. split; [|split; [|split; [done|]]].
  - intros k v Hk. by rewrite load_dotenv_lookup, Hk.
  - intros k Hk. by rewrite load_dotenv_lookup, Hk.
  - intros name'. unfold get_env. rewrite load_dotenv_idemp.
    destruct (load_dotenv p) as [[|e] p']; [|done]. simpl.
    destruct (os_getenv name' p') as [v|e]; [|done]. by destruct (falsy v).
Qed.

(** ** Logging and trading *)

Lemma same_trading_dispatch_buy_and_hold p q s s' c :
  size p = size q → same_trading s s' →
  same_trading (dispatch BuyAndHoldStrategy.next p s c)
    (dispatch BuyAndHoldStrategy.next q s' c).
Proof.
  intros Hsize (Ho & Hb & He & Hs & Hd).
  destruct s, s'. simpl in *. subst.
  destruct c as [b|b o|b t|b]; simpl;
    unfold BuyAndHoldStrategy.next, BaseStrategy.notify_order,
      BaseStrategy.notify_trade, BaseStrategy.stop, BaseStrategy.log,
      buy, submit, same_trading; simpl; rewrite ?Hsize;
    destruct (printlog p), (printlog q); simpl;
    repeat (case_decide; simpl); try done;
    repeat (case_match; simpl); done.
Qed.

Lemma same_trading_dispatch_random rng p q s s' c :
  size p = size q → buy_prob p = buy_prob q → sell_prob p = sell_prob q →
  same_trading s s' →
  same_trading (dispatch (RandomTraderStrategy.next rng) p s c)
    (dispatch (RandomTraderStrategy.next rng) q s' c).
Proof.
  intros Hsize Hbuy Hsell (Ho & Hb & He & Hs & Hd).
  destruct s, s'. simpl in *. subst.
  destruct c as [b|b o|b t|b]; simpl;
    unfold RandomTraderStrategy.next, BaseStrategy.notify_order,
      BaseStrategy.notify_trade, BaseStrategy.stop, BaseStrategy.log,
      random_random, buy, sell, submit, same_trading; simpl;
    rewrite ?Hsize, ?Hbuy, ?Hsell;
    destruct (printlog p), (printlog q); simpl;
    repeat (case_decide; simpl); try done;
    repeat (case_match; simpl); try done;
    repeat (case_decide; simpl); done.
Qed.

(** X18. Logging does not change trading.  Two runs of a strategy over the
    same callbacks, with the same size and probabilities (and, for the
    random trader, the same random numbers) but different [printlog]
    settings, send the same orders in the same order, hold the same pending
    order, and draw the same number of random numbers; they differ in what
    is printed only. *)
Theorem logging_does_not_change_trading rng p q cs s s' :
  size p = size q → buy_prob p = buy_prob q → sell_prob p = sell_prob q →
  same_trading s s' →
  same_trading (run BuyAndHoldStrategy.next p cs s)
    (run BuyAndHoldStrategy.next q cs s')
  ∧ same_trading (run (RandomTraderStrategy.next rng) p cs s)
      (run (RandomTraderStrategy.next rng) q cs s').
Proof.
  intros Hsize Hbuy Hsell. revert s s'.
  induction cs as [|c cs IH]; intros s s' Hsame; [done|].
  rewrite !run_cons. split.
  - apply IH. by apply same_trading_dispatch_buy_and_hold.
  - apply IH. by apply same_trading_dispatch_random.
Qed.

(** ** Worked examples, continued *)

Section more_examples.
Import Sample Demo.

Lemma pending_order_blocks_until_notified_witness :
  order pending = Some 0 ∧ Forall keeps_pending waiting
  ∧ sent (run BuyAndHoldStrategy.next quiet waiting pending) = [BuyReq 10]
  ∧ drawn (run (RandomTraderStrategy.next coin) quiet waiting pending) = 0.
Proof.
  assert (Forall keeps_pending waiting) as Hwait.
  { repeat constructor. }
  split; [reflexivity|]. split; [exact Hwait|].
  destruct (pending_order_blocks_until_notified quiet coin waiting pending 0
              eq_refl Hwait) as ((_ & Hsent & _) & (_ & _ & Hdrawn) & _).
  split; [exact Hsent|exact Hdrawn].
Defined.

Lemma buy_and_hold_buys_on_first_flat_bar_witness :
  Forall not_flat_bar [CallNext holding; CallStop holding]
  ∧ position flat = 0%Z ∧ size quiet ≠ 0%Z
  ∧ sent (run BuyAndHoldStrategy.next quiet
            ([CallNext holding; CallStop holding] ++ [CallNext flat])
            BuyAndHoldStrategy.init)
    = [BuyReq 10].
Proof.
  assert (Forall not_flat_bar [CallNext holding; CallStop holding]) as Hcs.
  { repeat constructor; simpl; lia. }
  assert (size quiet ≠ 0%Z) as Hsize by (simpl; lia).
  split; [exact Hcs|]. split; [reflexivity|]. split; [exact Hsize|].
  exact (proj1 (buy_and_hold_buys_on_first_flat_bar quiet
                  [CallNext holding; CallStop holding] flat
                  Hcs eq_refl Hsize)).
Defined.

Lemma coin_in_range (k : nat) :
  QArith_base.Qle (QArith_base.Qmake 0 1) (coin k)
  ∧ QArith_base.Qlt (coin k) (QArith_base.Qmake 1 1).
Proof.
  unfold coin, QArith_base.Qle, QArith_base.Qlt.
  destruct (Nat.even k); simpl; lia.
Defined.

Lemma random_trader_degenerate_probabilities_witness :
  (∀ k, QArith_base.Qle (QArith_base.Qmake 0 1) (coin k)
        ∧ QArith_base.Qlt (coin k) (QArith_base.Qmake 1 1))
  ∧ sent (RandomTraderStrategy.next coin eager flat
            RandomTraderStrategy.init)
    = [BuyReq 10].
Proof.
  split; [exact coin_in_range|].
  destruct (random_trader_degenerate_probabilities coin eager coin_in_range)
    as (_ & _ & Hbuy & _).
  refine (proj1 (Hbuy flat RandomTraderStrategy.init _ eq_refl eq_refl _)).
  - unfold QArith_base.Qle. simpl. lia.
  - simpl. lia.
Defined.

Lemma printlog_off_prints_nothing_witness :
  printlog quiet = false
  ∧ printed (run BuyAndHoldStrategy.next quiet
               [CallNext flat; CallStop flat] BuyAndHoldStrategy.init)
    = [].
Proof.
  split; [reflexivity|].
  exact (proj1 (printlog_off_prints_nothing coin quiet
                  [CallNext flat; CallStop flat] BuyAndHoldStrategy.init
                  eq_refl)).
Defined.

Lemma logging_does_not_change_trading_witness :
  same_trading BuyAndHoldStrategy.init BuyAndHoldStrategy.init
  ∧ same_trading
      (run BuyAndHoldStrategy.next loud [CallNext flat; CallStop flat]
         BuyAndHoldStrategy.init)
      (run BuyAndHoldStrategy.next quiet [CallNext flat; CallStop flat]
         BuyAndHoldStrategy.init).
Proof.
  assert (same_trading BuyAndHoldStrategy.init BuyAndHoldStrategy.init)
    as Hinit by (by repeat split).
  split; [exact Hinit|].
  exact (proj1 (logging_does_not_change_trading coin loud quiet
                  [CallNext flat; CallStop flat] _ _
                  eq_refl eq_refl eq_refl Hinit)).
Defined.

Lemma fetch_daily_keeps_vendor_cells_witness :
  ∃ out w',
    fetch_daily (flaky 0 bars_tushare) 3 fresh = (Ok out, w')
    ∧ rectangular 2 bars_tushare
    ∧ rectangular 2 out.
Proof.
  assert (rectangular 2 bars_tushare) as Hrect by (repeat constructor).
  eexists _, _. split; [exact fetch_bars_tushare|].
  split; [exact Hrect|].
  destruct (@fetch_daily_keeps_vendor_cells _ _ _ sample_sort_contract
              _ _ _ _ _ fetch_bars_tushare) as (raw & Hraw & Hrows).
  assert (raw = bars_tushare) as -> by (by injection Hraw as <-).
  destruct (Hrows 2 Hrect) as (indexer & _ & Hout & _). exact Hout.
Defined.

Lemma akshare_main_saves_normalized_table_witness :
  ∃ d', akshare_main stock_zh_a_hist akshare_cli blank = (Ok (), d')
    ∧ saved d' = [(3, "bars.csv")].
Proof.
  assert (rectangular 3 bars_zh) as Hrect by (repeat constructor).
  pose (d' := (akshare_main stock_zh_a_hist akshare_cli blank).2).
  assert (akshare_main stock_zh_a_hist akshare_cli blank = (Ok (), d'))
    as Hrun by (vm_compute; reflexivity).
  exists d'. split; [exact Hrun|].
  destruct (proj2 (proj2 (@akshare_main_saves_normalized_table _ _ _
                     sample_sort_contract stock_zh_a_hist akshare_cli blank))
              d' Hrun)
    as (raw & out & Hraw & _ & _ & _ & _ & rows & Hsaved & Hrows).
  assert (raw = bars_zh) as -> by (by injection Hraw as <-).
  rewrite Hsaved, (Hrows 3 Hrect). reflexivity.
Defined.

(** Runs that raise: the output path cannot be opened; the disk is full;
    the vendor times out three times, and two retry notices are printed. *)
Example scripts_that_write_nothing :
  akshare_main stock_zh_a_hist akshare_cli no_directory
  = (Raise OSError, no_directory)
  ∧ (akshare_main stock_zh_a_hist akshare_cli no_space).1 = Raise OSError
  ∧ files (akshare_main stock_zh_a_hist akshare_cli no_space).2
    = {[ "bars.csv" := Incomplete ]}
  ∧ saved (akshare_main stock_zh_a_hist akshare_cli no_space).2 = []
  ∧ tushare_main pro_daily_for tushare_cli fresh no_directory
    = (Raise OSError,
       {| calls := 2;
          trace := [ApiCall; Printed 1 3 (VendorError "timeout");
                    ApiCall] |},
       no_directory)
  ∧ tushare_main (λ _ _ _ _, flaky 3 bars_tushare) tushare_cli fresh blank
    = (Raise (VendorError "timeout"),
       {| calls := 3;
          trace := [ApiCall; Printed 1 3 (VendorError "timeout");
                    ApiCall; Printed 2 3 (VendorError "timeout");
                    ApiCall] |},
       blank).
Proof. repeat split; vm_compute; reflexivity. Qed.

(** What [load_strategy] gives for the modules of [importable]. *)
Example load_strategy_importable :
  evaluate.load_strategy importable "buy_hold"
  = inl (evaluate.ImportRaised "decision.buy_and_hold"
           "ImportError: attempted relative import beyond top-level package")
  ∧ evaluate.load_strategy importable "random"
    = inr "class RandomTraderStrategy"
  ∧ evaluate.load_strategy importable "momentum"
    = inl (evaluate.UnknownStrategy "momentum").
Proof. repeat split; vm_compute; reflexivity. Qed.

Lemma tushare_run :
  rename_sort_project bars_tushare
  = Ok [("datetime", [Timestamp 20240101; Timestamp 20240102]);
        ("open", [Obj "11"; Obj "10"]); ("high", [Obj "13"; Obj "12"]);
        ("low", [Obj "9"; Obj "8"]); ("close", [Obj "12"; Obj "11"]);
        ("volume", [Obj "200"; Obj "100"])].
Proof. vm_compute. reflexivity. Qed.

Lemma tushare_main_saves_last_fetch_witness :
  ∃ w' d', tushare_main pro_daily_for tushare_cli fresh blank
           = (Ok (), w', d')
    ∧ calls w' ≤ 3 ∧ saved d' = [(2, "bars.csv")].
Proof.
  assert (rectangular 2 bars_tushare) as Hrect by (repeat constructor).
  pose (w' := (tushare_main pro_daily_for tushare_cli fresh blank).1.2).
  pose (d' := (tushare_main pro_daily_for tushare_cli fresh blank).2).
  assert (tushare_main pro_daily_for tushare_cli fresh blank
          = (Ok (), w', d')) as Hrun by (vm_compute; reflexivity).
  exists w', d'. split; [exact Hrun|].
  destruct (@tushare_main_saves_last_fetch _ _ _ sample_sort_contract
              pro_daily_for tushare_cli fresh w' blank d' (Ok ()) Hrun)
    as (_ & Hcalls & _ & _ & raw & out & Hraw & _ & _ & _ & rows & Hsaved
        & Hrows).
  split; [exact Hcalls|].
  assert (raw = bars_tushare) as -> by (by injection Hraw as <-).
  rewrite Hsaved, (Hrows 2 Hrect). reflexivity.
Defined.

Lemma five_map_first_for_bars_five :
  first_match (candidate_maps (Some five_map)) (columns bars_five) five_map.
Proof.
  exists [], builtin_maps.
  split; [reflexivity|]. split; [constructor|].
  by apply all_keys_in_within.
Defined.

Lemma normalize_failure_order_witness :
  first_match (candidate_maps (Some five_map)) (columns bars_five) five_map
  ∧ missing_labels (rename five_map bars_five) = ["volume"]
  ∧ _normalize_ohlcv bars_five (Some five_map) = Raise (KeyError ["volume"]).
Proof.
  split; [exact five_map_first_for_bars_five|].
  split; [reflexivity|].
  refine (proj1 (normalize_failure_order bars_five (Some five_map) five_map
                   five_map_first_for_bars_five) _).
  discriminate.
Defined.

Lemma unknown_column_is_ignored_witness :
  ("股票代码" ∉ use_cols)
  ∧ Forall (λ mp : dict, mp !! "股票代码" = None) (candidate_maps None)
  ∧ _normalize_ohlcv
      (bars_plain
         ++ ("股票代码", Obj <$> ["000001"; "000001"; "000001"]) :: [])
      None
    = _normalize_ohlcv (bars_plain ++ []) None.
Proof.
  assert ("股票代码" ∉ use_cols) as Hl
    by (by apply (bool_decide_unpack ("股票代码" ∉ use_cols))).
  assert (Forall (λ mp : dict, mp !! "股票代码" = None) (candidate_maps None))
    as Hkeys by (repeat constructor).
  split; [exact Hl|]. split; [exact Hkeys|].
  rewrite (unknown_column_is_ignored bars_plain [] None "股票代码"
             (Obj <$> ["000001"; "000001"; "000001"]) Hl Hkeys).
  vm_compute. reflexivity.
Defined.

Lemma column_order_is_irrelevant_witness :
  bars_plain ≡ₚ bars_swapped
  ∧ _normalize_ohlcv bars_swapped None = _normalize_ohlcv bars_plain None.
Proof.
  assert (bars_plain ≡ₚ bars_swapped) as Hperm by apply perm_swap.
  split; [exact Hperm|].
  rewrite (column_order_is_irrelevant bars_plain bars_swapped None Hperm).
  vm_compute. reflexivity.
Defined.

Lemma zh_first_for_bars_no_rows :
  first_match (candidate_maps None) (columns bars_no_rows) zh_map.
Proof.
  exists [], [en_map; zh_lot_map; zh_share_map].
  split; [reflexivity|]. split; [constructor|].
  by apply all_keys_in_within.
Defined.

Lemma vendor_answer_without_rows_witness :
  first_match (candidate_maps None) (columns bars_no_rows) zh_map
  ∧ rectangular 0 bars_no_rows
  ∧ Forall (λ l, length (loc l (rename zh_map bars_no_rows)) = 1) use_cols
  ∧ _normalize_ohlcv bars_no_rows None = Ok empty_table.
Proof.
  assert (rectangular 0 bars_no_rows) as Hrect by (repeat constructor).
  assert (Forall (λ l, length (loc l (rename zh_map bars_no_rows)) = 1)
            use_cols) as Hone by (repeat constructor).
  split; [exact zh_first_for_bars_no_rows|].
  split; [exact Hrect|]. split; [exact Hone|].
  exact (proj1 (@vendor_answer_without_rows _ _ _ sample_sort_contract)
           bars_no_rows None zh_map zh_first_for_bars_no_rows Hrect Hone).
Defined.

End more_examples.
